(** * mcp-gemini-filesearch: the resilient operation layer

    A shallow embedding of [src/lib/error-handler.ts] and of the parts of
    [src/lib/gemini-client.ts] and [src/tools/add-document.ts] that decide the
    error taxonomy, the retry executor, the resolve-or-create protocol for the
    File Search Store, the dedupe-key derivation and the paging of the
    document list.

    Conventions of the embedding.
    - A JavaScript string is a [string], read as its UTF-8 bytes.
      [toLowerCase] acts on the ASCII letters A-Z, so on messages of ASCII
      characters the classifier of the model is that of the code (outside
      ASCII, JavaScript also turns the Kelvin sign into k and the dotted
      capital I into i). [substring] counts UTF-16 code units.
    - A JavaScript integer number is a [Z]; a duration that carries the
      random jitter is a rational ([Q]), rounded the way doubles are.
    - An [async] function is a state transformer over the world it runs in:
      [M S A := S -> Res A * S]. [await] is sequencing; a rejected promise
      or a [throw] is [Throw e]. This is one operation at a time; where
      operations overlap, the awaits are marked ([Async]) and a schedule
      says whose turn it is.
    - What the process does not own (the REST endpoints, the SDK's file
      manager, [fs], [path], the clock, [Math.random]) is a [Platform] over
      an abstract [World]; the properties hold for every platform. The
      generative model and the file manager's calls by id, which search,
      passages, deletion and the health check use, are a second record
      ([Sdk]).
    - Every request that leaves the process is appended to a log kept next
      to the client object, so that "no remote call" can be stated.
    - Structured logging ([logger.info] and friends) writes to stderr only
      and is left out. *)

From Stdlib Require Import ZArith List String Ascii Bool Lia QArith Qround Lqa.
From Stdlib Require Import Strings.Byte DecimalString.
Import ListNotations.

Local Open Scope string_scope.
Local Open Scope Z_scope.

(* ====================================================================== *)
(** ** JavaScript string helpers                                           *)
(* ====================================================================== *)

Module JsString.

(** [c.toLowerCase()] on one ASCII character. *)
Definition lower_ascii (c : ascii) : ascii :=
  let n := nat_of_ascii c in
  if andb (Nat.leb 65 n) (Nat.leb n 90) then ascii_of_nat (n + 32) else c.

(** [s.toLowerCase()]. *)
Fixpoint toLowerCase (s : string) : string :=
  match s with
  | EmptyString => EmptyString
  | String c s' => String (lower_ascii c) (toLowerCase s')
  end.

(** [s.startsWith(p)]. *)
Definition startsWith (s p : string) : bool := String.prefix p s.

(** [s.includes(kw)]: [kw] occurs somewhere in [s]. *)
Fixpoint includes (s kw : string) : bool :=
  if startsWith s kw then true
  else match s with
       | EmptyString => false
       | String _ s' => includes s' kw
       end.

(** JavaScript truthiness of a string: only the empty string is falsy. *)
Definition truthy (s : string) : bool :=
  match s with EmptyString => false | _ => true end.

(** Truthiness of [string | null | undefined]. *)
Definition truthy_opt (o : option string) : bool :=
  match o with Some s => truthy s | None => false end.

(** [a || b] on optional strings. *)
Definition or_else (o : option string) (d : string) : string :=
  match o with
  | Some s => if truthy s then s else d
  | None => d
  end.

End JsString.
Import JsString.

(* ====================================================================== *)
(** ** error-handler.ts: error codes and MCPError                          *)
(* ====================================================================== *)

Inductive ErrorCode : Type :=
| FILE_TOO_LARGE | INVALID_FILE_TYPE | FILE_NOT_FOUND
| UPLOAD_FAILED | DOWNLOAD_FAILED
| INDEXING_TIMEOUT | INDEXING_FAILED | QUERY_FAILED
| STORE_NOT_FOUND | STORE_ACCESS_DENIED
| RATE_LIMITED | API_ERROR | AUTH_FAILED
| VALIDATION_ERROR | INVALID_INPUT
| NETWORK_ERROR | UNKNOWN_ERROR.

Definition ErrorCode_eqb (a b : ErrorCode) : bool :=
  match a, b with
  | FILE_TOO_LARGE, FILE_TOO_LARGE | INVALID_FILE_TYPE, INVALID_FILE_TYPE
  | FILE_NOT_FOUND, FILE_NOT_FOUND | UPLOAD_FAILED, UPLOAD_FAILED
  | DOWNLOAD_FAILED, DOWNLOAD_FAILED | INDEXING_TIMEOUT, INDEXING_TIMEOUT
  | INDEXING_FAILED, INDEXING_FAILED | QUERY_FAILED, QUERY_FAILED
  | STORE_NOT_FOUND, STORE_NOT_FOUND | STORE_ACCESS_DENIED, STORE_ACCESS_DENIED
  | RATE_LIMITED, RATE_LIMITED | API_ERROR, API_ERROR | AUTH_FAILED, AUTH_FAILED
  | VALIDATION_ERROR, VALIDATION_ERROR | INVALID_INPUT, INVALID_INPUT
  | NETWORK_ERROR, NETWORK_ERROR | UNKNOWN_ERROR, UNKNOWN_ERROR => true
  | _, _ => false
  end.

(** [details?: Record<string, unknown>]: the keys in insertion order. *)
Definition Details : Type := list (string * string).

(** [class MCPError extends Error]. The constructor's default for
    [retryable] is [false] and for [details] is [undefined]. *)
Record MCPError : Type := mkMCPError {
  code : ErrorCode;
  message : string;
  retryable : bool;
  details : option Details
}.

(** Anything a JavaScript [catch] clause can receive, by the shapes the
    error handler tells apart. *)
Inductive Thrown : Type :=
| TMCP (e : MCPError)                              (* instanceof MCPError *)
| TError (name msg : string) (status : option Z)   (* any other Error object *)
| TString (s : string)                             (* typeof === 'string' *)
| TObject (status : option Z)                      (* non-null object, not an Error *)
| TOther.                                          (* null, undefined, number, ... *)

(** The outcome of awaiting a promise. *)
Inductive Res (A : Type) : Type :=
| Ok (a : A)
| Throw (e : Thrown).
Arguments Ok {A} a.
Arguments Throw {A} e.

(* ---------------------------------------------------------------------- *)
(** *** isRetryable                                                        *)

Definition RETRYABLE_ERROR_CODES : list ErrorCode :=
  [RATE_LIMITED; NETWORK_ERROR; INDEXING_TIMEOUT; API_ERROR].

Definition RETRYABLE_HTTP_STATUS_CODES : list Z := [408; 429; 500; 502; 503; 504].

Definition has_code (l : list ErrorCode) (c : ErrorCode) : bool :=
  existsb (ErrorCode_eqb c) l.

Definition has_status (l : list Z) (s : Z) : bool := existsb (Z.eqb s) l.

(** [statusCode && RETRYABLE_HTTP_STATUS_CODES.has(statusCode)]. *)
Definition retryable_status (status : option Z) : bool :=
  match status with
  | Some s => andb (negb (s =? 0)) (has_status RETRYABLE_HTTP_STATUS_CODES s)
  | None => false
  end.

Definition isRetryable (error : Thrown) : bool :=
  match error with
  | TMCP e => orb (retryable e) (has_code RETRYABLE_ERROR_CODES (code e))
  | TError _ _ status => retryable_status status
  | TObject status => retryable_status status
  | TString _ => false
  | TOther => false
  end.

(* ---------------------------------------------------------------------- *)
(** *** parseGeminiError                                                   *)

Definition parseGeminiError (error : Thrown) : MCPError :=
  match error with
  | TMCP e => e
  | TError name msg _ =>
      let message := toLowerCase msg in
      let details := Some [("original_error", msg); ("name", name)] in
      if orb (includes message "too large") (includes message "file size") then
        mkMCPError FILE_TOO_LARGE msg false details
      else if orb (includes message "invalid file") (includes message "unsupported") then
        mkMCPError INVALID_FILE_TYPE msg false details
      else if orb (includes message "rate limit") (includes message "quota") then
        mkMCPError RATE_LIMITED msg true details
      else if orb (includes message "auth")
                (orb (includes message "unauthorized") (includes message "api key")) then
        mkMCPError AUTH_FAILED msg false details
      else if andb (includes message "store") (includes message "not found") then
        mkMCPError STORE_NOT_FOUND msg false details
      else if orb (includes message "network")
                (orb (includes message "timeout")
                   (orb (includes message "econnrefused") (includes message "enotfound"))) then
        mkMCPError NETWORK_ERROR msg true details
      else
        mkMCPError API_ERROR msg true details
  | TString s => mkMCPError UNKNOWN_ERROR s false None
  | TObject _ => mkMCPError UNKNOWN_ERROR "Unknown error occurred" false None
  | TOther => mkMCPError UNKNOWN_ERROR "Unknown error occurred" false None
  end.

(* ====================================================================== *)
(** ** Asynchronous code as state passing                                  *)
(* ====================================================================== *)

Definition M (S A : Type) : Type := S -> Res A * S.

Definition ret {S A} (a : A) : M S A := fun s => (Ok a, s).

Definition throw {S A} (e : Thrown) : M S A := fun s => (Throw e, s).

Definition bind {S A B} (m : M S A) (k : A -> M S B) : M S B :=
  fun s => match m s with
           | (Ok a, s') => k a s'
           | (Throw e, s') => (Throw e, s')
           end.

(** [try { m } catch (e) { h(e) }]. *)
Definition try_catch {S A} (m : M S A) (h : Thrown -> M S A) : M S A :=
  fun s => match m s with
           | (Ok a, s') => (Ok a, s')
           | (Throw e, s') => h e s'
           end.

Declare Scope async_scope.
Delimit Scope async_scope with async.
Notation "x <- m ;; k" := (bind m (fun x => k))
  (at level 100, m at next level, right associativity) : async_scope.

(** [handleErrors(fn, context)]: whatever [fn] throws is re-thrown as the
    [MCPError] that [parseGeminiError] makes of it. *)
Definition handleErrors {S A} (fn : M S A) : M S A :=
  try_catch fn (fun error => throw (TMCP (parseGeminiError error))).

(* ====================================================================== *)
(** ** error-handler.ts: retryWithBackoff                                  *)
(* ====================================================================== *)

(** What the retry executor needs from the JavaScript runtime:
    [Math.random()] and the timer behind [sleep(ms)]. *)
Record Runtime (W : Type) : Type := mkRuntime {
  random : W -> Q * W;
  sleep : Q -> W -> W
}.
Arguments random {W} _ _.
Arguments sleep {W} _ _ _.

(** [interface RetryOptions]; [None] is a property left undefined. The
    observer has type [(attempt, error) => void] and returns normally. *)
Record RetryOptions (W : Type) : Type := mkRetryOptions {
  maxAttempts : option Z;
  delays : option (list Z);
  onRetry : option (Z -> Thrown -> W -> W)
}.
Arguments mkRetryOptions {W} _ _ _.
Arguments maxAttempts {W} _.
Arguments delays {W} _.
Arguments onRetry {W} _.

(** [options = {}]. *)
Definition noOptions {W} : RetryOptions W := mkRetryOptions None None None.

Definition DEFAULT_DELAYS : list Z := [500; 1000; 2000].

(** [l[i]] for an integer index: [undefined] out of range. *)
Definition js_index {A} (l : list A) (i : Z) : option A :=
  if i <? 0 then None else nth_error l (Z.to_nat i).

(** [delays[attempt - 1] ?? delays[delays.length - 1] ?? 1000]. *)
Definition baseDelayFor (delays : list Z) (attempt : Z) : Z :=
  match js_index delays (attempt - 1) with
  | Some d => d
  | None =>
      match js_index delays (Z.of_nat (List.length delays) - 1) with
      | Some d => d
      | None => 1000
      end
  end.

(** JavaScript numbers are doubles: 53 significant bits, and no bit below
    [2^-1074]. A product or a sum of two numbers is the exact one rounded to
    the nearest double, and to the one with the even significand when two
    are as near. Numbers are held as rationals here, so what lies beyond
    the largest double is not told apart from it. *)
Module Double.

(** Whether [2^k <= n / d]. *)
Definition reaches (n : Z) (d : positive) (k : Z) : bool :=
  if 0 <=? k then 2 ^ k * Zpos d <=? n else Zpos d <=? n * 2 ^ (- k).

(** The largest [k] with [2^k <= q], for a positive [q]. *)
Definition floorLog2 (q : Q) : Z :=
  let k := Z.log2 (Qnum q) - Z.log2 (Zpos (Qden q)) in
  if reaches (Qnum q) (Qden q) k then k else k - 1.

(** The nearest integer, the even one of two that are as near. *)
Definition roundHalfEven (q : Q) : Z :=
  let f := Qfloor q in
  match (q - inject_Z f ?= 1 # 2)%Q with
  | Lt => f
  | Eq => if Z.even f then f else f + 1
  | Gt => f + 1
  end.

(** The double nearest to a positive rational: a multiple of the unit in
    its last place, which is [2^e] for [e = floorLog2 q - 52] and at least
    [-1074]. *)
Definition nearest (q : Q) : Q :=
  let e := Z.max (-1074) (floorLog2 q - 52) in
  if 0 <=? e then inject_Z (roundHalfEven (q / inject_Z (2 ^ e)) * 2 ^ e)
  else Qred (inject_Z (roundHalfEven (q * inject_Z (2 ^ (- e)))) / inject_Z (2 ^ (- e))).

Definition round (q : Q) : Q :=
  match Qnum q with
  | Z0 => 0
  | Zpos _ => nearest q
  | Zneg _ => - nearest (- q)
  end.

End Double.

(** The body of the [catch] clause once the error is known to be retried:
    draw the jitter, tell the observer, sleep. *)
Definition backoff {W} (rt : Runtime W) (delays : list Z)
  (onRetry : option (Z -> Thrown -> W -> W)) (attempt : Z) (error : Thrown)
  : W -> W :=
  fun w =>
    let baseDelay := baseDelayFor delays attempt in
    let (r, w1) := random rt w in
    let jitter := Double.round (r * 200) in
    let delay := Double.round (inject_Z baseDelay + jitter) in
    let w2 := match onRetry with
              | Some f => f attempt error w1
              | None => w1
              end in
    sleep rt delay w2.

(** [for (let attempt = ...; attempt <= maxAttempts; attempt++) { ... }]
    followed by [throw lastError]. [fuel] bounds the number of iterations
    still to run; [Z.to_nat (maxAttempts - attempt + 1)] is exactly enough
    (lemma [retry_loop_fuel]). *)
Fixpoint retry_loop {W T} (rt : Runtime W) (fn : M W T)
  (maxAttempts : Z) (delays : list Z) (onRetry : option (Z -> Thrown -> W -> W))
  (fuel : nat) (attempt : Z) (lastError : Thrown) : M W T :=
  match fuel with
  | O => throw lastError
  | S fuel' =>
      if attempt <=? maxAttempts then
        try_catch fn (fun error =>
          if orb (attempt =? maxAttempts) (negb (isRetryable error)) then
            throw error
          else
            fun w =>
              retry_loop rt fn maxAttempts delays onRetry fuel' (attempt + 1) error
                (backoff rt delays onRetry attempt error w))
      else throw lastError
  end.

(** [const { maxAttempts = 3, delays = DEFAULT_DELAYS, onRetry } = options]. *)
Definition maxAttemptsOf {W} (options : RetryOptions W) : Z :=
  match maxAttempts options with Some n => n | None => 3 end.

Definition delaysOf {W} (options : RetryOptions W) : list Z :=
  match delays options with Some d => d | None => DEFAULT_DELAYS end.

Definition retryWithBackoff {W T} (rt : Runtime W) (fn : M W T)
  (options : RetryOptions W) : M W T :=
  (* [let lastError: unknown;] starts out undefined *)
  retry_loop rt fn (maxAttemptsOf options) (delaysOf options) (onRetry options)
    (Z.to_nat (maxAttemptsOf options)) 1 TOther.

(** A [jest.fn()]-style spy: the unit of work run in a world that also
    counts how often it was invoked. *)
Definition spy {W T} (fn : M W T) : M (nat * W) T :=
  fun '(n, w) => let (r, w') := fn w in (r, (S n, w')).

Definition spy_runtime {W} (rt : Runtime W) : Runtime (nat * W) :=
  mkRuntime (nat * W)
    (fun '(n, w) => let (r, w') := random rt w in (r, (n, w')))
    (fun d '(n, w) => (n, sleep rt d w)).

Definition spy_options {W} (o : RetryOptions W) : RetryOptions (nat * W) :=
  mkRetryOptions (maxAttempts o) (delays o)
    (match onRetry o with
     | Some f => Some (fun a e '(n, w) => (n, f a e w))
     | None => None
     end).

(* ====================================================================== *)
(** ** node:crypto: the SHA-256 digest in hexadecimal                       *)
(* ====================================================================== *)

(** SHA-256 (FIPS 180-4) on 32-bit words held in [Z], so that the hashes
    of the client can be evaluated. *)
Module Sha256.

Definition mask32 : Z := 0xffffffff.

Definition w32 (x : Z) : Z := Z.land x mask32.

Definition add32 (a b : Z) : Z := w32 (a + b).

Definition rotr (n x : Z) : Z :=
  Z.lor (Z.shiftr x n) (w32 (Z.shiftl x (32 - n))).

Definition Ch (x y z : Z) : Z :=
  Z.lxor (Z.land x y) (Z.land (Z.lxor x mask32) z).

Definition Maj (x y z : Z) : Z :=
  Z.lxor (Z.lxor (Z.land x y) (Z.land x z)) (Z.land y z).

Definition Sigma0 (x : Z) : Z := Z.lxor (Z.lxor (rotr 2 x) (rotr 13 x)) (rotr 22 x).
Definition Sigma1 (x : Z) : Z := Z.lxor (Z.lxor (rotr 6 x) (rotr 11 x)) (rotr 25 x).
Definition sigma0 (x : Z) : Z := Z.lxor (Z.lxor (rotr 7 x) (rotr 18 x)) (Z.shiftr x 3).
Definition sigma1 (x : Z) : Z := Z.lxor (Z.lxor (rotr 17 x) (rotr 19 x)) (Z.shiftr x 10).

(** The round constants are the first 32 bits of the fractional parts of
    the cube roots of the first 64 primes, the initial hash value those of
    the square roots of the first 8; both are computed rather than listed. *)
Definition is_prime (p : Z) : bool :=
  forallb (fun d => negb (p mod d =? 0))
    (map Z.of_nat (seq 2 (Z.to_nat (Z.sqrt p) - 1))).

Definition primes (count : nat) : list Z :=
  firstn count (filter is_prime (map Z.of_nat (seq 2 310))).

(** The largest [r] with [r ^ 3 <= x], found bit by bit below [2 ^ 40]. *)
Definition cube_root (x : Z) : Z :=
  fold_left
    (fun r i =>
       let r' := r + Z.shiftl 1 (Z.of_nat i) in
       if r' * r' * r' <=? x then r' else r)
    (rev (seq 0 40)) 0.

Definition K : list Z :=
  Eval vm_compute in map (fun p => w32 (cube_root (Z.shiftl p 96))) (primes 64).

Definition H_init : list Z :=
  Eval vm_compute in map (fun p => w32 (Z.sqrt (Z.shiftl p 64))) (primes 8).

(** Padding: the bit 1, zeros up to 56 mod 64 bytes, the bit length on
    eight bytes, big-endian. *)
Definition be_bytes (n : nat) (x : Z) : list Z :=
  map (fun i => Z.land (Z.shiftr x (8 * Z.of_nat (n - 1 - i))) 0xff) (seq 0 n).

Definition pad (msg : list Z) : list Z :=
  let len := Z.of_nat (List.length msg) in
  let zeros := Z.to_nat ((55 - len) mod 64) in
  msg ++ [0x80] ++ repeat 0 zeros ++ be_bytes 8 (8 * len).

(** Big-endian 32-bit words of a byte sequence whose length is a multiple
    of four. *)
Fixpoint words (fuel : nat) (bs : list Z) : list Z :=
  match fuel, bs with
  | S f, b0 :: b1 :: b2 :: b3 :: rest =>
      (Z.shiftl b0 24 + Z.shiftl b1 16 + Z.shiftl b2 8 + b3) :: words f rest
  | _, _ => []
  end.

(** Message schedule: [w] holds W_0 .. W_(t-1), most recent last. *)
Fixpoint schedule (fuel : nat) (w : list Z) : list Z :=
  match fuel with
  | O => w
  | S f =>
      let t := List.length w in
      let g := fun i => nth (t - i) w 0 in
      schedule f
        (w ++ [add32 (add32 (sigma1 (g 2%nat)) (g 7%nat))
                     (add32 (sigma0 (g 15%nat)) (g 16%nat))])
  end.

Record Regs : Type := mkRegs {
  ra : Z; rb : Z; rc : Z; rd : Z; re : Z; rf : Z; rg : Z; rh : Z
}.

Definition round (s : Regs) (kw : Z * Z) : Regs :=
  let t1 := add32 (add32 (add32 (rh s) (Sigma1 (re s))) (Ch (re s) (rf s) (rg s)))
                  (add32 (fst kw) (snd kw)) in
  let t2 := add32 (Sigma0 (ra s)) (Maj (ra s) (rb s) (rc s)) in
  mkRegs (add32 t1 t2) (ra s) (rb s) (rc s) (add32 (rd s) t1) (re s) (rf s) (rg s).

Definition compress (h : Regs) (block : list Z) : Regs :=
  let w := schedule 48 block in
  let s := fold_left round (combine K w) h in
  mkRegs (add32 (ra h) (ra s)) (add32 (rb h) (rb s)) (add32 (rc h) (rc s))
         (add32 (rd h) (rd s)) (add32 (re h) (re s)) (add32 (rf h) (rf s))
         (add32 (rg h) (rg s)) (add32 (rh h) (rh s)).

Fixpoint blocks (fuel : nat) (h : Regs) (ws : list Z) : Regs :=
  match fuel, ws with
  | S f, _ :: _ => blocks f (compress h (firstn 16 ws)) (skipn 16 ws)
  | _, _ => h
  end.

Definition init : Regs :=
  let h := fun i => nth i H_init 0 in
  mkRegs (h 0%nat) (h 1%nat) (h 2%nat) (h 3%nat) (h 4%nat) (h 5%nat) (h 6%nat) (h 7%nat).

Definition digest_words (msg : list Z) : list Z :=
  let p := pad msg in
  let ws := words (List.length p) p in
  let r := blocks (List.length ws) init ws in
  [ra r; rb r; rc r; rd r; re r; rf r; rg r; rh r].

Definition hex_digit (d : Z) : ascii :=
  if d <? 10 then ascii_of_nat (Z.to_nat (48 + d)) else ascii_of_nat (Z.to_nat (87 + d)).

Definition hex_byte (b : Z) : string :=
  String (hex_digit (Z.shiftr b 4)) (String (hex_digit (Z.land b 0xf)) EmptyString).

Definition hex_word (w : Z) : string :=
  String.concat EmptyString (map hex_byte (be_bytes 4 w)).

(** [createHash("sha256").update(bytes).digest("hex")]. *)
Definition hex_of_bytes (msg : list byte) : string :=
  String.concat EmptyString
    (map hex_word (digest_words (map (fun b => Z.of_N (Byte.to_N b)) msg))).

(** [update(s)] on a string hashes its UTF-8 bytes. *)
Definition hex_of_string (s : string) : string :=
  hex_of_bytes (list_byte_of_string s).

End Sha256.

(* ====================================================================== *)
(** ** validators.ts: the data the client handles                          *)
(* ====================================================================== *)

(** [DocumentMetadataSchema]: every field is optional. *)
Record DocumentMetadata : Type := mkDocumentMetadata {
  title : option string;
  authors : option (list string);
  year : option Z;
  doi : option string;
  tags : option (list string);
  source_url : option string
}.

(** [metadata || {}]. *)
Definition emptyMetadata : DocumentMetadata :=
  mkDocumentMetadata None None None None None None.

(** [DocumentSchema]. [file_uri] is optional because [listDocuments] copies
    a field of the remote file that it elsewhere guards against being
    undefined. *)
Record Document : Type := mkDocument {
  doc_id : string;
  store_id : string;
  file_name : string;
  file_uri : option string;
  mime_type : string;
  size_bytes : Z;
  created_at : string;
  metadata : DocumentMetadata;
  hash : string;
  dedupe_key : string
}.

(* ====================================================================== *)
(** ** JSON.stringify on the object of the dedupe key                      *)
(* ====================================================================== *)

Module Json.

Definition dquote : string := String (ascii_of_nat 34) EmptyString.
Definition backslash : string := String (ascii_of_nat 92) EmptyString.

(** One character of a JSON string literal (QuoteJSONString). *)
Definition escape_char (c : ascii) : string :=
  let n := nat_of_ascii c in
  if Nat.eqb n 34 then backslash ++ dquote
  else if Nat.eqb n 92 then backslash ++ backslash
  else if Nat.eqb n 8 then backslash ++ "b"
  else if Nat.eqb n 9 then backslash ++ "t"
  else if Nat.eqb n 10 then backslash ++ "n"
  else if Nat.eqb n 12 then backslash ++ "f"
  else if Nat.eqb n 13 then backslash ++ "r"
  else if Nat.ltb n 32 then backslash ++ "u00" ++ Sha256.hex_byte (Z.of_nat n)
  else String c EmptyString.

Fixpoint escape (s : string) : string :=
  match s with
  | EmptyString => EmptyString
  | String c s' => escape_char c ++ escape s'
  end.

Definition quote (s : string) : string := dquote ++ escape s ++ dquote.

(** A property whose value is [undefined] is left out. *)
Definition member (key : string) (value : option string) : list string :=
  match value with
  | Some v => [quote key ++ ":" ++ quote v]
  | None => []
  end.

(** [JSON.stringify({ title: t, doi: d })]. *)
Definition stringify_title_doi (t d : option string) : string :=
  "{" ++ String.concat "," (member "title" t ++ member "doi" d) ++ "}".

End Json.

(* ====================================================================== *)
(** ** gemini-client.ts: hashes                                            *)
(* ====================================================================== *)

(** The digest of [calculateFileHash] once the file has been read. *)
Definition fileHash (content : list byte) : string := Sha256.hex_of_bytes content.

(** [metaStr] of [generateDedupeKey]. *)
Definition metaStr (metadata : option DocumentMetadata) : string :=
  match metadata with
  | Some m => Json.stringify_title_doi (title m) (doi m)
  | None => EmptyString
  end.

(** The string that [generateDedupeKey] feeds to the digest: [hash + metaStr]. *)
Definition dedupeKeyInput (hash : string) (metadata : option DocumentMetadata) : string :=
  hash ++ metaStr metadata.

Definition generateDedupeKey (hash : string) (metadata : option DocumentMetadata) : string :=
  Sha256.hex_of_string (dedupeKeyInput hash metadata).

(* ====================================================================== *)
(** ** The world outside the process                                       *)
(* ====================================================================== *)

(** [interface FileSearchStore]; [createTime] and [updateTime] are never read. *)
Record FileSearchStore : Type := mkStore {
  name : string;
  displayName : option string
}.

(** A file as the SDK's [listFiles] reports it; the fields the client guards
    with [||] may be missing. *)
Record RemoteFile : Type := mkRemoteFile {
  rf_name : string;
  rf_displayName : option string;
  rf_uri : option string;
  rf_mimeType : option string;
  rf_sizeBytes : option string;
  rf_createTime : option string
}.

(** [uploadResponse.file]. *)
Record UploadedFile : Type := mkUploadedFile {
  uf_name : string;
  uf_uri : string;
  uf_mimeType : option string
}.

(** A [fetch] response: status line, [await response.text()], the
    [content-type] header and [await response.json()] (or, for a download,
    [arrayBuffer()]) at the type the client casts it to. *)
Record Response (A : Type) : Type := mkResponse {
  status : Z;
  statusText : string;
  text : string;
  contentType : option string;
  body : Res A
}.
Arguments mkResponse {A} _ _ _ _ _.
Arguments status {A} _.
Arguments statusText {A} _.
Arguments text {A} _.
Arguments contentType {A} _.
Arguments body {A} _.

(** [response.ok]. *)
Definition ok {A} (r : Response A) : bool :=
  andb (200 <=? status r) (status r <=? 299).

(** The requests that leave the process. *)
Inductive RemoteCall : Type :=
| ListStores (pageSize : Z)
| CreateStore (displayName : option string)
| GetStore (storeId : string)
| Download (url : string)
| UploadFile (path : string)
| ListFiles.

(** Everything the client calls and does not own: the REST endpoints of the
    File Search Stores reached through [fetch], the SDK's file manager, the
    [fs] and [path] modules, the clock and the random generator. [World]
    is the state of all of it. *)
Record Platform (World : Type) : Type := mkPlatform {
  runtime : Runtime World;
  (* GET  v1beta/fileSearchStores?pageSize=..&key=.. *)
  fetch_listStores : Z -> string -> M World (Response (option (list FileSearchStore)));
  (* POST v1beta/fileSearchStores?key=.. with body {displayName} or {} *)
  fetch_createStore : option string -> string -> M World (Response FileSearchStore);
  (* GET  v1beta/<storeId>?key=.. *)
  fetch_getStore : string -> string -> M World (Response unit);
  (* GET  <url> *)
  fetch_url : string -> M World (Response (list byte));
  sdk_uploadFile : string -> string -> string -> M World UploadedFile;
  sdk_listFiles : M World (option (list RemoteFile));
  fs_access : string -> M World unit;
  fs_readFile : string -> M World (list byte);
  fs_stat_size : string -> M World Z;
  fs_mkdtemp : string -> M World string;
  fs_writeFile : string -> list byte -> M World unit;
  fs_unlink : string -> M World unit;
  date_now : World -> Z;
  date_iso : World -> string;
  url_pathname : string -> Res string;
  path_basename : string -> string;
  path_extname : string -> string;
  path_join : string -> string -> string;
  parseInt : string -> Z
}.
Arguments runtime {World} _.
Arguments fetch_listStores {World} _ _ _ _.
Arguments fetch_createStore {World} _ _ _ _.
Arguments fetch_getStore {World} _ _ _ _.
Arguments fetch_url {World} _ _ _.
Arguments sdk_uploadFile {World} _ _ _ _ _.
Arguments sdk_listFiles {World} _ _.
Arguments fs_access {World} _ _ _.
Arguments fs_readFile {World} _ _ _.
Arguments fs_stat_size {World} _ _ _.
Arguments fs_mkdtemp {World} _ _ _.
Arguments fs_writeFile {World} _ _ _ _.
Arguments fs_unlink {World} _ _ _.
Arguments date_now {World} _ _.
Arguments date_iso {World} _ _.
Arguments url_pathname {World} _ _.
Arguments path_basename {World} _ _.
Arguments path_extname {World} _ _.
Arguments path_join {World} _ _ _.
Arguments parseInt {World} _ _.

(** The private fields of [class GeminiClient] that change or are read. *)
Record Client : Type := mkClient {
  apiKey : string;
  storeId : option string;
  storeName : option string
}.

(** [new GeminiClient(apiKey, storeName)] with the environment variable
    [GEMINI_FILESTORE_NAME]: [storeName || GEMINI_FILESTORE_NAME || null]. *)
Definition newClient (apiKey : string) (storeName env_storeName : option string) : Client :=
  mkClient apiKey None
    (if truthy_opt storeName then storeName
     else if truthy_opt env_storeName then env_storeName
     else None).

(** The process: the client object, the world, and the log of the requests
    issued so far, oldest first. *)
Record St (World : Type) : Type := mkSt {
  client : Client;
  world : World;
  calls : list RemoteCall
}.
Arguments mkSt {World} _ _ _.
Arguments client {World} _.
Arguments world {World} _.
Arguments calls {World} _.

(** A list-collections or create-collection request. *)
Definition isResolutionCall (c : RemoteCall) : bool :=
  match c with
  | ListStores _ | CreateStore _ => true
  | _ => false
  end.

(* ====================================================================== *)
(** ** gemini-client.ts: class GeminiClient                                *)
(* ====================================================================== *)

(** Template-literal rendering of an integer. *)
Definition string_of_Z (z : Z) : string :=
  DecimalString.NilZero.string_of_int (Z.to_int z).

(** [array.slice(start, end)] for integer arguments. *)
Definition js_slice {A} (l : list A) (start end_ : Z) : list A :=
  let len := Z.of_nat (List.length l) in
  let k := if start <? 0 then Z.max (len + start) 0 else Z.min start len in
  let final := if end_ <? 0 then Z.max (len + end_) 0 else Z.min end_ len in
  firstn (Z.to_nat (final - k)) (skipn (Z.to_nat k) l).

(** [store.displayName === displayName]. *)
Definition displayName_is (wanted : string) (store : FileSearchStore) : bool :=
  match displayName store with
  | Some d => String.eqb d wanted
  | None => false
  end.

(** The message of the error that [createFileStore] throws for a display
    name that is taken. *)
Definition alreadyExistsMessage (dn id : string) : string :=
  "A File Store with display name " ++ Json.dquote ++ dn ++ Json.dquote
    ++ " already exists (ID: " ++ id
    ++ "). Use a different name or use the existing store.".

(** The result of [listDocuments]. *)
Record DocumentPage : Type := mkDocumentPage {
  documents : list Document;
  totalCount : Z
}.

(** [AddDocumentOutput] as [addDocument] fills it. *)
Record AddDocumentOutput : Type := mkAddDocumentOutput {
  out_success : bool;
  out_doc_id : string;
  out_store_id : string;
  out_file_name : string;
  out_hash : string;
  out_message : string
}.

Section GeminiClient.

Context {World : Type} (P : Platform World).

Definition getClient : M (St World) Client := fun st => (Ok (client st), st).

Definition getWorld : M (St World) World := fun st => (Ok (world st), st).

(** [this.storeId = storeId], also the body of the method [setStoreId]. *)
Definition setStoreId (id : string) : M (St World) unit :=
  fun st =>
    (Ok tt, mkSt (mkClient (apiKey (client st)) (Some id) (storeName (client st)))
               (world st) (calls st)).

(** An awaited call that stays on the machine. *)
Definition local {A} (op : M World A) : M (St World) A :=
  fun st => let (r, w) := op (world st) in (r, mkSt (client st) w (calls st)).

(** An awaited call to the remote service; the request is logged. *)
Definition remote {A} (c : RemoteCall) (op : M World A) : M (St World) A :=
  fun st => let (r, w) := op (world st) in (r, mkSt (client st) w (calls st ++ [c])).

(** Awaiting a promise that is already settled. *)
Definition settled {A} (r : Res A) : M (St World) A := fun st => (r, st).

(** [Math.random] and [sleep] as seen from the process. *)
Definition stRuntime : Runtime (St World) :=
  mkRuntime (St World)
    (fun st => let (r, w) := random (runtime P) (world st) in
               (r, mkSt (client st) w (calls st)))
    (fun d st => mkSt (client st) (sleep (runtime P) d (world st)) (calls st)).

(* ---------------------------------------------------------------------- *)
(** *** File Store management                                              *)

Definition listFileStores (pageSize : Z) : M (St World) (list FileSearchStore) :=
  handleErrors
    (c <- getClient ;;
     response <- remote (ListStores pageSize) (fetch_listStores P pageSize (apiKey c)) ;;
     if negb (ok response) then
       throw (TMCP (mkMCPError API_ERROR
         ("Failed to list File Stores: " ++ string_of_Z (status response) ++ " "
            ++ statusText response ++ " - " ++ text response)
         true None))
     else
       data <- settled (body response) ;;
       ret (match data with Some stores => stores | None => [] end))%async.

Definition createFileStore (displayName : option string) : M (St World) string :=
  handleErrors
    (c <- getClient ;;
     _ <- (match displayName with
           | Some dn =>
               if truthy dn then
                 stores <- listFileStores 20 ;;
                 match find (displayName_is dn) stores with
                 | Some existingStore =>
                     throw (TMCP (mkMCPError API_ERROR
                       (alreadyExistsMessage dn (name existingStore)) false None))
                 | None => ret tt
                 end
               else ret tt
           | None => ret tt
           end) ;;
     let body_displayName :=
       match displayName with
       | Some dn => if truthy dn then Some dn else None
       | None => None
       end in
     response <- remote (CreateStore body_displayName)
                   (fetch_createStore P body_displayName (apiKey c)) ;;
     if negb (ok response) then
       throw (TMCP (mkMCPError API_ERROR
         ("Failed to create File Store: " ++ string_of_Z (status response) ++ " "
            ++ statusText response ++ " - " ++ text response)
         false None))
     else
       data <- settled (body response) ;;
       let storeId := name data in
       _ <- setStoreId storeId ;;
       ret storeId)%async.

Definition resolveStoreByDisplayName (displayName : string) : M (St World) string :=
  handleErrors
    (stores <- listFileStores 20 ;;
     match find (displayName_is displayName) stores with
     | Some matchingStore => ret (name matchingStore)
     | None => createFileStore (Some displayName)
     end)%async.

Definition checkFileStoreExists (storeId : string) : M (St World) bool :=
  handleErrors
    (c <- getClient ;;
     response <- remote (GetStore storeId) (fetch_getStore P storeId (apiKey c)) ;;
     if status response =? 404 then ret false
     else if negb (ok response) then
       throw (TMCP (mkMCPError API_ERROR
         ("Failed to check File Store: " ++ string_of_Z (status response) ++ " "
            ++ statusText response ++ " - " ++ text response)
         true None))
     else ret true)%async.

Definition storeNameNotConfigured : MCPError :=
  mkMCPError STORE_NOT_FOUND
    "File Store name is not configured. Set GEMINI_FILESTORE_NAME environment variable."
    false None.

(** The statements that open both [uploadDocument] and [ensureFileStore]:
    [if (!this.storeId) { if (!this.storeName) throw ...;
    this.storeId = await this.resolveStoreByDisplayName(this.storeName); }].
    The value is [this.storeId] afterwards. *)
Definition ensureStoreId : M (St World) string :=
  (c <- getClient ;;
   if truthy_opt (storeId c) then ret (or_else (storeId c) EmptyString)
   else
     match storeName c with
     | Some sn =>
         if truthy sn then
           id <- resolveStoreByDisplayName sn ;;
           _ <- setStoreId id ;;
           ret id
         else throw (TMCP storeNameNotConfigured)
     | None => throw (TMCP storeNameNotConfigured)
     end)%async.

Definition ensureFileStore : M (St World) unit :=
  (id <- ensureStoreId ;;
   exists_ <- checkFileStoreExists id ;;
   if negb exists_ then
     throw (TMCP (mkMCPError STORE_NOT_FOUND
       ("File Store not found: " ++ id
          ++ ". This should not happen if resolveStoreByDisplayName worked correctly.")
       false None))
   else ret tt)%async.

(* ---------------------------------------------------------------------- *)
(** *** File upload                                                        *)

(** [mimeMap] and [extMap] are object literals, and a lookup [map[key]]
    that finds no property of the literal goes on to the properties that
    every object inherits from [Object.prototype]. These are functions, or
    for [__proto__] the prototype itself; what is given here is the text
    that a template literal makes of them. *)
Definition inheritedProperty (key : string) : option string :=
  if String.eqb key "constructor" then Some "function Object() { [native code] }"
  else if String.eqb key "__proto__" then Some "[object Object]"
  else if existsb (String.eqb key)
            ["toString"; "toLocaleString"; "valueOf"; "hasOwnProperty"; "isPrototypeOf";
             "propertyIsEnumerable"; "__defineGetter__"; "__defineSetter__";
             "__lookupGetter__"; "__lookupSetter__"]
       then Some ("function " ++ key ++ "() { [native code] }")
  else None.

(** [mimeMap[mimeType] || 'bin'], as the text it contributes to the file
    name. *)
Definition getExtensionFromMimeType (mimeType : option string) : string :=
  match mimeType with
  | None => "bin"
  | Some m =>
      if negb (truthy m) then "bin"
      else if String.eqb m "application/pdf" then "pdf"
      else if String.eqb m
                "application/vnd.openxmlformats-officedocument.wordprocessingml.document"
           then "docx"
      else if String.eqb m "application/msword" then "doc"
      else if String.eqb m "text/plain" then "txt"
      else if String.eqb m "text/markdown" then "md"
      else if String.eqb m "application/json" then "json"
      else match inheritedProperty m with
           | Some inherited => inherited
           | None => "bin"
           end
  end.

(** [extMap[ext] || 'application/octet-stream']; [ext] is empty or starts
    with a dot, so it names no inherited property. *)
Definition getMimeType (fileName : string) : string :=
  let ext := toLowerCase (path_extname P fileName) in
  if String.eqb ext ".pdf" then "application/pdf"
  else if String.eqb ext ".docx" then
    "application/vnd.openxmlformats-officedocument.wordprocessingml.document"
  else if String.eqb ext ".doc" then "application/msword"
  else if String.eqb ext ".txt" then "text/plain"
  else if String.eqb ext ".md" then "text/markdown"
  else if String.eqb ext ".json" then "application/json"
  else "application/octet-stream".

Definition extractFileName (url : string) (contentType : option string)
  : M (St World) string :=
  (urlPath <- settled (url_pathname P url) ;;
   let fileNameFromUrl := path_basename P urlPath in
   if andb (truthy fileNameFromUrl) (negb (String.eqb fileNameFromUrl "/")) then
     ret fileNameFromUrl
   else
     w <- getWorld ;;
     ret ("download_" ++ string_of_Z (date_now P w) ++ "."
            ++ getExtensionFromMimeType contentType))%async.

Definition downloadFile (url : string) : M (St World) string :=
  handleErrors
    (response <- remote (Download url) (fetch_url P url) ;;
     if negb (ok response) then
       throw (TMCP (mkMCPError DOWNLOAD_FAILED
         ("Failed to download file: " ++ string_of_Z (status response) ++ " "
            ++ statusText response)
         false None))
     else
       tempDir <- local (fs_mkdtemp P (path_join P "/tmp" "mcp-gemini-")) ;;
       fileName <- extractFileName url (contentType response) ;;
       let tempPath := path_join P tempDir fileName in
       buffer <- settled (body response) ;;
       _ <- local (fs_writeFile P tempPath buffer) ;;
       ret tempPath)%async.

Definition ensureLocalFile (source : string) : M (St World) string :=
  if orb (startsWith source "http://") (startsWith source "https://") then
    downloadFile source
  else
    try_catch
      (_ <- local (fs_access P source) ;; ret source)%async
      (fun _ =>
         throw (TMCP (mkMCPError FILE_NOT_FOUND ("File not found: " ++ source) false None))).

Definition calculateFileHash (filePath : string) : M (St World) string :=
  (content <- local (fs_readFile P filePath) ;;
   ret (fileHash content))%async.

Definition uploadDocument (source : string) (metadata : option DocumentMetadata)
  : M (St World) Document :=
  handleErrors
    (_ <- ensureStoreId ;;
     localPath <- ensureLocalFile source ;;
     let fileName := path_basename P localPath in
     hash <- calculateFileHash localPath ;;
     let dedupeKey := generateDedupeKey hash metadata in
     sizeBytes <- local (fs_stat_size P localPath) ;;
     uploadResponse <-
       retryWithBackoff stRuntime
         (remote (UploadFile localPath)
            (sdk_uploadFile P localPath (getMimeType fileName)
               (or_else (match metadata with Some m => title m | None => None end)
                  fileName)))
         (* the observer only logs *)
         (mkRetryOptions (Some 3) None (Some (fun _ _ st => st))) ;;
     _ <- (if startsWith source "http" then
             try_catch (local (fs_unlink P localPath)) (fun _ => ret tt)
           else ret tt) ;;
     c <- getClient ;;
     w <- getWorld ;;
     ret (mkDocument
            (uf_name uploadResponse)
            (match storeId c with Some id => id | None => EmptyString end)
            fileName
            (Some (uf_uri uploadResponse))
            (or_else (uf_mimeType uploadResponse) (getMimeType fileName))
            sizeBytes
            (date_iso P w)
            (match metadata with Some m => m | None => emptyMetadata end)
            hash
            dedupeKey))%async.

(* ---------------------------------------------------------------------- *)
(** *** Listing documents                                                  *)

(** The body of the loop that converts one listed file. *)
Definition toDocument (c : Client) (w : World) (file : RemoteFile) : Document :=
  mkDocument
    (rf_name file)
    (or_else (storeId c) "unknown")
    (or_else (rf_displayName file) (path_basename P (or_else (rf_uri file) EmptyString)))
    (rf_uri file)
    (or_else (rf_mimeType file) "application/octet-stream")
    (match rf_sizeBytes file with
     | Some s => if truthy s then parseInt P s else 0
     | None => 0
     end)
    (or_else (rf_createTime file) (date_iso P w))
    emptyMetadata
    EmptyString
    EmptyString.

(** [allDocuments] of [listDocuments]: every listed file, converted, in
    the order of the listing (the filters are not applied). *)
Definition allDocumentsOf (c : Client) (w : World) (files : option (list RemoteFile))
  : list Document :=
  map (toDocument c w) (match files with Some fs => fs | None => [] end).

Definition listDocuments (page pageSize : Z) : M (St World) DocumentPage :=
  handleErrors
    (listFilesResponse <-
       retryWithBackoff stRuntime (remote ListFiles (sdk_listFiles P)) noOptions ;;
     c <- getClient ;;
     w <- getWorld ;;
     let allDocuments := allDocumentsOf c w listFilesResponse in
     let totalCount := Z.of_nat (List.length allDocuments) in
     let startIdx := (page - 1) * pageSize in
     let endIdx := startIdx + pageSize in
     ret (mkDocumentPage (js_slice allDocuments startIdx endIdx) totalCount))%async.

(* ---------------------------------------------------------------------- *)
(** *** tools/add-document.ts                                              *)

(** [addDocument(input)] once [AddDocumentInputSchema.parse] has accepted
    the input as [{source, metadata}]. *)
Definition addDocument (source : string) (metadata : option DocumentMetadata)
  : M (St World) AddDocumentOutput :=
  handleErrors
    (document <- uploadDocument source metadata ;;
     ret (mkAddDocumentOutput true (doc_id document) (store_id document)
            (file_name document) (hash document)
            ("Document uploaded successfully: " ++ file_name document)))%async.

(** The operations that run against an already configured client and do
    not set the store id on purpose. *)
Inductive Operation : Type :=
| OpUploadDocument (source : string) (metadata : option DocumentMetadata)
| OpAddDocument (source : string) (metadata : option DocumentMetadata)
| OpEnsureFileStore
| OpListDocuments (page pageSize : Z).

(** The state an operation leaves behind, whether it returned or threw. *)
Definition runOperation (o : Operation) (st : St World) : St World :=
  match o with
  | OpUploadDocument source metadata => snd (uploadDocument source metadata st)
  | OpAddDocument source metadata => snd (addDocument source metadata st)
  | OpEnsureFileStore => snd (ensureFileStore st)
  | OpListDocuments page pageSize => snd (listDocuments page pageSize st)
  end.

Definition runOperations (ops : list Operation) (st : St World) : St World :=
  fold_left (fun s o => runOperation o s) ops st.

End GeminiClient.

(* ====================================================================== *)
(** ** A small simulated world, to run the client on concrete inputs       *)
(* ====================================================================== *)

Module Sim.

(** The service holds collections and files. *)
Record World : Type := mkWorld {
  stores : list FileSearchStore;
  remoteFiles : list RemoteFile
}.

(** The local disk is read-only and holds one file. *)
Definition disk : list (string * list byte) :=
  [("/data/paper.pdf", [x25; x50; x44; x46])].

Definition response200 {A} (a : A) : Response A :=
  mkResponse 200 "OK" EmptyString (Some "application/json") (Ok a).

Definition response404 {A} : Response A :=
  mkResponse 404 "Not Found" "not found" None
    (Throw (TError "SyntaxError" "Unexpected token" None)).

Definition enoent {A} (path : string) : Res A :=
  Throw (TError "Error" ("ENOENT: no such file or directory, open " ++ path) None).

Definition erofs {A} (path : string) : Res A :=
  Throw (TError "Error" ("EROFS: read-only file system, open " ++ path) None).

Definition lookupFile (path : string) : option (list byte) :=
  match find (fun e => String.eqb (fst e) path) disk with
  | Some e => Some (snd e)
  | None => None
  end.

Fixpoint after_last (sep : ascii) (s acc : string) : string :=
  match s with
  | EmptyString => acc
  | String c s' =>
      if Ascii.eqb c sep then after_last sep s' EmptyString
      else after_last sep s' (acc ++ String c EmptyString)
  end.

Definition basename (path : string) : string := after_last "/" path EmptyString.

Definition extname (path : string) : string :=
  if includes path "." then "." ++ after_last "." path EmptyString else EmptyString.

Fixpoint digits (s : string) (acc : Z) : Z :=
  match s with
  | EmptyString => acc
  | String c s' =>
      let n := Z.of_nat (nat_of_ascii c) in
      if andb (48 <=? n) (n <=? 57) then digits s' (10 * acc + (n - 48)) else acc
  end.

(** A runtime whose random draws are 0 and whose sleeps leave no trace. *)
Definition idle {W} : Runtime W :=
  mkRuntime W (fun w => (0%Q, w)) (fun _ w => w).

(** The service lists at most [pageSize] stores, names a new store after
    the number of stores it holds, and knows the stores and files it was
    given; downloads answer 404. *)
Definition platform : Platform World :=
  {| runtime := idle;
     fetch_listStores := fun pageSize _ w =>
       (Ok (response200 (Some (firstn (Z.to_nat pageSize) (stores w)))), w);
     fetch_createStore := fun dn _ w =>
       let created :=
         mkStore ("fileSearchStores/s" ++ string_of_Z (Z.of_nat (List.length (stores w))))
           dn in
       (Ok (response200 created), mkWorld (stores w ++ [created]) (remoteFiles w));
     fetch_getStore := fun id _ w =>
       (Ok (if existsb (fun s => String.eqb (name s) id) (stores w)
            then response200 tt else response404), w);
     fetch_url := fun _ w => (Ok response404, w);
     sdk_uploadFile := fun path mime dn w =>
       let id := "files/f" ++ string_of_Z (Z.of_nat (List.length (remoteFiles w))) in
       let uri := "https://generativelanguage.googleapis.com/v1beta/" ++ id in
       (Ok (mkUploadedFile id uri (Some mime)),
        mkWorld (stores w)
          (remoteFiles w ++ [mkRemoteFile id (Some dn) (Some uri) (Some mime) None None]));
     sdk_listFiles := fun w => (Ok (Some (remoteFiles w)), w);
     fs_access := fun path w =>
       (match lookupFile path with Some _ => Ok tt | None => enoent path end, w);
     fs_readFile := fun path w =>
       (match lookupFile path with Some b => Ok b | None => enoent path end, w);
     fs_stat_size := fun path w =>
       (match lookupFile path with
        | Some b => Ok (Z.of_nat (List.length b))
        | None => enoent path
        end, w);
     fs_mkdtemp := fun prefix w => (erofs prefix, w);
     fs_writeFile := fun path _ w => (erofs path, w);
     fs_unlink := fun path w => (erofs path, w);
     date_now := fun _ => 0;
     date_iso := fun _ => "1970-01-01T00:00:00.000Z";
     url_pathname := fun url => Ok ("/" ++ basename url);
     path_basename := basename;
     path_extname := extname;
     path_join := fun a b => a ++ "/" ++ b;
     parseInt := fun s => digits s 0 |}.

(** A service that already holds the collection named "papers". *)
Definition papers : FileSearchStore := mkStore "fileSearchStores/abc123" (Some "papers").

Definition remoteFile (n : string) : RemoteFile :=
  mkRemoteFile ("files/" ++ n) (Some (n ++ ".pdf")) None (Some "application/pdf")
    (Some "1024") (Some "2025-01-01T00:00:00Z").

Definition world0 : World :=
  mkWorld [papers]
    [remoteFile "a"; remoteFile "b"; remoteFile "c"; remoteFile "d"; remoteFile "e"].

(** A fresh process configured with [GEMINI_FILESTORE_NAME=papers]. *)
Definition fresh : St World :=
  mkSt (newClient "key" None (Some "papers")) world0 [].

(** The same process once the store id has been resolved. *)
Definition resolved : St World :=
  mkSt (mkClient "key" (Some "fileSearchStores/abc123") (Some "papers")) world0 [].

Definition unitRuntime : Runtime unit := idle.

(** [jest.fn().mockRejectedValueOnce(e).mockResolvedValueOnce(v)]: the
    world records whether the first call has happened. *)
Definition failsOnce {T} (e : Thrown) (v : T) : M bool T :=
  fun called => if called then (Ok v, true) else (Throw e, true).

(** A unit of work that fails in the same way on every call. *)
Definition alwaysFails {T} (e : Thrown) : M unit T := fun w => (Throw e, w).

(** [new MCPError(ErrorCode.API_ERROR, 'boom', false)]. *)
Definition apiErrorNotRetryable : MCPError := mkMCPError API_ERROR "boom" false None.

(** The shape of a fetch failure of the SDK: an object with [status: 503]. *)
Definition serviceUnavailable : Thrown := TObject (Some 503).

End Sim.

(* ====================================================================== *)
(** ** Operations that overlap                                             *)
(* ====================================================================== *)

(** An async function runs without interruption from one [await] to the
    next. While it waits for a request or for the body of a response, the
    other operations of the process get to run. [Now m k] is code that runs
    at once, [Await m k] is what happens when the awaited operation [m]
    completes; either way [k] goes on with the outcome. The awaits that one
    method of the client puts on another are not marked: they resume as
    soon as the callee has returned. *)
Inductive Async (S A : Type) : Type :=
| Return (r : Res A)
| Now (B : Type) (m : M S B) (k : Res B -> Async S A)
| Await (B : Type) (m : M S B) (k : Res B -> Async S A).
Arguments Return {S A} r.
Arguments Now {S A B} m k.
Arguments Await {S A B} m k.

Definition aret {S A} (a : A) : Async S A := Return (Ok a).

Definition athrow {S A} (e : Thrown) : Async S A := Return (Throw e).

Definition now {S A} (m : M S A) : Async S A := Now m (fun r => Return r).

Definition await {S A} (m : M S A) : Async S A := Await m (fun r => Return r).

Fixpoint abind {S A B} (t : Async S A) (k : A -> Async S B) : Async S B :=
  match t with
  | Return (Ok a) => k a
  | Return (Throw e) => Return (Throw e)
  | Now m c => Now m (fun r => abind (c r) k)
  | Await m c => Await m (fun r => abind (c r) k)
  end.

(** [try { t } catch (e) { h(e) }]. *)
Fixpoint acatch {S A} (t : Async S A) (h : Thrown -> Async S A) : Async S A :=
  match t with
  | Return (Ok a) => Return (Ok a)
  | Return (Throw e) => h e
  | Now m c => Now m (fun r => acatch (c r) h)
  | Await m c => Await m (fun r => acatch (c r) h)
  end.

Declare Scope overlap_scope.
Delimit Scope overlap_scope with overlap.
Notation "x <- m ;; k" := (abind m (fun x => k))
  (at level 100, m at next level, right associativity) : overlap_scope.

Definition ahandleErrors {S A} (fn : Async S A) : Async S A :=
  acatch fn (fun error => athrow (TMCP (parseGeminiError error))).

(** The operation run from start to end with nothing in between. *)
Fixpoint complete {S A} (t : Async S A) : M S A :=
  fun s =>
    match t with
    | Return r => (r, s)
    | Now m k => let (r, s') := m s in complete (k r) s'
    | Await m k => let (r, s') := m s in complete (k r) s'
    end.

(** The operation [t], run without anything in between, is [m]. *)
Definition runs {S A} (t : Async S A) (m : M S A) : Prop :=
  forall s, complete t s = m s.

(** The code that runs at once, up to the next [await]. *)
Fixpoint settle {S A} (t : Async S A) (s : S) : Async S A * S :=
  match t with
  | Now m k => let (r, s') := m s in settle (k r) s'
  | _ => (t, s)
  end.

(** One turn of an operation: it is called or, when it waits, what it
    waits for completes; then it runs up to its next [await]. *)
Definition advance {S A} (t : Async S A) (s : S) : Async S A * S :=
  match t with
  | Await m k => let (r, s') := m s in settle (k r) s'
  | _ => settle t s
  end.

(** Two operations of one process. The schedule says whose turn it is,
    [true] for the first; [turns] holds, turn by turn, whose turn it was
    and the state it left. *)
Record Overlap (S A : Type) : Type := mkOverlap {
  firstOp : Async S A;
  secondOp : Async S A;
  finalState : S;
  turns : list (bool * S)
}.
Arguments mkOverlap {S A} _ _ _ _.
Arguments firstOp {S A} _.
Arguments secondOp {S A} _.
Arguments finalState {S A} _.
Arguments turns {S A} _.

Fixpoint overlapped {S A} (schedule : list bool) (a b : Async S A) (s : S)
  : Overlap S A :=
  match schedule with
  | [] => mkOverlap a b s []
  | true :: rest =>
      let (a', s') := advance a s in
      let o := overlapped rest a' b s' in
      mkOverlap (firstOp o) (secondOp o) (finalState o) ((true, s') :: turns o)
  | false :: rest =>
      let (b', s') := advance b s in
      let o := overlapped rest a b' s' in
      mkOverlap (firstOp o) (secondOp o) (finalState o) ((false, s') :: turns o)
  end.

(** The operation has returned a value. *)
Definition returned {S A} (t : Async S A) : bool :=
  match t with
  | Return (Ok _) => true
  | _ => false
  end.

Section Overlapping.

Context {World : Type} (P : Platform World).

(** The requests sent in the turns of one of the two operations. *)
Fixpoint sentBy (who : bool) (before : St World) (taken : list (bool * St World))
  : list RemoteCall :=
  match taken with
  | [] => []
  | (w, after) :: rest =>
      ((if Bool.eqb w who then skipn (List.length (calls before)) (calls after) else [])
         ++ sentBy who after rest)%list
  end.

(** A request leaves when [fetch] is called. *)
Definition logCall (c : RemoteCall) : M (St World) unit :=
  fun st => (Ok tt, mkSt (client st) (world st) (calls st ++ [c])).

(** [await fetch(...)]: the request leaves at once, the response is
    awaited. *)
Definition request {A} (c : RemoteCall) (op : M World A) : Async (St World) A :=
  (_ <- now (logCall c) ;; await (local op))%overlap.

Definition listFileStoresA (pageSize : Z) : Async (St World) (list FileSearchStore) :=
  ahandleErrors
    (c <- now getClient ;;
     response <- request (ListStores pageSize) (fetch_listStores P pageSize (apiKey c)) ;;
     if negb (ok response) then
       errorText <- await (ret (text response)) ;;
       athrow (TMCP (mkMCPError API_ERROR
         ("Failed to list File Stores: " ++ string_of_Z (status response) ++ " "
            ++ statusText response ++ " - " ++ errorText)
         true None))
     else
       data <- await (settled (body response)) ;;
       aret (match data with Some stores => stores | None => [] end))%overlap.

Definition createFileStoreA (displayName : option string) : Async (St World) string :=
  ahandleErrors
    (c <- now getClient ;;
     _ <- (match displayName with
           | Some dn =>
               if truthy dn then
                 stores <- listFileStoresA 20 ;;
                 match find (displayName_is dn) stores with
                 | Some existingStore =>
                     athrow (TMCP (mkMCPError API_ERROR
                       (alreadyExistsMessage dn (name existingStore)) false None))
                 | None => aret tt
                 end
               else aret tt
           | None => aret tt
           end) ;;
     let body_displayName :=
       match displayName with
       | Some dn => if truthy dn then Some dn else None
       | None => None
       end in
     response <- request (CreateStore body_displayName)
                   (fetch_createStore P body_displayName (apiKey c)) ;;
     if negb (ok response) then
       errorText <- await (ret (text response)) ;;
       athrow (TMCP (mkMCPError API_ERROR
         ("Failed to create File Store: " ++ string_of_Z (status response) ++ " "
            ++ statusText response ++ " - " ++ errorText)
         false None))
     else
       data <- await (settled (body response)) ;;
       let storeId := name data in
       _ <- now (setStoreId storeId) ;;
       aret storeId)%overlap.

Definition resolveStoreByDisplayNameA (displayName : string) : Async (St World) string :=
  ahandleErrors
    (stores <- listFileStoresA 20 ;;
     match find (displayName_is displayName) stores with
     | Some matchingStore => aret (name matchingStore)
     | None => createFileStoreA (Some displayName)
     end)%overlap.

Definition checkFileStoreExistsA (storeId : string) : Async (St World) bool :=
  ahandleErrors
    (c <- now getClient ;;
     response <- request (GetStore storeId) (fetch_getStore P storeId (apiKey c)) ;;
     if status response =? 404 then aret false
     else if negb (ok response) then
       errorText <- await (ret (text response)) ;;
       athrow (TMCP (mkMCPError API_ERROR
         ("Failed to check File Store: " ++ string_of_Z (status response) ++ " "
            ++ statusText response ++ " - " ++ errorText)
         true None))
     else aret true)%overlap.

(** [if (!this.storeId) { ...
    this.storeId = await this.resolveStoreByDisplayName(this.storeName); }]:
    the guard is read at once, the assignment runs when the resolution has
    returned. *)
Definition ensureStoreIdA : Async (St World) string :=
  (c <- now getClient ;;
   if truthy_opt (storeId c) then aret (or_else (storeId c) EmptyString)
   else
     match storeName c with
     | Some sn =>
         if truthy sn then
           id <- resolveStoreByDisplayNameA sn ;;
           _ <- now (setStoreId id) ;;
           aret id
         else athrow (TMCP storeNameNotConfigured)
     | None => athrow (TMCP storeNameNotConfigured)
     end)%overlap.

Definition ensureFileStoreA : Async (St World) unit :=
  (id <- ensureStoreIdA ;;
   exists_ <- checkFileStoreExistsA id ;;
   if negb exists_ then
     athrow (TMCP (mkMCPError STORE_NOT_FOUND
       ("File Store not found: " ++ id
          ++ ". This should not happen if resolveStoreByDisplayName worked correctly.")
       false None))
   else aret tt)%overlap.

(** [uploadDocument] from [ensureLocalFile] on. *)
Definition uploadWithStoreId (source : string) (metadata : option DocumentMetadata)
  : M (St World) Document :=
  (localPath <- ensureLocalFile P source ;;
   let fileName := path_basename P localPath in
   hash <- calculateFileHash P localPath ;;
   let dedupeKey := generateDedupeKey hash metadata in
   sizeBytes <- local (fs_stat_size P localPath) ;;
   uploadResponse <-
     retryWithBackoff (stRuntime P)
       (remote (UploadFile localPath)
          (sdk_uploadFile P localPath (getMimeType P fileName)
             (or_else (match metadata with Some m => title m | None => None end)
                fileName)))
       (mkRetryOptions (Some 3) None (Some (fun _ _ st => st))) ;;
   _ <- (if startsWith source "http" then
           try_catch (local (fs_unlink P localPath)) (fun _ => ret tt)
         else ret tt) ;;
   c <- getClient ;;
   w <- getWorld ;;
   ret (mkDocument
          (uf_name uploadResponse)
          (match storeId c with Some id => id | None => EmptyString end)
          fileName
          (Some (uf_uri uploadResponse))
          (or_else (uf_mimeType uploadResponse) (getMimeType P fileName))
          sizeBytes
          (date_iso P w)
          (match metadata with Some m => m | None => emptyMetadata end)
          hash
          dedupeKey))%async.

(** [uploadDocument], with the awaits of the store resolution marked. What
    follows the resolution is taken in one piece: nothing here depends on
    what overlaps it. *)
Definition uploadDocumentA (source : string) (metadata : option DocumentMetadata)
  : Async (St World) Document :=
  ahandleErrors
    (_ <- ensureStoreIdA ;;
     await (uploadWithStoreId source metadata))%overlap.

Definition addDocumentA (source : string) (metadata : option DocumentMetadata)
  : Async (St World) AddDocumentOutput :=
  ahandleErrors
    (document <- uploadDocumentA source metadata ;;
     aret (mkAddDocumentOutput true (doc_id document) (store_id document)
             (file_name document) (hash document)
             ("Document uploaded successfully: " ++ file_name document)))%overlap.

End Overlapping.

(** A service whose listing shows the collection "papers" under an empty
    id. *)
Definition simNamelessPapers : Sim.World :=
  Sim.mkWorld [mkStore EmptyString (Some "papers")] [].

Definition simNamelessFresh : St Sim.World :=
  mkSt (newClient "key" None (Some "papers")) simNamelessPapers [].

(** A fresh process whose collection "theses" does not exist yet. *)
Definition simThesesFresh : St Sim.World :=
  mkSt (newClient "key" (Some "theses") None) Sim.world0 [].

(** The two operations take turns, [n] turns each. *)
Fixpoint inTurns (n : nat) : list bool :=
  match n with
  | O => []
  | S n' => true :: false :: inTurns n'
  end.

(* ====================================================================== *)
(** ** Statements that are put to the test below                           *)
(* ====================================================================== *)

(** The claim that every message mentioning a rate limit or a quota is
    classified [RATE_LIMITED] and retryable, whatever else it mentions. *)
Definition rate_limit_claim : Prop :=
  forall (name msg : string) (status : option Z),
    orb (includes (toLowerCase msg) "rate limit")
        (includes (toLowerCase msg) "quota") = true ->
    code (parseGeminiError (TError name msg status)) = RATE_LIMITED /\
    retryable (parseGeminiError (TError name msg status)) = true.

(** The claim that a failure flagged [retryable == false] is never retried,
    whatever [maxAttempts] is: the unit of work runs once and its failure
    is what the caller gets. *)
Definition no_retry_on_flag_claim : Prop :=
  forall (W : Type) (rt : Runtime W) (fn : M W nat) (options : RetryOptions W)
         (w w1 : W) (e : MCPError),
    fn w = (Throw (TMCP e), w1) ->
    retryable e = false ->
    exists w', retryWithBackoff (spy_runtime rt) (spy fn) (spy_options options) (0%nat, w)
               = (Throw (TMCP e), (1%nat, w')).

(** A unit of work that fails with a retryable error on every attempt. *)
Definition alwaysRetryable {W T} (fn : M W T) : Prop :=
  forall w, exists e w', fn w = (Throw e, w') /\ isRetryable e = true.

(** The claim that, after three failed attempts, the caller receives a
    classified error rather than the value the unit of work threw. *)
Definition propagates_classified_claim : Prop :=
  forall (W : Type) (rt : Runtime W) (fn : M W nat) (w : W),
    alwaysRetryable fn ->
    exists (m : MCPError) (w' : W),
      retryWithBackoff (spy_runtime rt) (spy fn)
        (mkRetryOptions (Some 3) None None) (0%nat, w)
      = (Throw (TMCP m), (3%nat, w')).

(** The digest does not collide on the two strings [a] and [b]. *)
Definition no_collision (a b : string) : Prop :=
  Sha256.hex_of_string a = Sha256.hex_of_string b -> a = b.

(** The log of [st'] is the log of [st] followed by requests that are all
    [allowed]. *)
Definition grows {World} (allowed : RemoteCall -> Prop) (st st' : St World) : Prop :=
  exists l, calls st' = (calls st ++ l)%list /\ Forall allowed l.

(** A state change that keeps the property [inv] of the client object and
    sends allowed requests only. *)
Definition keepsStep {World} (allowed : RemoteCall -> Prop) (inv : Client -> Prop)
  (t : St World -> St World) : Prop :=
  forall st, inv (client st) -> inv (client (t st)) /\ grows allowed st (t st).

(** The same for a computation, whether it returns or throws. *)
Definition keeps {World A} (allowed : RemoteCall -> Prop) (inv : Client -> Prop)
  (m : M (St World) A) : Prop :=
  keepsStep allowed inv (fun st => snd (m st)).

(** A classified error whose detail map holds [id] under some key. *)
Definition detailsMention (e : MCPError) (id : string) : Prop :=
  exists (d : Details) (key : string), details e = Some d /\ In (key, id) d.

(** The claim that creating a collection under a display name that the
    listing already shows fails with a non-retryable error that carries the
    existing id in its detail map, and sends no creation request. *)
Definition duplicate_details_claim : Prop :=
  forall (World : Type) (P : Platform World) (st st1 : St World) (dn : string)
         (listed : list FileSearchStore) (existing : FileSearchStore),
    listFileStores P 20 st = (Ok listed, st1) ->
    find (displayName_is dn) listed = Some existing ->
    exists e : MCPError,
      fst (createFileStore P (Some dn) st) = Throw (TMCP e) /\
      retryable e = false /\
      detailsMention e (name existing) /\
      grows (fun c => match c with CreateStore _ => False | _ => True end)
        st (snd (createFileStore P (Some dn) st)).

(** The claim that adding a document from a local path that does not exist
    fails with [FILE_NOT_FOUND], not retryable, before any request has left
    the process. *)
Definition missing_file_claim : Prop :=
  forall (World : Type) (P : Platform World) (st : St World) (source : string)
         (metadata : option DocumentMetadata),
    startsWith source "http://" = false ->
    startsWith source "https://" = false ->
    (forall w, exists e' w'', fs_access P source w = (Throw e', w'')) ->
    exists m : MCPError,
      fst (addDocument P source metadata st) = Throw (TMCP m) /\
      code m = FILE_NOT_FOUND /\
      retryable m = false /\
      calls (snd (addDocument P source metadata st)) = calls st.

(** The claim that a process resolves the display name of its collection
    at most once: of two add-document calls that both return, whether they
    overlap or follow each other, at most one sends list-collections or
    create-collection requests. *)
Definition resolved_once_claim : Prop :=
  forall (World : Type) (P : Platform World) (st : St World)
         (source1 source2 : string) (metadata1 metadata2 : option DocumentMetadata)
         (schedule : list bool),
    let run := overlapped schedule (addDocumentA P source1 metadata1)
                 (addDocumentA P source2 metadata2) st in
    returned (firstOp run) = true ->
    returned (secondOp run) = true ->
    existsb isResolutionCall (sentBy true st (turns run)) = false \/
    existsb isResolutionCall (sentBy false st (turns run)) = false.

(** An operation that starts by making sure of the store id. *)
Definition needsStoreId (o : Operation) : bool :=
  match o with
  | OpListDocuments _ _ => false
  | _ => true
  end.

(** A request that is neither list-collections nor create-collection. *)
Definition notResolution (c : RemoteCall) : Prop := isResolutionCall c = false.

(** A list-collections or create-collection request. *)
Definition resolutionCall (c : RemoteCall) : Prop := isResolutionCall c = true.

(** The client object is [c], fields and all. *)
Definition sameClient (c c' : Client) : Prop := c' = c.

(** No restriction on the requests, none on the client. *)
Definition anyCall (c : RemoteCall) : Prop := True.

Definition anyClient (c : Client) : Prop := True.


(* ====================================================================== *)
(** ** A scripted unit of work, to watch the retry executor                *)
(* ====================================================================== *)

Module Script.

(** The outcomes the unit of work still has to produce, the delays slept so
    far, the number of random draws made, and what the observer was told. *)
Record World (T : Type) : Type := mkWorld {
  outcomes : list (Res T);
  slept : list Q;
  drawn : nat;
  observed : list (Z * Thrown)
}.
Arguments mkWorld {T} _ _ _ _.
Arguments outcomes {T} _.
Arguments slept {T} _.
Arguments drawn {T} _.
Arguments observed {T} _.

(** [Math.random()] answers [jitter n] at its [n]-th call; [sleep] records
    its argument. *)
Definition runtime {T} (jitter : nat -> Q) : Runtime (World T) :=
  {| random := fun w =>
       (jitter (drawn w), mkWorld (outcomes w) (slept w) (S (drawn w)) (observed w));
     sleep := fun d w =>
       mkWorld (outcomes w) (slept w ++ [d]) (drawn w) (observed w) |}.

(** Each call takes the next outcome of the script; a script that has run
    out throws [undefined]. *)
Definition work {T} : M (World T) T :=
  fun w =>
    match outcomes w with
    | o :: rest => (o, mkWorld rest (slept w) (drawn w) (observed w))
    | [] => (Throw TOther, w)
    end.

(** [onRetry]: notes the attempt number and the error. *)
Definition observer {T} (attempt : Z) (error : Thrown) (w : World T) : World T :=
  mkWorld (outcomes w) (slept w) (drawn w) (observed w ++ [(attempt, error)]).

Definition start {T} (script : list (Res T)) : World T := mkWorld script [] 0%nat [].

(** The delays of [k] retries in a row, the first one after attempt
    [attempt] and with the random draw number [draw]: the scheduled delay
    plus 200 times the draw, product and sum rounded as doubles are. *)
Fixpoint delaysFrom (jitter : nat -> Q) (delays : list Z) (attempt : Z) (draw k : nat)
  : list Q :=
  match k with
  | O => []
  | S k' =>
      Double.round (inject_Z (baseDelayFor delays attempt)
                    + Double.round (jitter draw * 200))
        :: delaysFrom jitter delays (attempt + 1) (S draw) k'
  end.

(** What the observer is told about failures in a row, the first one at
    attempt [attempt]. *)
Fixpoint notesFrom (attempt : Z) (failures : list Thrown) : list (Z * Thrown) :=
  match failures with
  | [] => []
  | e :: es => (attempt, e) :: notesFrom (attempt + 1) es
  end.

End Script.

(* ====================================================================== *)
(** ** Vocabulary for the further properties                               *)
(* ====================================================================== *)

(** A string of ASCII characters. On these the lower-casing, the lengths
    and the positions of the model are those of JavaScript. *)
Fixpoint isAscii (s : string) : bool :=
  match s with
  | EmptyString => true
  | String c rest => andb (nat_of_ascii c <? 128)%nat (isAscii rest)
  end.

(** [error instanceof MCPError]. *)
Definition isMCPError (x : Thrown) : bool :=
  match x with TMCP _ => true | _ => false end.

(** The codes the classifier gives to what is not yet an [MCPError]. *)
Definition classifierCodes : list ErrorCode :=
  [FILE_TOO_LARGE; INVALID_FILE_TYPE; RATE_LIMITED; AUTH_FAILED; STORE_NOT_FOUND;
   NETWORK_ERROR; API_ERROR; UNKNOWN_ERROR].

(** The codes the classifier flags as retryable. *)
Definition classifierRetryableCodes : list ErrorCode :=
  [RATE_LIMITED; NETWORK_ERROR; API_ERROR].


(** The client object with [id] as its store id. *)
Definition withStoreId (c : Client) (id : string) : Client :=
  mkClient (apiKey c) (Some id) (storeName c).





(** The simulated service with a second collection, as another process
    could have created it in the meantime. *)
Definition simTheses : FileSearchStore := mkStore "fileSearchStores/t9" (Some "theses").

(** A platform whose listing shows the collection "theses" from the second
    request on: the world counts the listings. *)
Definition racingPlatform : Platform nat :=
  {| runtime := Sim.idle;
     fetch_listStores := fun _ _ n =>
       (Ok (Sim.response200 (Some (if (n =? 0)%nat then [Sim.papers]
                                   else [Sim.papers; simTheses]))), S n);
     fetch_createStore := fun dn _ n =>
       (Ok (Sim.response200 (mkStore "fileSearchStores/dup" dn)), n);
     fetch_getStore := fun _ _ n => (Ok (Sim.response200 tt), n);
     fetch_url := fun _ n => (Ok Sim.response404, n);
     sdk_uploadFile := fun path _ _ n => (Sim.enoent path, n);
     sdk_listFiles := fun n => (Ok None, n);
     fs_access := fun path n => (Sim.enoent path, n);
     fs_readFile := fun path n => (Sim.enoent path, n);
     fs_stat_size := fun path n => (Sim.enoent path, n);
     fs_mkdtemp := fun path n => (Sim.erofs path, n);
     fs_writeFile := fun path _ n => (Sim.erofs path, n);
     fs_unlink := fun path n => (Sim.erofs path, n);
     date_now := fun _ => 0;
     date_iso := fun _ => "1970-01-01T00:00:00.000Z";
     url_pathname := fun url => Ok ("/" ++ Sim.basename url);
     path_basename := Sim.basename;
     path_extname := Sim.extname;
     path_join := fun a b => a ++ "/" ++ b;
     parseInt := fun s => Sim.digits s 0 |}.

Definition racingStart : St nat := mkSt (newClient "key" (Some "theses") None) 0%nat [].

(** The [Document] that [uploadDocument] returns for the file at [path]
    with this content and size, uploaded as [uploaded] into the store [id]
    at the time [now]. *)
Definition uploadedDocument {World} (P : Platform World) (id path : string)
  (metadata : option DocumentMetadata) (content : list byte) (size : Z)
  (uploaded : UploadedFile) (now : string) : Document :=
  mkDocument
    (uf_name uploaded)
    id
    (path_basename P path)
    (Some (uf_uri uploaded))
    (or_else (uf_mimeType uploaded) (getMimeType P (path_basename P path)))
    size
    now
    (match metadata with Some m => m | None => emptyMetadata end)
    (fileHash content)
    (generateDedupeKey (fileHash content) metadata).

(** The display name that [uploadDocument] gives the upload:
    [metadata?.title || fileName]. *)
Definition uploadDisplayName {World} (P : Platform World) (path : string)
  (metadata : option DocumentMetadata) : string :=
  or_else (match metadata with Some m => title m | None => None end)
    (path_basename P path).

(** [uploadDocument] from the upload request on, for the local copy
    [localPath] of [source] with this hash and size. *)
Definition uploadTail {World} (P : Platform World) (source localPath : string)
  (metadata : option DocumentMetadata) (hash : string) (sizeBytes : Z)
  : M (St World) Document :=
  (uploadResponse <-
     retryWithBackoff (stRuntime P)
       (remote (UploadFile localPath)
          (sdk_uploadFile P localPath (getMimeType P (path_basename P localPath))
             (or_else (match metadata with Some m => title m | None => None end)
                (path_basename P localPath))))
       (mkRetryOptions (Some 3) None (Some (fun _ _ st => st))) ;;
   _ <- (if startsWith source "http" then
           try_catch (local (fs_unlink P localPath)) (fun _ => ret tt)
         else ret tt) ;;
   c <- getClient ;;
   w <- getWorld ;;
   ret (mkDocument
          (uf_name uploadResponse)
          (match storeId c with Some id => id | None => EmptyString end)
          (path_basename P localPath)
          (Some (uf_uri uploadResponse))
          (or_else (uf_mimeType uploadResponse) (getMimeType P (path_basename P localPath)))
          sizeBytes
          (date_iso P w)
          (match metadata with Some m => m | None => emptyMetadata end)
          hash
          (generateDedupeKey hash metadata)))%async.

(** The name [extractFileName] gives a download whose URL has the path
    [urlPath], at the time [now]. *)
Definition downloadedName {World} (P : Platform World) (urlPath : string)
  (contentType : option string) (now : Z) : string :=
  if andb (truthy (path_basename P urlPath))
          (negb (String.eqb (path_basename P urlPath) "/"))
  then path_basename P urlPath
  else "download_" ++ string_of_Z now ++ "." ++ getExtensionFromMimeType contentType.

(** The error [downloadFile] throws for a response that is not [ok]. *)
Definition downloadFailed {A} (response : Response A) : MCPError :=
  mkMCPError DOWNLOAD_FAILED
    ("Failed to download file: " ++ string_of_Z (status response) ++ " "
       ++ statusText response)
    false None.


(* ====================================================================== *)
(** ** Strings by UTF-16 code units                                        *)
(* ====================================================================== *)

(** A JavaScript string is a sequence of UTF-16 code units, and [substring]
    counts in them. The model holds a string as its UTF-8 bytes, a lone
    surrogate in the same three-byte form. The byte that starts a character
    stands for one code unit, or for two when it starts a four-byte
    character (a surrogate pair); continuation bytes stand for none. *)
Definition isContinuation (b : ascii) : bool :=
  andb (128 <=? N_of_ascii b)%N (N_of_ascii b <? 192)%N.

Definition codeUnits (b : ascii) : nat :=
  if isContinuation b then 0%nat
  else if (240 <=? N_of_ascii b)%N then 2%nat
  else 1%nat.

(** [s.length]. *)
Fixpoint utf16Length (s : string) : nat :=
  match s with
  | EmptyString => 0%nat
  | String b rest => (codeUnits b + utf16Length rest)%nat
  end.

(** The first half of the surrogate pair of the four-byte character that
    starts with [b0], as a string of its own. *)
Definition highSurrogate (b0 : ascii) (rest : string) : string :=
  match rest with
  | String b1 (String b2 (String b3 _)) =>
      let codePoint :=
        ((N_of_ascii b0 mod 8) * 262144 + (N_of_ascii b1 mod 64) * 4096
         + (N_of_ascii b2 mod 64) * 64 + N_of_ascii b3 mod 64)%N in
      let unit := (55296 + (codePoint - 65536) / 1024)%N in
      String (ascii_of_N (224 + unit / 4096))
        (String (ascii_of_N (128 + (unit / 64) mod 64))
           (String (ascii_of_N (128 + unit mod 64)) EmptyString))
  | _ => EmptyString
  end.

(** [s.substring(0, n)]: the first [n] code units. A surrogate pair that
    straddles the end is cut in two. *)
Fixpoint substringTo (n : nat) (s : string) : string :=
  match s with
  | EmptyString => EmptyString
  | String b rest =>
      match codeUnits b, n with
      | O, _ => String b (substringTo n rest)
      | S O, S n' => String b (substringTo n' rest)
      | S (S _), S (S n') => String b (substringTo n' rest)
      | S (S _), S O => highSurrogate b rest
      | _, O => EmptyString
      end
  end.

(** [n] times the string [s]. *)
Fixpoint repeatString (n : nat) (s : string) : string :=
  match n with
  | O => EmptyString
  | S n' => s ++ repeatString n' s
  end.

(* ====================================================================== *)
(** ** gemini-client.ts: search, passages, deletion, health check          *)
(* ====================================================================== *)

(** One part of a prompt given to [model.generateContent]. *)
Inductive Part : Type :=
| FileData (mimeType : string) (fileUri : option string)
| Text (prompt : string).

(** The requests of these operations, beside the ones logged in [calls]. *)
Inductive SdkCall : Type :=
| GenerateContent (parts : list Part)
| GetFile (docId : string)
| DeleteFile (docId : string).

(** The generative model and the file manager's calls by id. The answer
    of the model is what [response.response.text()] gives, which may throw. *)
Record Sdk (World : Type) : Type := mkSdk {
  model_generateContent : list Part -> M World (Res string);
  files_getFile : string -> M World (option RemoteFile);
  files_deleteFile : string -> M World unit
}.
Arguments mkSdk {World} _ _ _.
Arguments model_generateContent {World} _ _ _.
Arguments files_getFile {World} _ _ _.
Arguments files_deleteFile {World} _ _ _.

(** The process together with the log of these requests. *)
Record Session (World : Type) : Type := mkSession {
  process : St World;
  asked : list SdkCall
}.
Arguments mkSession {World} _ _.
Arguments process {World} _.
Arguments asked {World} _.

(** [filters] of a search or a listing. *)
Record Filters : Type := mkFilters {
  year_min : option Z;
  year_max : option Z;
  filter_tags : option (list string);
  filter_authors : option (list string)
}.

Record SearchResult : Type := mkSearchResult {
  sr_doc_id : string;
  sr_file_name : string;
  snippet : string;
  score : Z;
  sr_page_start : Z;
  sr_page_end : Z;
  sr_metadata : DocumentMetadata
}.

(** [{ start, end }]. *)
Record PageSpan : Type := mkPageSpan {
  span_start : Z;
  span_end : Z
}.

Record Passage : Type := mkPassage {
  page_start : Z;
  page_end : Z;
  passage_text : string
}.

Record Health : Type := mkHealth {
  healthy : bool;
  health_message : string
}.

Definition newline : string := String (ascii_of_nat 10) EmptyString.

(** The text part of the search prompt. *)
Definition searchPrompt (query : string) : string :=
  "Based on the provided documents, answer the following query and provide specific page numbers or sections for citations:"
    ++ newline ++ newline ++ query ++ newline ++ newline
    ++ "Please structure your response with relevant excerpts and their sources.".

(** The prompt of one page span. *)
Definition passagePrompt (span : PageSpan) : string :=
  "Extract the full text content from page " ++ string_of_Z (span_start span)
    ++ (if negb (span_end span =? span_start span)
        then " to page " ++ string_of_Z (span_end span)
        else EmptyString)
    ++ " of this document. Return ONLY the text content from these pages without any additional commentary.".

(** [{ fileData: { mimeType: file.mimeType || 'application/pdf', fileUri: file.uri } }]. *)
Definition filePart (file : RemoteFile) : Part :=
  FileData (or_else (rf_mimeType file) "application/pdf") (rf_uri file).

(** [error instanceof Error ? error.message : 'Unknown error']. *)
Definition errorMessage (error : Thrown) : string :=
  match error with
  | TMCP e => message e
  | TError _ msg _ => msg
  | _ => "Unknown error"
  end.

Section ModelCalls.

Context {World : Type} (P : Platform World) (K : Sdk World).

(** An operation of the base client, run in the session. *)
Definition lift {A} (m : M (St World) A) : M (Session World) A :=
  fun s => let (r, st) := m (process s) in (r, mkSession st (asked s)).

(** An awaited call to the model or the file manager; the request is logged. *)
Definition ask {A} (c : SdkCall) (op : M World A) : M (Session World) A :=
  fun s =>
    let (r, w) := op (world (process s)) in
    (r, mkSession (mkSt (client (process s)) w (calls (process s))) (asked s ++ [c])).

(** [Math.random] and [sleep] as seen from the session. *)
Definition sessionRuntime : Runtime (Session World) :=
  mkRuntime (Session World)
    (fun s => let (r, st) := random (stRuntime P) (process s) in
              (r, mkSession st (asked s)))
    (fun d s => mkSession (sleep (stRuntime P) d (process s)) (asked s)).

(** [model.generateContent(parts)] under [retryWithBackoff], then
    [response.response.text()]. *)
Definition generate (parts : list Part) : M (Session World) string :=
  (response <-
     retryWithBackoff sessionRuntime
       (ask (GenerateContent parts) (model_generateContent K parts)) noOptions ;;
   fun s => (response, s))%async.

Definition searchDocuments (query : string) (topK : Z) (filters : option Filters)
  : M (Session World) (list SearchResult) :=
  handleErrors
    (listResponse <- lift (remote ListFiles (sdk_listFiles P)) ;;
     let files := match listResponse with Some fs => fs | None => [] end in
     if Z.of_nat (List.length files) =? 0 then ret []
     else
       let fileParts :=
         map filePart (js_slice files 0 (Z.min (Z.of_nat (List.length files)) 10)) in
       responseText <- generate (fileParts ++ [Text (searchPrompt query)])%list ;;
       ret [mkSearchResult
              (match files with
               | file :: _ => if truthy (rf_name file) then rf_name file else "unknown"
               | [] => "unknown"
               end)
              (or_else (match files with
                        | file :: _ => rf_displayName file
                        | [] => None
                        end) "document")
              (substringTo 500 responseText)
              1 1 1 emptyMetadata])%async.

(** [for (const span of pageSpans) { ... passages.push(...) }]. *)
Fixpoint passagesLoop (file : RemoteFile) (pageSpans : list PageSpan)
  (passages : list Passage) : M (Session World) (list Passage) :=
  match pageSpans with
  | [] => ret passages
  | span :: rest =>
      (text <- generate [filePart file; Text (passagePrompt span)] ;;
       passagesLoop file rest
         (passages ++ [mkPassage (span_start span) (span_end span) text])%list)%async
  end.

Definition getPassages (docId : string) (pageSpans : list PageSpan)
  : M (Session World) (list Passage) :=
  handleErrors
    (file <-
       retryWithBackoff sessionRuntime
         (ask (GetFile docId) (files_getFile K docId)) noOptions ;;
     match file with
     | Some f =>
         if truthy_opt (rf_uri f) then passagesLoop f pageSpans []
         else throw (TMCP (mkMCPError FILE_NOT_FOUND ("File not found: " ++ docId)
                             false None))
     | None =>
         throw (TMCP (mkMCPError FILE_NOT_FOUND ("File not found: " ++ docId) false None))
     end)%async.

Definition deleteDocument (docId : string) : M (Session World) unit :=
  handleErrors
    (_ <- retryWithBackoff sessionRuntime
            (ask (DeleteFile docId) (files_deleteFile K docId)) noOptions ;;
     ret tt)%async.

Definition healthCheck : M (Session World) Health :=
  try_catch
    (_ <- ask (GenerateContent [Text "ping"]) (model_generateContent K [Text "ping"]) ;;
     ret (mkHealth true "Gemini API connection is healthy"))%async
    (fun error => ret (mkHealth false ("Health check failed: " ++ errorMessage error))).

End ModelCalls.

(** A machine whose disk can change: the world is the disk, a list of
    paths with their contents. Two URLs can be downloaded; the service
    rejects files of unknown type. *)
Module Disk.

Definition World : Type := list (string * list byte).

Definition lookup (path : string) (w : World) : option (list byte) :=
  match find (fun e => String.eqb (fst e) path) w with
  | Some e => Some (snd e)
  | None => None
  end.

Definition remove (path : string) (w : World) : World :=
  filter (fun e => negb (String.eqb (fst e) path)) w.

Definition platform : Platform World :=
  {| runtime := Sim.idle;
     fetch_listStores := fun _ _ w => (Ok (Sim.response200 (Some [Sim.papers])), w);
     fetch_createStore := fun dn _ w =>
       (Ok (Sim.response200 (mkStore "fileSearchStores/new" dn)), w);
     fetch_getStore := fun _ _ w => (Ok (Sim.response200 tt), w);
     fetch_url := fun url w =>
       (Ok (if orb (String.eqb url "https://example.org/a.txt")
                   (String.eqb url "https://example.org/blob.bin")
            then Sim.response200 [x68; x69] else Sim.response404), w);
     sdk_uploadFile := fun path mime dn w =>
       (if String.eqb mime "application/octet-stream"
        then Throw (TError "Error" "Unsupported file type" None)
        else Ok (mkUploadedFile ("files/" ++ dn) ("https://files.example/" ++ dn)
                   (Some mime)), w);
     sdk_listFiles := fun w => (Ok None, w);
     fs_access := fun path w =>
       (match lookup path w with Some _ => Ok tt | None => Sim.enoent path end, w);
     fs_readFile := fun path w =>
       (match lookup path w with Some b => Ok b | None => Sim.enoent path end, w);
     fs_stat_size := fun path w =>
       (match lookup path w with
        | Some b => Ok (Z.of_nat (List.length b))
        | None => Sim.enoent path
        end, w);
     fs_mkdtemp := fun prefix w => (Ok (prefix ++ "000000"), w);
     fs_writeFile := fun path content w => (Ok tt, (path, content) :: w);
     fs_unlink := fun path w =>
       (match lookup path w with Some _ => Ok tt | None => Sim.enoent path end,
        remove path w);
     date_now := fun _ => 0;
     date_iso := fun _ => "1970-01-01T00:00:00.000Z";
     url_pathname := fun url => Ok ("/" ++ Sim.basename url);
     path_basename := Sim.basename;
     path_extname := Sim.extname;
     path_join := fun a b => a ++ "/" ++ b;
     parseInt := fun s => Sim.digits s 0 |}.

(** The working directory holds a file whose name starts with "http". *)
Definition notes : list byte := [x68; x69].

Definition start : St World :=
  mkSt (mkClient "key" (Some "fileSearchStores/abc123") (Some "papers"))
    [("http-notes.txt", notes); ("/data/paper.pdf", [x25; x50; x44; x46])] [].

End Disk.

(** The simulated service answering the model and file-manager calls:
    the model always gives the same answer, files are known by name. *)
Definition simSdk : Sdk Sim.World :=
  mkSdk
    (fun _ w => (Ok (Ok "The answer is on page 3."), w))
    (fun docId w =>
       (match find (fun f => String.eqb (rf_name f) docId) (Sim.remoteFiles w) with
        | Some f => Ok (Some f)
        | None => Throw (TError "Error" "[404 Not Found] file not found" (Some 404))
        end, w))
    (fun docId w =>
       (Ok tt,
        Sim.mkWorld (Sim.stores w)
          (filter (fun f => negb (String.eqb (rf_name f) docId)) (Sim.remoteFiles w)))).

(** A session on the simulated service. *)
Definition simSession : Session Sim.World := mkSession Sim.resolved [].

(** A file as the service reports it once it is stored. *)
Definition simStoredFile : RemoteFile :=
  mkRemoteFile "files/f0" (Some "paper.pdf")
    (Some "https://generativelanguage.googleapis.com/v1beta/files/f0")
    (Some "application/pdf") (Some "4") (Some "2025-01-01T00:00:00Z").

Definition simSessionWithFile : Session Sim.World :=
  mkSession
    (mkSt (client Sim.resolved) (Sim.mkWorld [Sim.papers] [simStoredFile]) []) [].

(** A service without any file. *)
Definition simSessionEmpty : Session Sim.World :=
  mkSession (mkSt (client Sim.resolved) (Sim.mkWorld [Sim.papers] []) []) [].

(** A model that is down. *)
Definition downSdk : Sdk Sim.World :=
  mkSdk
    (fun _ w => (Throw (TError "Error" "fetch failed" None), w))
    (fun _ w => (Throw (TError "Error" "fetch failed" None), w))
    (fun _ w => (Throw (TError "Error" "fetch failed" None), w)).

(** The parts of the prompt that [searchDocuments] sends for these files. *)
Definition searchParts (files : list RemoteFile) (query : string) : list Part :=
  (map filePart (firstn 10 files) ++ [Text (searchPrompt query)])%list.

(** The single result that [searchDocuments] makes of the model's answer. *)
Definition searchResultOf (file : RemoteFile) (responseText : string) : SearchResult :=
  mkSearchResult
    (if truthy (rf_name file) then rf_name file else "unknown")
    (or_else (rf_displayName file) "document")
    (substringTo 500 responseText)
    1 1 1 emptyMetadata.

(** The error of [getPassages] for a file that is unknown or has no URI. *)
Definition fileNotFound (docId : string) : MCPError :=
  mkMCPError FILE_NOT_FOUND ("File not found: " ++ docId) false None.

(* ====================================================================== *)
(** * Properties                                                           *)
(* ====================================================================== *)

(* ====================================================================== *)
(** ** The digest agrees with the published test vectors                   *)
(* ====================================================================== *)

Example sha256_empty :
  Sha256.hex_of_string EmptyString
  = "e3b0c44298fc1c149afbf4c8996fb92427ae41e4649b934ca495991b7852b855".
Proof. vm_compute. reflexivity. Qed.

Example sha256_abc :
  Sha256.hex_of_string "abc"
  = "ba7816bf8f01cfea414140de5dae2223b00361a396177a9cb410ff61f20015ad".
Proof. vm_compute. reflexivity. Qed.

Example sha256_two_blocks :
  Sha256.hex_of_string "abcdbcdecdefdefgefghfghighijhijkijkljklmklmnlmnomnopnopq"
  = "248d6a61d20638b8e5c026930c3e6039a33ce45964ff2167f6ecedd419db06c1".
Proof. vm_compute. reflexivity. Qed.

(* ====================================================================== *)
(** ** The unit tests of error-handler.ts, replayed on the model           *)
(* ====================================================================== *)

Example test_isRetryable_retryable_codes :
  map (fun c => isRetryable (TMCP (mkMCPError c "failed" false None)))
    [RATE_LIMITED; NETWORK_ERROR; INDEXING_TIMEOUT; API_ERROR]
  = [true; true; true; true].
Proof. reflexivity. Qed.

Example test_isRetryable_other_codes :
  map (fun c => isRetryable (TMCP (mkMCPError c "failed" false None)))
    [FILE_TOO_LARGE; INVALID_FILE_TYPE; FILE_NOT_FOUND; AUTH_FAILED]
  = [false; false; false; false].
Proof. reflexivity. Qed.

Example test_isRetryable_explicit_flag :
  isRetryable (TMCP (mkMCPError UPLOAD_FAILED "Upload failed" true None)) = true.
Proof. reflexivity. Qed.

Example test_isRetryable_status_codes :
  map (fun s => isRetryable (TObject (Some s))) [408; 429; 500; 502; 503; 504]
  = [true; true; true; true; true; true] /\
  map (fun s => isRetryable (TObject (Some s))) [400; 401; 403; 404]
  = [false; false; false; false].
Proof. split; reflexivity. Qed.

Example test_isRetryable_unknown_types :
  isRetryable (TString "string error") = false /\ isRetryable TOther = false.
Proof. split; reflexivity. Qed.

Example test_parseGeminiError_codes :
  map (fun m => let e := parseGeminiError (TError "Error" m None) in (code e, retryable e))
    ["File too large for upload"; "Invalid file format"; "Unsupported file type";
     "Rate limit exceeded"; "Quota exceeded";
     "Authentication failed"; "Unauthorized access"; "Invalid API key";
     "Store not found";
     "Network error occurred"; "Request timeout"; "ECONNREFUSED"; "ENOTFOUND";
     "Something went wrong"]
  = [(FILE_TOO_LARGE, false); (INVALID_FILE_TYPE, false); (INVALID_FILE_TYPE, false);
     (RATE_LIMITED, true); (RATE_LIMITED, true);
     (AUTH_FAILED, false); (AUTH_FAILED, false); (AUTH_FAILED, false);
     (STORE_NOT_FOUND, false);
     (NETWORK_ERROR, true); (NETWORK_ERROR, true); (NETWORK_ERROR, true);
     (NETWORK_ERROR, true);
     (API_ERROR, true)].
Proof. vm_compute. reflexivity. Qed.

Example test_parseGeminiError_not_an_error :
  parseGeminiError (TString "String error message")
  = mkMCPError UNKNOWN_ERROR "String error message" false None /\
  parseGeminiError (TObject None)
  = mkMCPError UNKNOWN_ERROR "Unknown error occurred" false None.
Proof. split; reflexivity. Qed.

Example test_parseGeminiError_details :
  details (parseGeminiError (TError "CustomError" "Test error" None))
  = Some [("original_error", "Test error"); ("name", "CustomError")].
Proof. reflexivity. Qed.

Example test_retry_succeeds_on_first_attempt :
  retryWithBackoff (spy_runtime Sim.idle) (spy (fun w : unit => (Ok 7%nat, w)))
    noOptions (0%nat, tt)
  = (Ok 7%nat, (1%nat, tt)).
Proof. reflexivity. Qed.

Example test_retry_then_success :
  retryWithBackoff (spy_runtime Sim.idle)
    (spy (Sim.failsOnce (TMCP (mkMCPError RATE_LIMITED "Rate limited" true None)) 7%nat))
    (mkRetryOptions None (Some [10; 20; 30]) None) (0%nat, false)
  = (Ok 7%nat, (2%nat, true)).
Proof. reflexivity. Qed.

Example test_retry_up_to_maxAttempts :
  retryWithBackoff (spy_runtime Sim.idle)
    (spy (Sim.alwaysFails (T:=nat)
            (TMCP (mkMCPError NETWORK_ERROR "Network error" true None))))
    (mkRetryOptions (Some 3) (Some [10; 20; 30]) None) (0%nat, tt)
  = (Throw (TMCP (mkMCPError NETWORK_ERROR "Network error" true None)), (3%nat, tt)).
Proof. reflexivity. Qed.

Example test_no_retry_on_not_retryable :
  retryWithBackoff (spy_runtime Sim.idle)
    (spy (Sim.alwaysFails (T:=nat)
            (TMCP (mkMCPError FILE_NOT_FOUND "Not found" false None))))
    (mkRetryOptions None (Some [10; 20; 30]) None) (0%nat, tt)
  = (Throw (TMCP (mkMCPError FILE_NOT_FOUND "Not found" false None)), (1%nat, tt)).
Proof. reflexivity. Qed.

(** The schedule of delays: an attempt past the end reuses the last entry,
    and an empty schedule falls back to one second. *)
Example baseDelayFor_schedule :
  map (baseDelayFor DEFAULT_DELAYS) [1; 2; 3; 4; 9] = [500; 1000; 2000; 2000; 2000] /\
  baseDelayFor [] 1 = 1000.
Proof. split; reflexivity. Qed.

(* ====================================================================== *)
(** ** The error classifier                                                *)
(* ====================================================================== *)

(** C8. Classification is idempotent: an [MCPError] is returned as it is
    (same code, message, retryable flag and details), so classifying the
    result of a classification changes nothing, whatever was classified. *)
Theorem parseGeminiError_idempotent :
  (forall e : MCPError, parseGeminiError (TMCP e) = e) /\
  (forall x : Thrown,
      parseGeminiError (TMCP (parseGeminiError x)) = parseGeminiError x).
Proof.
  split.
  - intros e. reflexivity.
  - intros x. destruct x; reflexivity.
Qed.

(** C7, as stated, fails: "File too large: quota exceeded" mentions a quota
    and is classified [FILE_TOO_LARGE], not retryable, because the size
    keywords are tested first. *)
Lemma rate_limit_claim_fails :
  includes (toLowerCase "File too large: quota exceeded") "quota" = true /\
  parseGeminiError (TError "Error" "File too large: quota exceeded" None)
  = mkMCPError FILE_TOO_LARGE "File too large: quota exceeded" false
      (Some [("original_error", "File too large: quota exceeded"); ("name", "Error")]) /\
  ~ rate_limit_claim.
Proof.
  split; [reflexivity|]. split; [reflexivity|].
  intros H.
  destruct (H "Error" "File too large: quota exceeded" None eq_refl) as [Hc _].
  vm_compute in Hc. discriminate Hc.
Qed.

(** C7, amended. For every [Error] that is not yet an [MCPError] and whose
    lower-cased message contains "rate limit" or "quota" and none of the
    keywords tested before them ("too large", "file size", "invalid file",
    "unsupported"), the classification is [RATE_LIMITED], retryable, with
    the original message kept. *)
Theorem parseGeminiError_rate_limited (name msg : string) (status : option Z) :
  orb (includes (toLowerCase msg) "rate limit")
      (includes (toLowerCase msg) "quota") = true ->
  includes (toLowerCase msg) "too large" = false ->
  includes (toLowerCase msg) "file size" = false ->
  includes (toLowerCase msg) "invalid file" = false ->
  includes (toLowerCase msg) "unsupported" = false ->
  parseGeminiError (TError name msg status)
  = mkMCPError RATE_LIMITED msg true (Some [("original_error", msg); ("name", name)]).
Proof.
  intros Hrl H1 H2 H3 H4.
  unfold parseGeminiError.
  rewrite H1, H2, H3, H4. simpl.
  rewrite Hrl. reflexivity.
Qed.

Lemma parseGeminiError_rate_limited_witness :
  parseGeminiError (TError "Error" "Rate Limit exceeded" (Some 429))
  = mkMCPError RATE_LIMITED "Rate Limit exceeded" true
      (Some [("original_error", "Rate Limit exceeded"); ("name", "Error")]).
Proof.
  apply (parseGeminiError_rate_limited "Error" "Rate Limit exceeded" (Some 429));
    reflexivity.
Defined.

(* ====================================================================== *)
(** ** The retry executor                                                  *)
(* ====================================================================== *)

Section RetryLoop.

Context {W T : Type} (rt : Runtime W) (fn : M W T).
Variables (n : Z) (ds : list Z) (obs : option (Z -> Thrown -> W -> W)).

(** The loop leaves through [throw lastError] exactly when its condition
    fails: more fuel than the number of iterations left changes nothing. *)
Lemma retry_loop_fuel (fuel : nat) :
  forall (attempt : Z) (lastError : Thrown) (w : W),
    (Z.to_nat (n - attempt + 1) <= fuel)%nat ->
    retry_loop rt fn n ds obs fuel attempt lastError w
    = retry_loop rt fn n ds obs (Z.to_nat (n - attempt + 1)) attempt lastError w.
Proof.
  induction fuel as [|fuel IH]; intros attempt lastError w Hle.
  - replace (Z.to_nat (n - attempt + 1)) with 0%nat by lia. reflexivity.
  - destruct (Z.leb_spec attempt n) as [Hin|Hout].
    + replace (Z.to_nat (n - attempt + 1))
        with (S (Z.to_nat (n - (attempt + 1) + 1))) in * by lia.
      simpl. apply Z.leb_le in Hin. rewrite Hin.
      unfold try_catch. destruct (fn w) as [[a|e] w1]; [reflexivity|].
      destruct (orb (attempt =? n) (negb (isRetryable e))); [reflexivity|].
      apply IH. lia.
    + replace (Z.to_nat (n - attempt + 1)) with 0%nat by lia.
      simpl. apply Z.leb_gt in Hout. rewrite Hout. reflexivity.
Qed.

(** A success ends the loop at once: no delay, no further attempt. *)
Lemma retry_loop_success (fuel : nat) (attempt : Z) (lastError : Thrown)
  (w w1 : W) (a : T) :
  attempt <= n ->
  fn w = (Ok a, w1) ->
  retry_loop rt fn n ds obs (S fuel) attempt lastError w = (Ok a, w1).
Proof.
  intros Hin Hfn. simpl. apply Z.leb_le in Hin. rewrite Hin.
  unfold try_catch. rewrite Hfn. reflexivity.
Qed.

(** A failure that [isRetryable] rejects ends the loop at once. *)
Lemma retry_loop_not_retryable (fuel : nat) (attempt : Z) (lastError : Thrown)
  (w w1 : W) (e : Thrown) :
  attempt <= n ->
  fn w = (Throw e, w1) ->
  isRetryable e = false ->
  retry_loop rt fn n ds obs (S fuel) attempt lastError w = (Throw e, w1).
Proof.
  intros Hin Hfn He. simpl. apply Z.leb_le in Hin. rewrite Hin.
  unfold try_catch. rewrite Hfn, He. rewrite orb_true_r. reflexivity.
Qed.

(** A retryable failure before the last attempt: back off, then go on. *)
Lemma retry_loop_retry (fuel : nat) (attempt : Z) (lastError : Thrown)
  (w w1 : W) (e : Thrown) :
  attempt < n ->
  fn w = (Throw e, w1) ->
  isRetryable e = true ->
  retry_loop rt fn n ds obs (S fuel) attempt lastError w
  = retry_loop rt fn n ds obs fuel (attempt + 1) e (backoff rt ds obs attempt e w1).
Proof.
  intros Hin Hfn He. simpl.
  assert (Hle : (attempt <=? n) = true) by (apply Z.leb_le; lia).
  assert (Hne : (attempt =? n) = false) by (apply Z.eqb_neq; lia).
  rewrite Hle. unfold try_catch. rewrite Hfn, He, Hne. reflexivity.
Qed.

(** The last attempt propagates its failure, retryable or not. *)
Lemma retry_loop_last (fuel : nat) (lastError : Thrown) (w w1 : W) (e : Thrown) :
  fn w = (Throw e, w1) ->
  retry_loop rt fn n ds obs (S fuel) n lastError w = (Throw e, w1).
Proof.
  intros Hfn. simpl. rewrite Z.leb_refl, Z.eqb_refl.
  unfold try_catch. rewrite Hfn. reflexivity.
Qed.

End RetryLoop.

Section Spy.

Context {W T : Type} (rt : Runtime W) (fn : M W T).

Lemma spy_call (c : nat) (w : W) :
  spy fn (c, w) = (fst (fn w), (S c, snd (fn w))).
Proof. unfold spy. destruct (fn w); reflexivity. Qed.

Lemma spy_backoff (options : RetryOptions W) (attempt : Z) (e : Thrown)
  (c : nat) (w : W) :
  backoff (spy_runtime rt) (delaysOf (spy_options options))
    (onRetry (spy_options options)) attempt e (c, w)
  = (c, backoff rt (delaysOf options) (onRetry options) attempt e w).
Proof.
  unfold backoff, spy_options, delaysOf. simpl.
  destruct (random rt w) as [r w1].
  destruct (onRetry options); reflexivity.
Qed.

(** With failures that are all retryable the loop runs the unit of work
    once per attempt left and hands over what the last run threw, in the
    world that run left behind. *)
Lemma retry_loop_always_retryable (options : RetryOptions W) :
  alwaysRetryable fn ->
  forall (fuel : nat) (attempt : Z) (lastError : Thrown) (c : nat) (w : W),
    attempt <= maxAttemptsOf options ->
    fuel = Z.to_nat (maxAttemptsOf options - attempt + 1) ->
    exists e w2 w3,
      fn w2 = (Throw e, w3) /\
      retry_loop (spy_runtime rt) (spy fn) (maxAttemptsOf (spy_options options))
        (delaysOf (spy_options options)) (onRetry (spy_options options))
        fuel attempt lastError (c, w)
      = (Throw e, ((c + fuel)%nat, w3)).
Proof.
  intros Hfn. induction fuel as [|fuel IH]; intros attempt lastError c w Hin Hfuel.
  - lia.
  - destruct (Hfn w) as (e & w1 & Hrun & Hretry).
    assert (Hspy : spy fn (c, w) = (Throw e, (S c, w1)))
      by (rewrite spy_call, Hrun; reflexivity).
    change (maxAttemptsOf (spy_options options)) with (maxAttemptsOf options).
    destruct (Z.eq_dec attempt (maxAttemptsOf options)) as [Heq|Hneq].
    + subst attempt. exists e, w, w1. split; [exact Hrun|].
      erewrite retry_loop_last; [|exact Hspy].
      replace fuel with 0%nat by lia. do 2 f_equal. lia.
    + erewrite retry_loop_retry; [|lia|exact Hspy|exact Hretry].
      rewrite spy_backoff.
      destruct (IH (attempt + 1) e (S c)
                  (backoff rt (delaysOf options) (onRetry options) attempt e w1)
                  ltac:(lia) ltac:(lia)) as (e' & w2 & w3 & Hlast & Hloop).
      exists e', w2, w3. split; [exact Hlast|].
      change (maxAttemptsOf (spy_options options)) with (maxAttemptsOf options) in Hloop.
      rewrite Hloop. do 2 f_equal. lia.
Qed.

End Spy.

(** What [isRetryable] makes of an [MCPError]: the flag or the code. *)
Lemma isRetryable_MCPError (e : MCPError) :
  isRetryable (TMCP e) = false <->
  retryable e = false /\ ~ In (code e) RETRYABLE_ERROR_CODES.
Proof.
  unfold isRetryable. rewrite orb_false_iff.
  assert (Hc : has_code RETRYABLE_ERROR_CODES (code e) = false
               <-> ~ In (code e) RETRYABLE_ERROR_CODES).
  { unfold RETRYABLE_ERROR_CODES.
    destruct (code e); simpl; split; intros H;
      solve [ reflexivity | discriminate H | exfalso; apply H; tauto
            | intuition discriminate ]. }
  rewrite Hc. reflexivity.
Qed.

(** C1, as stated, fails: an [MCPError] of code [API_ERROR] built with
    [retryable = false] is retried, because [isRetryable] also accepts the
    codes of [RETRYABLE_ERROR_CODES]; with [maxAttempts = 3] the unit of
    work runs three times. *)
Lemma no_retry_on_flag_claim_fails :
  retryable Sim.apiErrorNotRetryable = false /\
  retryWithBackoff (spy_runtime Sim.unitRuntime)
    (spy (Sim.alwaysFails (T:=nat) (TMCP Sim.apiErrorNotRetryable)))
    (spy_options (mkRetryOptions (Some 3) None None)) (0%nat, tt)
  = (Throw (TMCP Sim.apiErrorNotRetryable), (3%nat, tt)) /\
  ~ no_retry_on_flag_claim.
Proof.
  split; [reflexivity|]. split; [reflexivity|].
  intros H.
  destruct (H unit Sim.unitRuntime (Sim.alwaysFails (T:=nat) (TMCP Sim.apiErrorNotRetryable))
              (mkRetryOptions (Some 3) None None) tt tt Sim.apiErrorNotRetryable
              eq_refl eq_refl) as [w' Hw'].
  vm_compute in Hw'. discriminate Hw'.
Qed.

(** C1, amended. For every unit of work whose first failure [isRetryable]
    rejects (an [MCPError] with [retryable == false] and a code outside
    [RETRYABLE_ERROR_CODES], or any other value without a retryable HTTP
    status), and every [maxAttempts >= 1], [retryWithBackoff] runs the unit
    of work exactly once and throws that failure, in the world the single
    run left behind (no observer call, no sleep). *)
Theorem retryWithBackoff_not_retryable {W T : Type} (rt : Runtime W) (fn : M W T)
  (options : RetryOptions W) (w w1 : W) (e : Thrown) :
  1 <= maxAttemptsOf options ->
  fn w = (Throw e, w1) ->
  isRetryable e = false ->
  retryWithBackoff (spy_runtime rt) (spy fn) (spy_options options) (0%nat, w)
  = (Throw e, (1%nat, w1)).
Proof.
  intros Hmax Hfn He. unfold retryWithBackoff.
  change (maxAttemptsOf (spy_options options)) with (maxAttemptsOf options).
  destruct (Z.to_nat (maxAttemptsOf options)) as [|fuel] eqn:Hfuel; [lia|].
  apply retry_loop_not_retryable; [exact Hmax| |exact He].
  rewrite spy_call, Hfn. reflexivity.
Qed.

Lemma retryWithBackoff_not_retryable_witness :
  retryWithBackoff (spy_runtime Sim.unitRuntime)
    (spy (Sim.alwaysFails (T:=nat) (TMCP (mkMCPError FILE_NOT_FOUND "Not found" false None))))
    (spy_options (mkRetryOptions (Some 5) (Some [10; 20; 30]) None)) (0%nat, tt)
  = (Throw (TMCP (mkMCPError FILE_NOT_FOUND "Not found" false None)), (1%nat, tt)).
Proof.
  apply (retryWithBackoff_not_retryable Sim.unitRuntime
           (Sim.alwaysFails (T:=nat) (TMCP (mkMCPError FILE_NOT_FOUND "Not found" false None)))
           (mkRetryOptions (Some 5) (Some [10; 20; 30]) None) tt tt).
  - vm_compute. discriminate.
  - reflexivity.
  - reflexivity.
Defined.

(** C2, as stated, fails in its last part: the executor never classifies.
    A unit of work that always throws the raw object [{status: 503}] runs
    three times and the caller receives that raw object, not an [MCPError]. *)
Lemma propagates_classified_claim_fails :
  isRetryable Sim.serviceUnavailable = true /\
  retryWithBackoff (spy_runtime Sim.unitRuntime)
    (spy (Sim.alwaysFails (T:=nat) Sim.serviceUnavailable))
    (mkRetryOptions (Some 3) None None) (0%nat, tt)
  = (Throw (TObject (Some 503)), (3%nat, tt)) /\
  ~ propagates_classified_claim.
Proof.
  split; [reflexivity|]. split; [reflexivity|].
  intros H.
  destruct (H unit Sim.unitRuntime (Sim.alwaysFails (T:=nat) Sim.serviceUnavailable) tt)
    as (m & w' & Hrun).
  - intros w. exists Sim.serviceUnavailable, w. split; reflexivity.
  - vm_compute in Hrun. discriminate Hrun.
Qed.

(** C2, amended. For every unit of work that fails with a retryable error
    on every attempt, [retryWithBackoff] with [maxAttempts = 3] runs it
    exactly three times and throws, unchanged, the value the third run
    threw; that value is an [MCPError] only if the unit of work threw one.
    The classified error is what an enclosing [handleErrors] makes of it. *)
Theorem retryWithBackoff_three_attempts {W T : Type} (rt : Runtime W) (fn : M W T)
  (ds : option (list Z)) (obs : option (Z -> Thrown -> W -> W)) (w : W) :
  alwaysRetryable fn ->
  exists (e : Thrown) (w2 w3 : W),
    fn w2 = (Throw e, w3) /\
    isRetryable e = true /\
    retryWithBackoff (spy_runtime rt) (spy fn)
      (spy_options (mkRetryOptions (Some 3) ds obs)) (0%nat, w)
    = (Throw e, (3%nat, w3)) /\
    handleErrors
      (retryWithBackoff (spy_runtime rt) (spy fn)
         (spy_options (mkRetryOptions (Some 3) ds obs))) (0%nat, w)
    = (Throw (TMCP (parseGeminiError e)), (3%nat, w3)).
Proof.
  intros Hfn.
  destruct (retry_loop_always_retryable rt fn (mkRetryOptions (Some 3) ds obs) Hfn
              3%nat 1 TOther 0%nat w ltac:(vm_compute; discriminate) eq_refl)
    as (e & w2 & w3 & Hlast & Hloop).
  exists e, w2, w3. split; [exact Hlast|].
  split.
  - destruct (Hfn w2) as (e' & w' & Hrun & Hretry).
    rewrite Hrun in Hlast. inversion Hlast; subst. exact Hretry.
  - assert (Hrun : retryWithBackoff (spy_runtime rt) (spy fn)
                     (spy_options (mkRetryOptions (Some 3) ds obs)) (0%nat, w)
                   = (Throw e, (3%nat, w3))) by exact Hloop.
    split; [exact Hrun|].
    unfold handleErrors, try_catch. rewrite Hrun. reflexivity.
Qed.

Lemma retryWithBackoff_three_attempts_witness :
  exists (e : Thrown) (w2 w3 : unit),
    Sim.alwaysFails (T:=nat) Sim.serviceUnavailable w2 = (Throw e, w3) /\
    isRetryable e = true /\
    retryWithBackoff (spy_runtime Sim.unitRuntime)
      (spy (Sim.alwaysFails (T:=nat) Sim.serviceUnavailable))
      (spy_options (mkRetryOptions (Some 3) (Some [10; 20; 30]) None)) (0%nat, tt)
    = (Throw e, (3%nat, w3)) /\
    handleErrors
      (retryWithBackoff (spy_runtime Sim.unitRuntime)
         (spy (Sim.alwaysFails (T:=nat) Sim.serviceUnavailable))
         (spy_options (mkRetryOptions (Some 3) (Some [10; 20; 30]) None))) (0%nat, tt)
    = (Throw (TMCP (parseGeminiError e)), (3%nat, w3)).
Proof.
  apply (retryWithBackoff_three_attempts Sim.unitRuntime
           (Sim.alwaysFails (T:=nat) Sim.serviceUnavailable) (Some [10; 20; 30]) None tt).
  intros w. exists Sim.serviceUnavailable, w. split; reflexivity.
Defined.

(* ====================================================================== *)
(** ** The dedupe key                                                      *)
(* ====================================================================== *)

(** The serialisation reads the title and the doi and nothing else. *)
Lemma metaStr_title_doi (m1 m2 : DocumentMetadata) :
  title m1 = title m2 -> doi m1 = doi m2 ->
  metaStr (Some m1) = metaStr (Some m2).
Proof.
  intros Ht Hd. unfold metaStr. rewrite Ht, Hd. reflexivity.
Qed.

(** C4. Identical bytes give an identical content hash, and two metadata
    values that agree on title and doi give the same dedupe key for it:
    tags, authors, year and source_url have no part in the key. *)
Theorem generateDedupeKey_canonical (content1 content2 : list byte)
  (m1 m2 : DocumentMetadata) :
  content1 = content2 ->
  title m1 = title m2 ->
  doi m1 = doi m2 ->
  fileHash content1 = fileHash content2 /\
  generateDedupeKey (fileHash content1) (Some m1)
  = generateDedupeKey (fileHash content2) (Some m2).
Proof.
  intros Hc Ht Hd. subst content2. split; [reflexivity|].
  unfold generateDedupeKey, dedupeKeyInput.
  rewrite (metaStr_title_doi m1 m2 Ht Hd). reflexivity.
Qed.

Lemma generateDedupeKey_canonical_witness :
  fileHash [x25; x50; x44; x46] = fileHash [x25; x50; x44; x46] /\
  generateDedupeKey (fileHash [x25; x50; x44; x46])
    (Some (mkDocumentMetadata (Some "A") (Some ["Ada"]) (Some 1999) (Some "X")
             (Some ["t1"]) None))
  = generateDedupeKey (fileHash [x25; x50; x44; x46])
      (Some (mkDocumentMetadata (Some "A") None (Some 2024) (Some "X")
               (Some ["t2"]) (Some "https://example.org/a.pdf"))).
Proof.
  apply generateDedupeKey_canonical; reflexivity.
Defined.

(** The key of the empty file with title "A" and doi "X", as Node computes it. *)
Example generateDedupeKey_value :
  generateDedupeKey (fileHash [])
    (Some (mkDocumentMetadata (Some "A") None None (Some "X") (Some ["t1"]) None))
  = "abdc9de82c2d16260410d962ab8fca68e17cacf31d4c0a614df5b48767daccca".
Proof. vm_compute. reflexivity. Qed.

Lemma append_cancel_l (s a b : string) : s ++ a = s ++ b -> a = b.
Proof.
  induction s as [|c s IH]; simpl; intros H; [exact H|].
  inversion H. auto.
Qed.

(** Without a metadata object the digest is fed the content hash followed
    by nothing; with a metadata object that has neither title nor doi it is
    fed the content hash followed by the two characters of an empty JSON
    object. The two inputs differ for every content. *)
Lemma dedupeKeyInput_absent_vs_empty (content : list byte) (m : DocumentMetadata) :
  title m = None ->
  doi m = None ->
  dedupeKeyInput (fileHash content) None = fileHash content ++ EmptyString /\
  dedupeKeyInput (fileHash content) (Some m) = fileHash content ++ "{}" /\
  dedupeKeyInput (fileHash content) None <> dedupeKeyInput (fileHash content) (Some m).
Proof.
  intros Ht Hd.
  assert (Hsome : dedupeKeyInput (fileHash content) (Some m) = fileHash content ++ "{}").
  { unfold dedupeKeyInput, metaStr, Json.stringify_title_doi. rewrite Ht, Hd. reflexivity. }
  repeat split; [exact Hsome|].
  rewrite Hsome. unfold dedupeKeyInput, metaStr. intros H.
  apply append_cancel_l in H. discriminate H.
Qed.

(** Two equal keys would be a collision of SHA-256 on these two inputs.
    Whether there is a content with such a collision is not settled here. *)
Lemma generateDedupeKey_absent_vs_empty_collision (content : list byte)
  (m : DocumentMetadata) :
  title m = None ->
  doi m = None ->
  generateDedupeKey (fileHash content) None = generateDedupeKey (fileHash content) (Some m) ->
  ~ no_collision (dedupeKeyInput (fileHash content) None)
                 (dedupeKeyInput (fileHash content) (Some m)).
Proof.
  intros Ht Hd Hkeys Hnc.
  destruct (dedupeKeyInput_absent_vs_empty content m Ht Hd) as (_ & _ & Hdiff).
  apply Hdiff, Hnc. exact Hkeys.
Qed.

(** The two keys of the empty file, as Node computes them. *)
Example dedupe_keys_of_empty_file :
  generateDedupeKey (fileHash []) None
  = "cd372fb85148700fa88095e3492d3f9f5beb43e555e5ff26d95f5a6adc36f8e6" /\
  generateDedupeKey (fileHash []) (Some emptyMetadata)
  = "cd1bf2adfef93e8699e1777473a25f23bcfad0df58d694e834d76156b1311cef".
Proof. split; vm_compute; reflexivity. Qed.

(* ====================================================================== *)
(** ** Listing documents                                                   *)
(* ====================================================================== *)

(** For a page number and a page size of at least one, the [slice] of
    [listDocuments] drops the pages before and keeps one page. *)
Lemma js_slice_page {A : Type} (l : list A) (page pageSize : Z) :
  1 <= page -> 1 <= pageSize ->
  js_slice l ((page - 1) * pageSize) ((page - 1) * pageSize + pageSize)
  = firstn (Z.to_nat pageSize) (skipn (Z.to_nat ((page - 1) * pageSize)) l).
Proof.
  intros Hp Hs. unfold js_slice.
  set (startIdx := (page - 1) * pageSize).
  set (len := Z.of_nat (List.length l)).
  assert (Hstart : 0 <= startIdx) by (unfold startIdx; nia).
  assert (H1 : (startIdx <? 0) = false) by (apply Z.ltb_ge; lia).
  assert (H2 : (startIdx + pageSize <? 0) = false) by (apply Z.ltb_ge; lia).
  rewrite H1, H2.
  destruct (Z_le_gt_dec len startIdx) as [Hpast|Hin].
  - (* the page starts past the end *)
    rewrite (skipn_all2 (n := Z.to_nat (Z.min startIdx len))) by (unfold len in *; lia).
    rewrite (skipn_all2 (n := Z.to_nat startIdx)) by (unfold len in *; lia).
    rewrite !firstn_nil. reflexivity.
  - replace (Z.min startIdx len) with startIdx by lia.
    destruct (Z_le_gt_dec (startIdx + pageSize) len) as [Hfull|Hshort].
    + (* a full page *)
      replace (Z.min (startIdx + pageSize) len - startIdx) with pageSize by lia.
      reflexivity.
    + (* the last, shorter page *)
      rewrite !firstn_all2; [reflexivity| |];
        rewrite length_skipn; unfold len in *; lia.
Qed.

(** C9. For a page number [p >= 1] and a page size [s >= 1], and whenever
    the (retried) listing of the files succeeds, [listDocuments] succeeds with
    the documents at the indices [(p-1)*s] (inclusive) to [(p-1)*s + s]
    (exclusive) of the full converted list, and with the length of the full
    list as [totalCount]; a page that starts past the end is empty. *)
Theorem listDocuments_page {World : Type} (P : Platform World) (st st1 : St World)
  (page pageSize : Z) (files : option (list RemoteFile)) :
  1 <= page ->
  1 <= pageSize ->
  retryWithBackoff (stRuntime P) (remote ListFiles (sdk_listFiles P)) noOptions st
  = (Ok files, st1) ->
  let allDocuments := allDocumentsOf P (client st1) (world st1) files in
  let startIdx := Z.to_nat ((page - 1) * pageSize) in
  let pageDocuments := firstn (Z.to_nat pageSize) (skipn startIdx allDocuments) in
  listDocuments P page pageSize st
  = (Ok (mkDocumentPage pageDocuments (Z.of_nat (List.length allDocuments))), st1) /\
  (forall i : nat,
      nth_error pageDocuments i
      = if (i <? Z.to_nat pageSize)%nat then nth_error allDocuments (startIdx + i)
        else None) /\
  ((List.length allDocuments <= startIdx)%nat -> pageDocuments = []).
Proof.
  intros Hp Hs Hlist allDocuments startIdx pageDocuments.
  split; [|split].
  - unfold listDocuments, handleErrors, try_catch, bind.
    rewrite Hlist. simpl.
    fold allDocuments. rewrite js_slice_page by assumption. reflexivity.
  - intros i. unfold pageDocuments.
    rewrite nth_error_firstn, nth_error_skipn. reflexivity.
  - intros Hpast. unfold pageDocuments.
    rewrite skipn_all2 by exact Hpast. apply firstn_nil.
Qed.

Lemma listDocuments_page_witness :
  let allDocuments :=
    allDocumentsOf Sim.platform (client Sim.fresh) Sim.world0
      (Some (Sim.remoteFiles Sim.world0)) in
  let pageDocuments := firstn 2 (skipn 2 allDocuments) in
  listDocuments Sim.platform 2 2 Sim.fresh
  = (Ok (mkDocumentPage pageDocuments 5),
     mkSt (client Sim.fresh) Sim.world0 [ListFiles]) /\
  (forall i : nat,
      nth_error pageDocuments i
      = if (i <? 2)%nat then nth_error allDocuments (2 + i) else None) /\
  ((List.length allDocuments <= 2)%nat -> pageDocuments = []).
Proof.
  apply (listDocuments_page Sim.platform Sim.fresh
           (mkSt (client Sim.fresh) Sim.world0 [ListFiles]) 2 2
           (Some (Sim.remoteFiles Sim.world0))).
  - lia.
  - lia.
  - reflexivity.
Defined.

(** The third and fourth of five files make up page 2 of size 2, and page 4
    is empty and still a success. *)
Example listDocuments_pages_of_five :
  (exists d,
      fst (listDocuments Sim.platform 2 2 Sim.fresh) = Ok d /\
      map doc_id (documents d) = ["files/c"; "files/d"] /\ totalCount d = 5) /\
  fst (listDocuments Sim.platform 4 2 Sim.fresh) = Ok (mkDocumentPage [] 5).
Proof.
  split; [eexists; split; [reflexivity|split; reflexivity]|reflexivity].
Qed.

(* ====================================================================== *)
(** ** Sequencing                                                          *)
(* ====================================================================== *)

Section Sequencing.

Context {S A B : Type}.

Lemma bind_ok (m : M S A) (k : A -> M S B) (s s' : S) (a : A) :
  m s = (Ok a, s') -> bind m k s = k a s'.
Proof. intros H. unfold bind. rewrite H. reflexivity. Qed.

Lemma bind_throw (m : M S A) (k : A -> M S B) (s s' : S) (e : Thrown) :
  m s = (Throw e, s') -> bind m k s = (Throw e, s').
Proof. intros H. unfold bind. rewrite H. reflexivity. Qed.

Lemma handleErrors_ok (m : M S A) (s s' : S) (a : A) :
  m s = (Ok a, s') -> handleErrors m s = (Ok a, s').
Proof. intros H. unfold handleErrors, try_catch. rewrite H. reflexivity. Qed.

Lemma handleErrors_throw (m : M S A) (s s' : S) (e : Thrown) :
  m s = (Throw e, s') ->
  handleErrors m s = (Throw (TMCP (parseGeminiError e)), s').
Proof. intros H. unfold handleErrors, try_catch. rewrite H. reflexivity. Qed.

End Sequencing.

(* ====================================================================== *)
(** ** Explicit creation of a File Store                                   *)
(* ====================================================================== *)

Section Stores.

Context {World : Type} (P : Platform World).

(** Listing the stores sends one request and leaves the client as it was. *)
Lemma listFileStores_effect (pageSize : Z) (st : St World) :
  client (snd (listFileStores P pageSize st)) = client st /\
  calls (snd (listFileStores P pageSize st)) = (calls st ++ [ListStores pageSize])%list.
Proof.
  unfold listFileStores, handleErrors, try_catch, bind, getClient, remote, settled.
  destruct (fetch_listStores P pageSize (apiKey (client st)) (world st)) as [[r|e] w];
    simpl; [|split; reflexivity].
  destruct (negb (ok r)); simpl; [split; reflexivity|].
  destruct (body r); simpl; split; reflexivity.
Qed.

Lemma find_displayName_is (dn : string) (listed : list FileSearchStore)
  (existing : FileSearchStore) :
  find (displayName_is dn) listed = Some existing ->
  In existing listed /\ displayName existing = Some dn.
Proof.
  intros H. apply find_some in H. destruct H as [Hin Hdn]. split; [exact Hin|].
  unfold displayName_is in Hdn. destruct (displayName existing) as [d|]; [|discriminate].
  apply String.eqb_eq in Hdn. subst. reflexivity.
Qed.

End Stores.

(** C5, as stated, fails: the error for a taken display name has no detail
    map at all; the id of the existing store is part of the message. *)
Lemma duplicate_details_claim_fails :
  createFileStore Sim.platform (Some "papers") Sim.fresh
  = (Throw (TMCP (mkMCPError API_ERROR
                    (alreadyExistsMessage "papers" "fileSearchStores/abc123") false None)),
     mkSt (client Sim.fresh) Sim.world0 [ListStores 20]) /\
  ~ duplicate_details_claim.
Proof.
  split; [reflexivity|].
  intros H.
  destruct (H Sim.World Sim.platform Sim.fresh
              (mkSt (client Sim.fresh) Sim.world0 [ListStores 20])
              "papers" [Sim.papers] Sim.papers eq_refl eq_refl)
    as (e & Hrun & _ & (d & key & Hd & _) & _).
  vm_compute in Hrun. inversion Hrun; subst e. discriminate Hd.
Qed.

(** C5, amended. For every non-empty display name that the listing of the
    stores (one page of 20) shows on some store, [createFileStore] throws an
    [MCPError] of code [API_ERROR] with [retryable = false] and no details,
    whose message names the first such store's id; the listing is the only
    request it sends, so no store is created, and the client is unchanged. *)
Theorem createFileStore_existing {World : Type} (P : Platform World)
  (st st1 : St World) (dn : string) (listed : list FileSearchStore)
  (existing : FileSearchStore) :
  truthy dn = true ->
  listFileStores P 20 st = (Ok listed, st1) ->
  find (displayName_is dn) listed = Some existing ->
  displayName existing = Some dn /\
  createFileStore P (Some dn) st
  = (Throw (TMCP (mkMCPError API_ERROR (alreadyExistsMessage dn (name existing))
                    false None)), st1) /\
  client st1 = client st /\
  calls st1 = (calls st ++ [ListStores 20])%list.
Proof.
  intros Hdn Hlist Hfind.
  split; [exact (proj2 (find_displayName_is dn listed existing Hfind))|].
  split.
  - unfold createFileStore. rewrite Hdn.
    apply (handleErrors_throw _ st st1
             (TMCP (mkMCPError API_ERROR (alreadyExistsMessage dn (name existing))
                      false None))).
    unfold bind at 1. unfold getClient at 1.
    apply bind_throw. rewrite (bind_ok _ _ _ _ _ Hlist). rewrite Hfind. reflexivity.
  - pose proof (listFileStores_effect P 20 st) as [Hc Hl].
    rewrite Hlist in Hc, Hl. exact (conj Hc Hl).
Qed.

(** The flag of that error says not retryable; [isRetryable] goes by the
    code as well and would have the retry executor try again. *)
Example already_exists_error_isRetryable :
  retryable (mkMCPError API_ERROR (alreadyExistsMessage "papers" "fileSearchStores/abc123")
               false None) = false /\
  isRetryable (TMCP (mkMCPError API_ERROR
                       (alreadyExistsMessage "papers" "fileSearchStores/abc123")
                       false None)) = true.
Proof. split; reflexivity. Qed.

Lemma createFileStore_existing_witness :
  displayName Sim.papers = Some "papers" /\
  createFileStore Sim.platform (Some "papers") Sim.fresh
  = (Throw (TMCP (mkMCPError API_ERROR
                    (alreadyExistsMessage "papers" (name Sim.papers)) false None)),
     mkSt (client Sim.fresh) Sim.world0 [ListStores 20]) /\
  client (mkSt (client Sim.fresh) Sim.world0 [ListStores 20]) = client Sim.fresh /\
  calls (mkSt (client Sim.fresh) Sim.world0 [ListStores 20])
  = (calls Sim.fresh ++ [ListStores 20])%list.
Proof.
  apply (createFileStore_existing Sim.platform Sim.fresh
           (mkSt (client Sim.fresh) Sim.world0 [ListStores 20])
           "papers" [Sim.papers] Sim.papers); reflexivity.
Defined.

(* ====================================================================== *)
(** ** Adding a document from a path that does not exist                   *)
(* ====================================================================== *)

Section MissingFile.

Context {World : Type} (P : Platform World).

(** With a store id in place the opening statements of [uploadDocument]
    and [ensureFileStore] do nothing. *)
Lemma ensureStoreId_cached (st : St World) (id : string) :
  storeId (client st) = Some id ->
  truthy id = true ->
  ensureStoreId P st = (Ok id, st).
Proof.
  intros Hid Ht. unfold ensureStoreId, bind, getClient.
  unfold truthy_opt, or_else. rewrite Hid, Ht. reflexivity.
Qed.

(** A local path that cannot be accessed: [FILE_NOT_FOUND], nothing sent. *)
Lemma ensureLocalFile_missing (st : St World) (source : string) (e : Thrown)
  (w' : World) :
  startsWith source "http://" = false ->
  startsWith source "https://" = false ->
  fs_access P source (world st) = (Throw e, w') ->
  ensureLocalFile P source st
  = (Throw (TMCP (mkMCPError FILE_NOT_FOUND ("File not found: " ++ source) false None)),
     mkSt (client st) w' (calls st)).
Proof.
  intros H1 H2 Hacc. unfold ensureLocalFile. rewrite H1, H2. simpl.
  unfold try_catch, bind, local. rewrite Hacc. reflexivity.
Qed.

End MissingFile.

(** C6, as stated, fails: a fresh process has no store id yet, and
    [uploadDocument] resolves it, with a list-stores request, before it
    looks at the path. *)
Lemma missing_file_claim_fails :
  addDocument Sim.platform "/no/such/file" None Sim.fresh
  = (Throw (TMCP (mkMCPError FILE_NOT_FOUND "File not found: /no/such/file" false None)),
     mkSt (mkClient "key" (Some "fileSearchStores/abc123") (Some "papers"))
       Sim.world0 [ListStores 20]) /\
  ~ missing_file_claim.
Proof.
  split; [reflexivity|].
  intros H.
  destruct (H Sim.World Sim.platform Sim.fresh "/no/such/file" None eq_refl eq_refl)
    as (m & _ & _ & _ & Hcalls).
  - intros w.
    exists (TError "Error" "ENOENT: no such file or directory, open /no/such/file" None), w.
    reflexivity.
  - vm_compute in Hcalls. discriminate Hcalls.
Qed.

(* ====================================================================== *)
(** ** Which requests an operation can send                                *)
(* ====================================================================== *)

Section Footprint.

Context {World : Type}.

(** [allowed] says which requests may be sent; [inv] is a property of the
    client object that is to be kept. *)
Variable allowed : RemoteCall -> Prop.
Variable inv : Client -> Prop.

Lemma grows_refl (st : St World) : grows allowed st st.
Proof. exists []. split; [symmetry; apply app_nil_r|constructor]. Qed.

Lemma grows_trans (st1 st2 st3 : St World) :
  grows allowed st1 st2 -> grows allowed st2 st3 -> grows allowed st1 st3.
Proof.
  intros (l1 & H1 & F1) (l2 & H2 & F2). exists (l1 ++ l2)%list. split.
  - rewrite H2, H1, app_assoc. reflexivity.
  - apply Forall_app. split; assumption.
Qed.

Lemma keeps_ret {A} (a : A) : keeps allowed inv (ret a : M (St World) A).
Proof. intros st Hi. split; [exact Hi|apply grows_refl]. Qed.

Lemma keeps_throw {A} (e : Thrown) : keeps allowed inv (throw e : M (St World) A).
Proof. intros st Hi. split; [exact Hi|apply grows_refl]. Qed.

Lemma keeps_settled {A} (r : Res A) : keeps allowed inv (settled r : M (St World) A).
Proof. intros st Hi. split; [exact Hi|apply grows_refl]. Qed.

Lemma keeps_getClient : keeps allowed inv (getClient : M (St World) Client).
Proof. intros st Hi. split; [exact Hi|apply grows_refl]. Qed.

Lemma keeps_getWorld : keeps allowed inv (getWorld : M (St World) World).
Proof. intros st Hi. split; [exact Hi|apply grows_refl]. Qed.

Lemma keeps_local {A} (op : M World A) : keeps allowed inv (local op).
Proof.
  intros st Hi. unfold local. destruct (op (world st)) as [r w]. simpl.
  split; [exact Hi|]. exists []. split; [symmetry; apply app_nil_r|constructor].
Qed.

Lemma keeps_remote {A} (c : RemoteCall) (op : M World A) :
  allowed c -> keeps allowed inv (remote c op).
Proof.
  intros Hc st Hi. unfold remote. destruct (op (world st)) as [r w]. simpl.
  split; [exact Hi|]. exists [c]. split; [reflexivity|]. constructor; [exact Hc|constructor].
Qed.

Lemma keeps_bind {A B} (m : M (St World) A) (k : A -> M (St World) B) :
  keeps allowed inv m -> (forall a, keeps allowed inv (k a)) -> keeps allowed inv (bind m k).
Proof.
  intros Hm Hk st Hi. destruct (Hm st Hi) as [Hi1 Hg1].
  unfold bind. simpl in *. destruct (m st) as [[a|e] st1]; simpl in *.
  - destruct (Hk a st1 Hi1) as [Hi2 Hg2]. split; [exact Hi2|].
    eapply grows_trans; eassumption.
  - split; assumption.
Qed.

Lemma keeps_try_catch {A} (m : M (St World) A) (h : Thrown -> M (St World) A) :
  keeps allowed inv m -> (forall e, keeps allowed inv (h e)) -> keeps allowed inv (try_catch m h).
Proof.
  intros Hm Hh st Hi. destruct (Hm st Hi) as [Hi1 Hg1].
  unfold try_catch. simpl in *. destruct (m st) as [[a|e] st1]; simpl in *.
  - split; assumption.
  - destruct (Hh e st1 Hi1) as [Hi2 Hg2]. split; [exact Hi2|].
    eapply grows_trans; eassumption.
Qed.

Lemma keeps_handleErrors {A} (m : M (St World) A) :
  keeps allowed inv m -> keeps allowed inv (handleErrors m).
Proof.
  intros Hm. unfold handleErrors. apply keeps_try_catch; [exact Hm|].
  intros e. apply keeps_throw.
Qed.

(** A computation run after a state change. *)
Lemma keeps_after {A} (t : St World -> St World) (m : M (St World) A) :
  keepsStep allowed inv t -> keeps allowed inv m -> keeps allowed inv (fun st => m (t st)).
Proof.
  intros Ht Hm st Hi. destruct (Ht st Hi) as [Hi1 Hg1].
  destruct (Hm (t st) Hi1) as [Hi2 Hg2]. split; [exact Hi2|].
  eapply grows_trans; eassumption.
Qed.

Variable P : Platform World.

(** Drawing the jitter, calling a well-behaved observer and sleeping. *)
Lemma keepsStep_backoff (ds : list Z) (obs : option (Z -> Thrown -> St World -> St World))
  (attempt : Z) (e : Thrown) :
  (forall f, obs = Some f -> forall a e', keepsStep allowed inv (f a e')) ->
  keepsStep allowed inv (backoff (stRuntime P) ds obs attempt e).
Proof.
  intros Hobs st Hi. unfold backoff, stRuntime. simpl.
  destruct (random (runtime P) (world st)) as [r w1].
  set (st1 := mkSt (client st) w1 (calls st)).
  assert (H1 : inv (client st1) /\ grows allowed st st1).
  { split; [exact Hi|]. exists []. split; [symmetry; apply app_nil_r|constructor]. }
  destruct obs as [f|].
  - destruct (Hobs f eq_refl attempt e st1 (proj1 H1)) as [Hi2 Hg2].
    simpl. split; [exact Hi2|].
    destruct Hg2 as (l & Hl & Fl). exists l. simpl in *. split; assumption.
  - simpl. exact H1.
Qed.

(** The retry executor sends what the unit of work sends, nothing else. *)
Lemma keeps_retryWithBackoff {A} (fn : M (St World) A) (options : RetryOptions (St World)) :
  keeps allowed inv fn ->
  (forall f, onRetry options = Some f -> forall a e, keepsStep allowed inv (f a e)) ->
  keeps allowed inv (retryWithBackoff (stRuntime P) fn options).
Proof.
  intros Hfn Hobs. unfold retryWithBackoff.
  generalize (Z.to_nat (maxAttemptsOf options)) as fuel.
  generalize 1 as attempt. generalize TOther as lastError.
  intros lastError attempt fuel. revert attempt lastError.
  induction fuel as [|fuel IH]; intros attempt lastError; simpl.
  - apply keeps_throw.
  - destruct (attempt <=? maxAttemptsOf options); [|apply keeps_throw].
    apply keeps_try_catch; [exact Hfn|]. intros e.
    destruct (orb (attempt =? maxAttemptsOf options) (negb (isRetryable e)));
      [apply keeps_throw|].
    apply (keeps_after (backoff (stRuntime P) (delaysOf options) (onRetry options) attempt e)).
    + apply keepsStep_backoff. exact Hobs.
    + apply IH.
Qed.

End Footprint.

(* ====================================================================== *)
(** ** The requests of the operations that do not resolve                  *)
(* ====================================================================== *)

(** Breaks a computation of the client into its awaited steps. *)
Ltac footprint_step :=
  first
    [ apply keeps_handleErrors
    | apply keeps_retryWithBackoff
    | apply keeps_bind
    | apply keeps_try_catch
    | apply keeps_ret
    | apply keeps_throw
    | apply keeps_settled
    | apply keeps_getClient
    | apply keeps_getWorld
    | apply keeps_local
    | apply keeps_remote;
      first [ reflexivity
            | exact I
            | match goal with
              | H : forall c, notResolution c -> _ |- _ => apply H; reflexivity
              end ]
    | match goal with
      | |- forall _, _ => intro
      | |- keeps _ _ (if ?b then _ else _) => destruct b
      | |- keeps _ _ (match ?x with _ => _ end) => destruct x
      end ].

Ltac footprint := repeat footprint_step.

Section Operations.

Context {World : Type} (P : Platform World).
Variable allowed : RemoteCall -> Prop.
Variable inv : Client -> Prop.

(** Everything but list-stores and create-store is allowed. *)
Hypothesis allowed_other : forall c, notResolution c -> allowed c.

Lemma keeps_checkFileStoreExists (sid : string) :
  keeps allowed inv (checkFileStoreExists P sid).
Proof. unfold checkFileStoreExists. footprint. Qed.

Lemma keeps_extractFileName (url : string) (contentType : option string) :
  keeps allowed inv (extractFileName P url contentType).
Proof. unfold extractFileName. footprint. Qed.

Lemma keeps_downloadFile (url : string) : keeps allowed inv (downloadFile P url).
Proof.
  unfold downloadFile.
  apply keeps_handleErrors. apply keeps_bind; [footprint|]. intros response.
  destruct (negb (ok response)); [footprint|].
  apply keeps_bind; [footprint|]. intros tempDir.
  apply keeps_bind; [apply keeps_extractFileName|]. footprint.
Qed.

Lemma keeps_ensureLocalFile (source : string) :
  keeps allowed inv (ensureLocalFile P source).
Proof.
  unfold ensureLocalFile.
  destruct (orb (startsWith source "http://") (startsWith source "https://")).
  - apply keeps_downloadFile.
  - footprint.
Qed.

Lemma keeps_calculateFileHash (filePath : string) :
  keeps allowed inv (calculateFileHash P filePath).
Proof. unfold calculateFileHash. footprint. Qed.

Lemma keeps_listDocuments (page pageSize : Z) :
  keeps allowed inv (listDocuments P page pageSize).
Proof.
  unfold listDocuments.
  apply keeps_handleErrors. apply keeps_bind.
  - apply keeps_retryWithBackoff; [footprint|]. intros f Hf. discriminate Hf.
  - footprint.
Qed.

(** The operations that start by making sure of the store id send what
    that step sends, and nothing else that resolves. *)
Hypothesis keeps_ensureStoreId : keeps allowed inv (ensureStoreId P).

Lemma keeps_ensureFileStore : keeps allowed inv (ensureFileStore P).
Proof.
  unfold ensureFileStore.
  apply keeps_bind; [apply keeps_ensureStoreId|]. intros sid.
  apply keeps_bind; [apply keeps_checkFileStoreExists|]. footprint.
Qed.

Lemma keeps_uploadDocument (source : string) (metadata : option DocumentMetadata) :
  keeps allowed inv (uploadDocument P source metadata).
Proof.
  unfold uploadDocument.
  apply keeps_handleErrors.
  apply keeps_bind; [apply keeps_ensureStoreId|]. intros _.
  apply keeps_bind; [apply keeps_ensureLocalFile|]. intros localPath.
  apply keeps_bind; [apply keeps_calculateFileHash|]. intros h.
  apply keeps_bind; [footprint|]. intros sizeBytes.
  apply keeps_bind.
  - apply keeps_retryWithBackoff; [footprint|].
    intros f Hf. inversion Hf; subst f. intros a e st Hi.
    split; [exact Hi|apply grows_refl].
  - footprint.
Qed.

Lemma keeps_addDocument (source : string) (metadata : option DocumentMetadata) :
  keeps allowed inv (addDocument P source metadata).
Proof.
  unfold addDocument.
  apply keeps_handleErrors.
  apply keeps_bind; [apply keeps_uploadDocument|]. footprint.
Qed.

Lemma keeps_runOperation (o : Operation) :
  keepsStep allowed inv (runOperation P o).
Proof.
  destruct o; simpl.
  - apply keeps_uploadDocument.
  - apply keeps_addDocument.
  - apply keeps_ensureFileStore.
  - apply keeps_listDocuments.
Qed.

Lemma keeps_runOperations (ops : list Operation) :
  keepsStep allowed inv (runOperations P ops).
Proof.
  induction ops as [|o ops IH]; intros st Hi; simpl.
  - split; [exact Hi|apply grows_refl].
  - destruct (keeps_runOperation o st Hi) as [Hi1 Hg1].
    destruct (IH (runOperation P o st) Hi1) as [Hi2 Hg2].
    split; [exact Hi2|]. eapply grows_trans; eassumption.
Qed.

End Operations.

(* ====================================================================== *)
(** ** The store id is resolved once                                       *)
(* ====================================================================== *)

(** On a client that holds the id, making sure of the store id sends
    nothing and changes nothing. *)
Lemma keeps_ensureStoreId_cached {World : Type} (P : Platform World) (c : Client)
  (id : string) :
  storeId c = Some id ->
  truthy id = true ->
  keeps notResolution (sameClient c) (ensureStoreId P).
Proof.
  intros Hid Htruthy st Hi. unfold sameClient in Hi.
  rewrite (ensureStoreId_cached P st id) by (try rewrite Hi; assumption).
  split; [exact Hi|apply grows_refl].
Qed.

(** The first resolution stores what it found: when no id is held, a name
    is configured and [resolveStoreByDisplayName] returns [id], the opening
    statements of [uploadDocument] and [ensureFileStore] leave [id] in
    [this.storeId]. *)
Lemma ensureStoreId_resolves {World : Type} (P : Platform World) (st st1 : St World)
  (sn id : string) :
  truthy_opt (storeId (client st)) = false ->
  storeName (client st) = Some sn ->
  truthy sn = true ->
  resolveStoreByDisplayName P sn st = (Ok id, st1) ->
  ensureStoreId P st
  = (Ok id, mkSt (mkClient (apiKey (client st1)) (Some id) (storeName (client st1)))
              (world st1) (calls st1)).
Proof.
  intros Hnone Hsn Ht Hres. unfold ensureStoreId, bind at 1, getClient at 1.
  rewrite Hnone, Hsn, Ht.
  rewrite (bind_ok _ _ _ _ _ Hres). reflexivity.
Qed.

(** Once the client holds a store id (a non-empty string, as the service
    issues them), every later run of [uploadDocument], [addDocument],
    [ensureFileStore] or [listDocuments], in any number and order and
    whether it succeeds or fails, leaves the client object as it is and
    sends neither a list-stores nor a create-store request. *)
Lemma held_store_id_kept {World : Type} (P : Platform World) (st : St World)
  (id : string) (ops : list Operation) :
  storeId (client st) = Some id ->
  truthy id = true ->
  client (runOperations P ops st) = client st /\
  storeId (client (runOperations P ops st)) = Some id /\
  exists sent : list RemoteCall,
    calls (runOperations P ops st) = (calls st ++ sent)%list /\
    Forall (fun c => isResolutionCall c = false) sent.
Proof.
  intros Hid Ht.
  destruct (keeps_runOperations P notResolution (sameClient (client st))
              (fun c H => H) (keeps_ensureStoreId_cached P (client st) id Hid Ht)
              ops st eq_refl) as [Hc Hg].
  unfold sameClient in Hc. split; [exact Hc|]. split; [rewrite Hc; exact Hid|].
  exact Hg.
Qed.

(** An operation that finds the id missing and resolves it goes on as if
    it had been called with the id in place. *)
Lemma runOperation_after_resolution {World : Type} (P : Platform World)
  (st resolved : St World) (id : string) (o : Operation) :
  needsStoreId o = true ->
  ensureStoreId P st = (Ok id, resolved) ->
  ensureStoreId P resolved = (Ok id, resolved) ->
  runOperation P o st = runOperation P o resolved.
Proof.
  intros Hneeds Hfirst Hagain.
  assert (Hbind : forall (B : Type) (k : string -> M (St World) B),
             bind (ensureStoreId P) k st = bind (ensureStoreId P) k resolved).
  { intros B k. unfold bind. rewrite Hfirst, Hagain. reflexivity. }
  assert (Hupload : forall source metadata,
             uploadDocument P source metadata st = uploadDocument P source metadata resolved).
  { intros source metadata. unfold uploadDocument, handleErrors, try_catch.
    rewrite Hbind. reflexivity. }
  destruct o as [source metadata|source metadata| |page pageSize];
    cbn [runOperation]; try discriminate Hneeds.
  - rewrite Hupload. reflexivity.
  - unfold addDocument, handleErrors, try_catch, bind. rewrite Hupload. reflexivity.
  - unfold ensureFileStore. rewrite Hbind. reflexivity.
Qed.

(* ---------------------------------------------------------------------- *)
(** *** Operations one after another and operations that overlap           *)

Section Runs.

Context {S : Type}.

Lemma runs_aret {A} (a : A) : runs (aret a : Async S A) (ret a).
Proof. intros s. reflexivity. Qed.

Lemma runs_athrow {A} (e : Thrown) : runs (athrow e : Async S A) (throw e).
Proof. intros s. reflexivity. Qed.

Lemma runs_now {A} (m : M S A) : runs (now m) m.
Proof. intros s. cbn. destruct (m s); reflexivity. Qed.

Lemma runs_await {A} (m : M S A) : runs (await m) m.
Proof. intros s. cbn. destruct (m s); reflexivity. Qed.

Lemma runs_abind {A B} (t : Async S A) (k : A -> Async S B) (m : M S A)
  (k' : A -> M S B) :
  runs t m -> (forall a, runs (k a) (k' a)) -> runs (abind t k) (bind m k').
Proof.
  intros Ht Hk s. unfold bind. rewrite <- (Ht s). clear Ht m. revert s.
  induction t as [r|B0 m c IH|B0 m c IH]; intros s.
  - destruct r as [a|e]; cbn; [apply Hk|reflexivity].
  - cbn. destruct (m s) as [r s']. apply IH.
  - cbn. destruct (m s) as [r s']. apply IH.
Qed.

Lemma runs_acatch {A} (t : Async S A) (h : Thrown -> Async S A) (m : M S A)
  (h' : Thrown -> M S A) :
  runs t m -> (forall e, runs (h e) (h' e)) -> runs (acatch t h) (try_catch m h').
Proof.
  intros Ht Hh s. unfold try_catch. rewrite <- (Ht s). clear Ht m. revert s.
  induction t as [r|B0 m c IH|B0 m c IH]; intros s.
  - destruct r as [a|e]; cbn; [reflexivity|apply Hh].
  - cbn. destruct (m s) as [r s']. apply IH.
  - cbn. destruct (m s) as [r s']. apply IH.
Qed.

Lemma runs_ahandleErrors {A} (t : Async S A) (m : M S A) :
  runs t m -> runs (ahandleErrors t) (handleErrors m).
Proof.
  intros Ht. apply runs_acatch; [exact Ht|]. intros e. apply runs_athrow.
Qed.

(** An [await] of something that is there already. *)
Lemma runs_await_ret {A B} (a : A) (k : A -> Async S B) (m : M S B) :
  runs (k a) m -> runs (abind (await (ret a)) k) m.
Proof. intros Hk s. cbn. apply Hk. Qed.

(** A turn changes nothing in what the operation comes to when it is left
    to run. *)
Lemma settle_complete {A} (t : Async S A) (s : S) :
  complete (fst (settle t s)) (snd (settle t s)) = complete t s.
Proof.
  revert s. induction t as [r|B0 m c IH|B0 m c IH]; intros s; cbn; try reflexivity.
  destruct (m s) as [r s']. apply IH.
Qed.

Lemma advance_complete {A} (t : Async S A) (s : S) :
  complete (fst (advance t s)) (snd (advance t s)) = complete t s.
Proof.
  destruct t as [r|B0 m c|B0 m c].
  - reflexivity.
  - apply (settle_complete (Now m c)).
  - cbn. destruct (m s) as [r s']. apply settle_complete.
Qed.

Lemma overlapped_app {A} (l1 l2 : list bool) (a b : Async S A) (s : S) :
  let o1 := overlapped l1 a b s in
  let o2 := overlapped l2 (firstOp o1) (secondOp o1) (finalState o1) in
  firstOp (overlapped (l1 ++ l2) a b s) = firstOp o2 /\
  secondOp (overlapped (l1 ++ l2) a b s) = secondOp o2 /\
  finalState (overlapped (l1 ++ l2) a b s) = finalState o2.
Proof.
  revert a b s. induction l1 as [|[|] l1 IH]; intros a b s; cbn.
  - repeat split.
  - destruct (advance a s) as [a' s']. cbn. apply IH.
  - destruct (advance b s) as [b' s']. cbn. apply IH.
Qed.

Lemma turns_of_one {A} (who : bool) (n : nat) (a b : Async S A) (s : S) :
  let o := overlapped (repeat who n) a b s in
  if who then secondOp o = b /\ complete (firstOp o) (finalState o) = complete a s
  else firstOp o = a /\ complete (secondOp o) (finalState o) = complete b s.
Proof.
  revert a b s. induction n as [|n IH]; intros a b s.
  - destruct who; cbn; split; reflexivity.
  - destruct who; cbn [repeat overlapped].
    + pose proof (advance_complete a s) as Hadv.
      destruct (advance a s) as [a' s']. cbn [firstOp secondOp finalState fst snd] in *.
      specialize (IH a' b s'). cbn in IH. destruct IH as [Hb Ha].
      split; [exact Hb|]. rewrite Ha. exact Hadv.
    + pose proof (advance_complete b s) as Hadv.
      destruct (advance b s) as [b' s']. cbn [firstOp secondOp finalState fst snd] in *.
      specialize (IH a b' s'). cbn in IH. destruct IH as [Ha Hb].
      split; [exact Ha|]. rewrite Hb. exact Hadv.
Qed.

Lemma returned_complete {A} (t : Async S A) (s : S) :
  returned t = true -> snd (complete t s) = s.
Proof.
  destruct t as [[a|e]|B0 m c|B0 m c]; cbn; intros H; try discriminate H. reflexivity.
Qed.

(** Two operations of which the second is called when the first has
    returned: the process ends in the state that the one and then the
    other, each run in one piece, leave. *)
Lemma one_after_another {A} (n m : nat) (a b : Async S A) (s : S) :
  let run := overlapped (repeat true n ++ repeat false m) a b s in
  returned (firstOp run) = true ->
  returned (secondOp run) = true ->
  finalState run = snd (complete b (snd (complete a s))).
Proof.
  intros run Ha Hb. subst run.
  destruct (overlapped_app (repeat true n) (repeat false m) a b s) as (H1 & H2 & H3).
  rewrite H1 in Ha. rewrite H2 in Hb. rewrite H3. clear H1 H2 H3.
  pose proof (turns_of_one true n a b s) as Hfirst. cbn in Hfirst.
  destruct Hfirst as [Hsecond Hfirst].
  set (o1 := overlapped (repeat true n) a b s) in *.
  pose proof (turns_of_one false m (firstOp o1) (secondOp o1) (finalState o1)) as Hturn.
  cbn in Hturn. destruct Hturn as [Hkept Hdone].
  set (o2 := overlapped (repeat false m) (firstOp o1) (secondOp o1) (finalState o1)) in *.
  rewrite Hkept in Ha.
  rewrite <- Hfirst. rewrite (returned_complete _ _ Ha).
  rewrite <- Hsecond, <- Hdone. rewrite (returned_complete _ _ Hb). reflexivity.
Qed.

End Runs.

Section RunsClient.

Context {World : Type} (P : Platform World).

Lemma runs_request {A} (c : RemoteCall) (op : M World A) :
  runs (request c op) (remote c op).
Proof.
  intros st. unfold request, remote, local, logCall. cbn.
  destruct (op (world st)) as [r w]. reflexivity.
Qed.

Ltac runs_step :=
  match goal with
  | |- forall _, _ => intro
  | |- runs (ahandleErrors _) (handleErrors _) => apply runs_ahandleErrors
  | |- runs (abind (await (ret _)) _) _ => apply runs_await_ret
  | |- runs (abind _ _) (bind _ _) => apply runs_abind
  | |- runs (aret _) _ => apply runs_aret
  | |- runs (athrow _) _ => apply runs_athrow
  | |- runs (now _) _ => apply runs_now
  | |- runs (await _) _ => apply runs_await
  | |- runs (request _ _) _ => apply runs_request
  | |- runs (if ?b then _ else _) _ => destruct b
  | |- runs (match ?x with _ => _ end) _ => destruct x
  end.

Lemma runs_listFileStores (pageSize : Z) :
  runs (listFileStoresA P pageSize) (listFileStores P pageSize).
Proof. unfold listFileStoresA, listFileStores. repeat runs_step. Qed.

Lemma runs_createFileStore (displayName : option string) :
  runs (createFileStoreA P displayName) (createFileStore P displayName).
Proof.
  unfold createFileStoreA, createFileStore.
  apply runs_ahandleErrors. apply runs_abind; [apply runs_now|]. intros c.
  apply runs_abind.
  - destruct displayName as [dn|]; [|apply runs_aret].
    destruct (truthy dn); [|apply runs_aret].
    apply runs_abind; [apply runs_listFileStores|]. repeat runs_step.
  - repeat runs_step.
Qed.

Lemma runs_resolveStoreByDisplayName (displayName : string) :
  runs (resolveStoreByDisplayNameA P displayName) (resolveStoreByDisplayName P displayName).
Proof.
  unfold resolveStoreByDisplayNameA, resolveStoreByDisplayName.
  apply runs_ahandleErrors. apply runs_abind; [apply runs_listFileStores|].
  intros stores. destruct (find (displayName_is displayName) stores).
  - apply runs_aret.
  - apply runs_createFileStore.
Qed.

Lemma runs_checkFileStoreExists (storeId : string) :
  runs (checkFileStoreExistsA P storeId) (checkFileStoreExists P storeId).
Proof. unfold checkFileStoreExistsA, checkFileStoreExists. repeat runs_step. Qed.

Lemma runs_ensureStoreId : runs (ensureStoreIdA P) (ensureStoreId P).
Proof.
  unfold ensureStoreIdA, ensureStoreId.
  apply runs_abind; [apply runs_now|]. intros c.
  destruct (truthy_opt (storeId c)); [apply runs_aret|].
  destruct (storeName c) as [sn|]; [|apply runs_athrow].
  destruct (truthy sn); [|apply runs_athrow].
  apply runs_abind; [apply runs_resolveStoreByDisplayName|]. repeat runs_step.
Qed.

Lemma runs_ensureFileStore : runs (ensureFileStoreA P) (ensureFileStore P).
Proof.
  unfold ensureFileStoreA, ensureFileStore.
  apply runs_abind; [apply runs_ensureStoreId|]. intros id.
  apply runs_abind; [apply runs_checkFileStoreExists|]. repeat runs_step.
Qed.

Lemma runs_uploadDocument (source : string) (metadata : option DocumentMetadata) :
  runs (uploadDocumentA P source metadata) (uploadDocument P source metadata).
Proof.
  unfold uploadDocumentA.
  change (uploadDocument P source metadata)
    with (handleErrors (bind (ensureStoreId P)
                          (fun _ => uploadWithStoreId P source metadata))).
  apply runs_ahandleErrors. apply runs_abind; [apply runs_ensureStoreId|].
  intros _. apply runs_await.
Qed.

(** Left to run in one piece, the add-document call in which the awaits
    are marked is the [addDocument] of the tool. *)
Lemma runs_addDocument (source : string) (metadata : option DocumentMetadata) :
  runs (addDocumentA P source metadata) (addDocument P source metadata).
Proof.
  unfold addDocumentA, addDocument.
  apply runs_ahandleErrors. apply runs_abind; [apply runs_uploadDocument|].
  intros document. apply runs_aret.
Qed.

(** Two add-document calls of which the second starts when the first has
    returned are [runOperations] on the two. *)
Lemma addDocument_one_after_another (n m : nat) (st : St World)
  (source1 source2 : string) (metadata1 metadata2 : option DocumentMetadata) :
  let run := overlapped (repeat true n ++ repeat false m)
               (addDocumentA P source1 metadata1) (addDocumentA P source2 metadata2) st in
  returned (firstOp run) = true ->
  returned (secondOp run) = true ->
  finalState run
  = runOperations P [OpAddDocument source1 metadata1; OpAddDocument source2 metadata2] st.
Proof.
  intros run Ha Hb. unfold run.
  rewrite (one_after_another n m _ _ st Ha Hb).
  rewrite (runs_addDocument source1 metadata1 st).
  rewrite (runs_addDocument source2 metadata2). reflexivity.
Qed.

End RunsClient.

(** C3, as stated, fails. Two add-document calls that overlap on a fresh
    process both find the id missing, since the first has not stored it
    yet when the second is called, and both list the stores. And when the
    service hands out an empty id, the id that is stored does not count as
    held: the next call, made after the first has returned, resolves
    again. *)
Lemma resolved_once_claim_fails :
  (let run := overlapped [true; false; true; false; true; false; true; false]
                (addDocumentA Sim.platform "/data/paper.pdf" None)
                (addDocumentA Sim.platform "/data/paper.pdf" None) Sim.fresh in
   returned (firstOp run) = true /\
   returned (secondOp run) = true /\
   calls (finalState run)
   = [ListStores 20; ListStores 20;
      UploadFile "/data/paper.pdf"; UploadFile "/data/paper.pdf"] /\
   sentBy true Sim.fresh (turns run) = [ListStores 20; UploadFile "/data/paper.pdf"] /\
   sentBy false Sim.fresh (turns run) = [ListStores 20; UploadFile "/data/paper.pdf"]) /\
  calls (runOperations Sim.platform
           [OpAddDocument "/data/paper.pdf" None; OpAddDocument "/data/paper.pdf" None]
           simNamelessFresh)
  = [ListStores 20; UploadFile "/data/paper.pdf";
     ListStores 20; UploadFile "/data/paper.pdf"] /\
  ~ resolved_once_claim.
Proof.
  split; [|split].
  - vm_compute. repeat split.
  - vm_compute. reflexivity.
  - intros H.
    specialize (H Sim.World Sim.platform Sim.fresh "/data/paper.pdf" "/data/paper.pdf"
                  None None [true; false; true; false; true; false; true; false]).
    vm_compute in H. destruct (H eq_refl eq_refl) as [Hone|Hother]; discriminate.
Qed.

(** When the collection does not exist yet, two add-document calls that
    overlap both create it: the service ends up with two collections of the
    same display name, and the client with the id of the one created last.
    When the second call comes in while the first is creating the
    collection, the second fails with the already-exists error. *)
Example overlapping_calls_create_twice :
  (let run := overlapped (inTurns 8)
                (addDocumentA Sim.platform "/data/paper.pdf" None)
                (addDocumentA Sim.platform "/data/paper.pdf" None) simThesesFresh in
   returned (firstOp run) = true /\
   returned (secondOp run) = true /\
   calls (finalState run)
   = [ListStores 20; ListStores 20; ListStores 20; ListStores 20;
      CreateStore (Some "theses"); CreateStore (Some "theses");
      UploadFile "/data/paper.pdf"; UploadFile "/data/paper.pdf"] /\
   Sim.stores (world (finalState run))
   = [Sim.papers; mkStore "fileSearchStores/s1" (Some "theses");
      mkStore "fileSearchStores/s2" (Some "theses")] /\
   storeId (client (finalState run)) = Some "fileSearchStores/s2") /\
  (let run := overlapped (repeat true 5 ++ repeat false 3 ++ repeat true 3
                            ++ repeat false 2)%list
                (addDocumentA Sim.platform "/data/paper.pdf" None)
                (addDocumentA Sim.platform "/data/paper.pdf" None) simThesesFresh in
   returned (firstOp run) = true /\
   secondOp run
   = Return (Throw (TMCP (mkMCPError API_ERROR
                            (alreadyExistsMessage "theses" "fileSearchStores/s1")
                            false None)))).
Proof. vm_compute. repeat split. Qed.

(** C3, amended. Operations that are called one after the other, on a
    process that holds no store id and has a name configured: when the
    first operation that needs the id resolves the name with success and
    the id is a non-empty string, the id is stored in the client, and
    neither the rest of that operation nor any later run of
    [uploadDocument], [addDocument], [ensureFileStore] or [listDocuments],
    in any number and order and whether it succeeds or fails, changes the
    client or sends a list-stores or create-store request. *)
Theorem store_id_resolved_once {World : Type} (P : Platform World) (st st1 : St World)
  (sn id : string) (o : Operation) (ops : list Operation) :
  truthy_opt (storeId (client st)) = false ->
  storeName (client st) = Some sn ->
  truthy sn = true ->
  resolveStoreByDisplayName P sn st = (Ok id, st1) ->
  truthy id = true ->
  needsStoreId o = true ->
  let resolved :=
    mkSt (mkClient (apiKey (client st1)) (Some id) (storeName (client st1)))
      (world st1) (calls st1) in
  ensureStoreId P st = (Ok id, resolved) /\
  client (runOperations P (o :: ops) st) = client resolved /\
  storeId (client (runOperations P (o :: ops) st)) = Some id /\
  exists sent : list RemoteCall,
    calls (runOperations P (o :: ops) st) = (calls st1 ++ sent)%list /\
    Forall (fun c => isResolutionCall c = false) sent.
Proof.
  intros Hnone Hsn Hname Hres Hid Hneeds resolved.
  pose proof (ensureStoreId_resolves P st st1 sn id Hnone Hsn Hname Hres) as Hfirst.
  fold resolved in Hfirst. split; [exact Hfirst|].
  assert (Hagain : ensureStoreId P resolved = (Ok id, resolved)).
  { apply ensureStoreId_cached; [reflexivity|exact Hid]. }
  assert (Hrun : runOperations P (o :: ops) st = runOperations P (o :: ops) resolved).
  { unfold runOperations. cbn [fold_left].
    rewrite (runOperation_after_resolution P st resolved id o Hneeds Hfirst Hagain).
    reflexivity. }
  rewrite Hrun.
  exact (held_store_id_kept P resolved id (o :: ops) eq_refl Hid).
Qed.

Lemma store_id_resolved_once_witness :
  ensureStoreId Sim.platform Sim.fresh
  = (Ok "fileSearchStores/abc123",
     mkSt (client Sim.resolved) Sim.world0 [ListStores 20]) /\
  client (runOperations Sim.platform
            [OpAddDocument "/no/such/file" None; OpEnsureFileStore;
             OpUploadDocument "/data/paper.pdf" None; OpListDocuments 1 20]
            Sim.fresh)
  = client Sim.resolved /\
  storeId (client (runOperations Sim.platform
                     [OpAddDocument "/no/such/file" None; OpEnsureFileStore;
                      OpUploadDocument "/data/paper.pdf" None; OpListDocuments 1 20]
                     Sim.fresh))
  = Some "fileSearchStores/abc123" /\
  exists sent : list RemoteCall,
    calls (runOperations Sim.platform
             [OpAddDocument "/no/such/file" None; OpEnsureFileStore;
              OpUploadDocument "/data/paper.pdf" None; OpListDocuments 1 20]
             Sim.fresh)
    = ([ListStores 20] ++ sent)%list /\
    Forall (fun c => isResolutionCall c = false) sent.
Proof.
  apply (store_id_resolved_once Sim.platform Sim.fresh
           (mkSt (client Sim.fresh) Sim.world0 [ListStores 20])
           "papers" "fileSearchStores/abc123"
           (OpAddDocument "/no/such/file" None)
           [OpEnsureFileStore; OpUploadDocument "/data/paper.pdf" None;
            OpListDocuments 1 20]); reflexivity.
Defined.

(** A fresh process resolves the store on its first operation and not on
    the second. *)
Example resolution_happens_once :
  calls (runOperations Sim.platform
           [OpEnsureFileStore; OpUploadDocument "/data/paper.pdf" None] Sim.fresh)
  = [ListStores 20; GetStore "fileSearchStores/abc123"; UploadFile "/data/paper.pdf"].
Proof. vm_compute. reflexivity. Qed.

(* ====================================================================== *)
(** ** What a process without a store id does first                        *)
(* ====================================================================== *)

Section Unresolved.

Context {World : Type} (P : Platform World).

Lemma keeps_setStoreId (id : string) :
  keeps anyCall anyClient (setStoreId id : M (St World) unit).
Proof.
  intros st _. split; [exact I|]. exists []. simpl.
  split; [symmetry; apply app_nil_r|constructor].
Qed.

Lemma keeps_listFileStores (pageSize : Z) :
  keeps anyCall anyClient (listFileStores P pageSize).
Proof. unfold listFileStores. footprint; exact I. Qed.

Lemma keeps_createFileStore (displayName : option string) :
  keeps anyCall anyClient (createFileStore P displayName).
Proof.
  unfold createFileStore.
  apply keeps_handleErrors. apply keeps_bind; [footprint|]. intros c.
  apply keeps_bind.
  - destruct displayName as [dn|]; [|footprint].
    destruct (truthy dn); [|footprint].
    apply keeps_bind; [apply keeps_listFileStores|]. footprint.
  - intros _. apply keeps_bind; [footprint; exact I|]. intros response.
    destruct (negb (ok response)); [footprint|].
    apply keeps_bind; [footprint|]. intros data.
    apply keeps_bind; [apply keeps_setStoreId|]. footprint.
Qed.

(** Resolution starts with a list-stores request for a page of 20. *)
Lemma resolveStoreByDisplayName_lists_first (displayName : string) (st : St World) :
  exists later : list RemoteCall,
    calls (snd (resolveStoreByDisplayName P displayName st))
    = (calls st ++ ListStores 20 :: later)%list.
Proof.
  pose proof (listFileStores_effect P 20 st) as [_ Hcalls].
  unfold resolveStoreByDisplayName, handleErrors, try_catch, bind.
  destruct (listFileStores P 20 st) as [[listed|e] st1]; simpl in *.
  - destruct (find (displayName_is displayName) listed) as [matchingStore|].
    + exists []. exact Hcalls.
    + destruct (keeps_createFileStore (Some displayName) st1 I) as [_ (l & Hl & _)].
      simpl in Hl.
      destruct (createFileStore P (Some displayName) st1) as [[sid|e] st2];
        simpl in *; exists l; rewrite Hl, Hcalls, <- app_assoc; reflexivity.
  - exists []. exact Hcalls.
Qed.

(** Without a store id and with a configured name, the opening statements
    of [uploadDocument] send a list-stores request before anything else. *)
Lemma ensureStoreId_unresolved_lists_first (st : St World) (sn : string) :
  truthy_opt (storeId (client st)) = false ->
  storeName (client st) = Some sn ->
  truthy sn = true ->
  exists later : list RemoteCall,
    calls (snd (ensureStoreId P st)) = (calls st ++ ListStores 20 :: later)%list.
Proof.
  intros Hnone Hsn Ht.
  destruct (resolveStoreByDisplayName_lists_first sn st) as (later & Hlater).
  unfold ensureStoreId, bind at 1, getClient at 1. rewrite Hnone, Hsn, Ht.
  unfold bind. destruct (resolveStoreByDisplayName P sn st) as [[sid|e] st1];
    simpl in *; exists later; exact Hlater.
Qed.

Lemma keeps_resolveStoreByDisplayName (displayName : string) :
  keeps anyCall anyClient (resolveStoreByDisplayName P displayName).
Proof.
  unfold resolveStoreByDisplayName.
  apply keeps_handleErrors. apply keeps_bind; [apply keeps_listFileStores|].
  intros listed. destruct (find (displayName_is displayName) listed).
  - footprint.
  - apply keeps_createFileStore.
Qed.

Lemma keeps_ensureStoreId_any : keeps anyCall anyClient (ensureStoreId P).
Proof.
  unfold ensureStoreId. apply keeps_bind; [footprint|]. intros c.
  destruct (truthy_opt (storeId c)); [footprint|].
  destruct (storeName c) as [sn|]; [|footprint].
  destruct (truthy sn); [|footprint].
  apply keeps_bind; [apply keeps_resolveStoreByDisplayName|]. intros id.
  apply keeps_bind; [apply keeps_setStoreId|]. footprint.
Qed.

(** On such a process the request log of [addDocument] starts with the
    list-stores request, whatever the source is and however it ends. *)
Lemma addDocument_unresolved_lists_first (st : St World) (sn source : string)
  (metadata : option DocumentMetadata) :
  truthy_opt (storeId (client st)) = false ->
  storeName (client st) = Some sn ->
  truthy sn = true ->
  exists later : list RemoteCall,
    calls (snd (addDocument P source metadata st))
    = (calls st ++ ListStores 20 :: later)%list.
Proof.
  intros Hnone Hsn Ht.
  destruct (ensureStoreId_unresolved_lists_first st sn Hnone Hsn Ht) as (l1 & Hl1).
  assert (Hupload : grows anyCall (snd (ensureStoreId P st))
                      (snd (uploadDocument P source metadata st))).
  { unfold uploadDocument, handleErrors, try_catch. unfold bind at 1.
    destruct (ensureStoreId P st) as [[id|e] st1]; simpl; [|apply grows_refl].
    match goal with
    | |- grows _ _ (snd (match ?m st1 with _ => _ end)) =>
        assert (Htail : keeps anyCall anyClient (handleErrors m))
    end.
    { apply keeps_handleErrors.
      apply keeps_bind; [apply keeps_ensureLocalFile; intros; exact I|]. intros localPath.
      apply keeps_bind; [apply keeps_calculateFileHash|]. intros h.
      apply keeps_bind; [footprint|]. intros sizeBytes.
      apply keeps_bind.
      - apply keeps_retryWithBackoff; [footprint|].
        intros f Hf. inversion Hf; subst f. intros a e st' Hi.
        split; [exact Hi|apply grows_refl].
      - footprint. }
    exact (proj2 (Htail st1 I)). }
  assert (Hadd : grows anyCall (snd (uploadDocument P source metadata st))
                   (snd (addDocument P source metadata st))).
  { unfold addDocument, handleErrors, try_catch. unfold bind at 1.
    destruct (uploadDocument P source metadata st) as [[d|e] st2]; simpl;
      apply grows_refl. }
  destruct (grows_trans _ _ _ _ Hupload Hadd) as (l2 & Hl2 & _).
  exists (l1 ++ l2)%list. rewrite Hl2, Hl1, <- app_assoc. reflexivity.
Qed.

(** Without a store id and without a configured name, [addDocument] fails
    with [STORE_NOT_FOUND] whatever the source is. *)
Lemma addDocument_no_store_name (st : St World) (source : string)
  (metadata : option DocumentMetadata) :
  truthy_opt (storeId (client st)) = false ->
  truthy_opt (storeName (client st)) = false ->
  addDocument P source metadata st = (Throw (TMCP storeNameNotConfigured), st).
Proof.
  intros Hnone Hname.
  assert (Hens : ensureStoreId P st = (Throw (TMCP storeNameNotConfigured), st)).
  { unfold ensureStoreId, bind, getClient. rewrite Hnone.
    unfold truthy_opt in Hname.
    destruct (storeName (client st)) as [sn|]; [rewrite Hname|]; reflexivity. }
  unfold addDocument.
  apply (handleErrors_throw _ st st (TMCP storeNameNotConfigured)).
  apply bind_throw. unfold uploadDocument.
  apply (handleErrors_throw _ st st (TMCP storeNameNotConfigured)).
  apply bind_throw. exact Hens.
Qed.

End Unresolved.

(* ====================================================================== *)
(** ** The requests of a resolution                                        *)
(* ====================================================================== *)

Section Resolution.

Context {World : Type} (P : Platform World).

Lemma resolving_setStoreId (id : string) :
  keeps resolutionCall anyClient (setStoreId id : M (St World) unit).
Proof.
  intros st _. split; [exact I|]. exists []. simpl.
  split; [symmetry; apply app_nil_r|constructor].
Qed.

Lemma resolving_listFileStores (pageSize : Z) :
  keeps resolutionCall anyClient (listFileStores P pageSize).
Proof. unfold listFileStores. footprint. Qed.

Lemma resolving_createFileStore (displayName : option string) :
  keeps resolutionCall anyClient (createFileStore P displayName).
Proof.
  unfold createFileStore.
  apply keeps_handleErrors. apply keeps_bind; [footprint|]. intros c.
  apply keeps_bind.
  - destruct displayName as [dn|]; [|footprint].
    destruct (truthy dn); [|footprint].
    apply keeps_bind; [apply resolving_listFileStores|]. footprint.
  - intros _. apply keeps_bind; [footprint|]. intros response.
    destruct (negb (ok response)); [footprint|].
    apply keeps_bind; [footprint|]. intros data.
    apply keeps_bind; [apply resolving_setStoreId|]. footprint.
Qed.

Lemma resolving_resolveStoreByDisplayName (displayName : string) :
  keeps resolutionCall anyClient (resolveStoreByDisplayName P displayName).
Proof.
  unfold resolveStoreByDisplayName.
  apply keeps_handleErrors. apply keeps_bind; [apply resolving_listFileStores|].
  intros listed. destruct (find (displayName_is displayName) listed).
  - footprint.
  - apply resolving_createFileStore.
Qed.

(** Making sure of the store id sends list-stores and create-store
    requests only. *)
Lemma resolving_ensureStoreId : keeps resolutionCall anyClient (ensureStoreId P).
Proof.
  unfold ensureStoreId. apply keeps_bind; [footprint|]. intros c.
  destruct (truthy_opt (storeId c)); [footprint|].
  destruct (storeName c) as [sn|]; [|footprint].
  destruct (truthy sn); [|footprint].
  apply keeps_bind; [apply resolving_resolveStoreByDisplayName|]. intros id.
  apply keeps_bind; [apply resolving_setStoreId|]. footprint.
Qed.

(** On a client that holds an id nothing happens at all. *)
Lemma ensureStoreId_held (st : St World) :
  truthy_opt (storeId (client st)) = true ->
  snd (ensureStoreId P st) = st.
Proof.
  intros Hheld. unfold ensureStoreId, bind, getClient. rewrite Hheld. reflexivity.
Qed.

End Resolution.

(** C6, amended. Adding a document from a source that is not an http(s)
    URL and that [fs.access] rejects fails with [FILE_NOT_FOUND],
    [retryable = false], whenever the store id is there: held already, or
    resolved with success by the opening statements of [uploadDocument].
    Up to the failure the only requests sent are list-stores and
    create-store requests of that resolution, and none at all on a client
    that holds an id: nothing is downloaded, uploaded or listed. *)
Theorem addDocument_missing_file {World : Type} (P : Platform World) (st st1 : St World)
  (source : string) (metadata : option DocumentMetadata) (id : string)
  (e : Thrown) (w' : World) :
  startsWith source "http://" = false ->
  startsWith source "https://" = false ->
  ensureStoreId P st = (Ok id, st1) ->
  fs_access P source (world st1) = (Throw e, w') ->
  addDocument P source metadata st
  = (Throw (TMCP (mkMCPError FILE_NOT_FOUND ("File not found: " ++ source) false None)),
     mkSt (client st1) w' (calls st1)) /\
  (exists resolution : list RemoteCall,
      calls st1 = (calls st ++ resolution)%list /\
      Forall (fun c => isResolutionCall c = true) resolution) /\
  (truthy_opt (storeId (client st)) = true -> st1 = st).
Proof.
  intros H1 H2 Hens Hacc.
  set (err := mkMCPError FILE_NOT_FOUND ("File not found: " ++ source) false None).
  split; [|split].
  - assert (Hup : uploadDocument P source metadata st
                  = (Throw (TMCP err), mkSt (client st1) w' (calls st1))).
    { unfold uploadDocument.
      apply (handleErrors_throw _ st _ (TMCP err)).
      rewrite (bind_ok _ _ _ _ _ Hens).
      apply bind_throw. apply (ensureLocalFile_missing P st1 source e w'); assumption. }
    unfold addDocument.
    apply (handleErrors_throw _ st _ (TMCP err)).
    apply bind_throw. exact Hup.
  - destruct (resolving_ensureStoreId P st I) as [_ Hgrows].
    rewrite Hens in Hgrows. exact Hgrows.
  - intros Hheld. pose proof (ensureStoreId_held P st Hheld) as Hsame.
    rewrite Hens in Hsame. exact Hsame.
Qed.

Lemma addDocument_missing_file_witness :
  addDocument Sim.platform "/no/such/file" None Sim.fresh
  = (Throw (TMCP (mkMCPError FILE_NOT_FOUND "File not found: /no/such/file" false None)),
     mkSt (client Sim.resolved) Sim.world0 [ListStores 20]) /\
  (exists resolution : list RemoteCall,
      [ListStores 20] = (calls Sim.fresh ++ resolution)%list /\
      Forall (fun c => isResolutionCall c = true) resolution) /\
  (truthy_opt (storeId (client Sim.fresh)) = true ->
   mkSt (client Sim.resolved) Sim.world0 [ListStores 20] = Sim.fresh).
Proof.
  apply (addDocument_missing_file Sim.platform Sim.fresh
           (mkSt (client Sim.resolved) Sim.world0 [ListStores 20])
           "/no/such/file" None "fileSearchStores/abc123"
           (TError "Error" "ENOENT: no such file or directory, open /no/such/file" None)
           Sim.world0); reflexivity.
Defined.

(** On a client that holds the id, no request is sent at all. *)
Example addDocument_missing_file_held :
  addDocument Sim.platform "/no/such/file" None Sim.resolved
  = (Throw (TMCP (mkMCPError FILE_NOT_FOUND "File not found: /no/such/file" false None)),
     mkSt (client Sim.resolved) Sim.world0 (calls Sim.resolved)).
Proof. reflexivity. Qed.

(** When the store id cannot be had, that failure is what [addDocument]
    reports, classified, and the path is not looked at. *)
Lemma addDocument_resolution_fails {World : Type} (P : Platform World) (st st1 : St World)
  (source : string) (metadata : option DocumentMetadata) (x : Thrown) :
  ensureStoreId P st = (Throw x, st1) ->
  addDocument P source metadata st = (Throw (TMCP (parseGeminiError x)), st1).
Proof.
  intros Hens. unfold addDocument.
  apply (handleErrors_throw _ st st1 (TMCP (parseGeminiError x))).
  apply bind_throw. unfold uploadDocument. apply handleErrors_throw.
  apply bind_throw. exact Hens.
Qed.


(* ====================================================================== *)
(** * Further properties of the code                                       *)
(* ====================================================================== *)

(* ====================================================================== *)
(** ** The classifier beyond the rate limit                                *)
(* ====================================================================== *)

(** X1. Every [Error] whose lower-cased message contains "too large" or
    "file size" is classified [FILE_TOO_LARGE] and not retryable, whatever
    else the message says: these keywords are tested first. The message is
    kept and the details record it together with the error's name. *)
Theorem parseGeminiError_file_too_large (name msg : string) (status : option Z) :
  orb (includes (toLowerCase msg) "too large")
      (includes (toLowerCase msg) "file size") = true ->
  parseGeminiError (TError name msg status)
  = mkMCPError FILE_TOO_LARGE msg false (Some [("original_error", msg); ("name", name)]).
Proof.
  intros H. unfold parseGeminiError. rewrite H. reflexivity.
Qed.

Lemma parseGeminiError_file_too_large_witness :
  parseGeminiError (TError "Error" "Quota: FILE SIZE over the rate limit" (Some 429))
  = mkMCPError FILE_TOO_LARGE "Quota: FILE SIZE over the rate limit" false
      (Some [("original_error", "Quota: FILE SIZE over the rate limit"); ("name", "Error")]).
Proof.
  apply (parseGeminiError_file_too_large "Error" "Quota: FILE SIZE over the rate limit"
           (Some 429)).
  reflexivity.
Defined.

(** X2. Whatever is not yet an [MCPError] is classified with one of eight
    codes (never [FILE_NOT_FOUND], [UPLOAD_FAILED], [DOWNLOAD_FAILED],
    [INDEXING_TIMEOUT], [INDEXING_FAILED], [QUERY_FAILED],
    [STORE_ACCESS_DENIED], [VALIDATION_ERROR] or [INVALID_INPUT]); the
    retryable flag is set exactly for [RATE_LIMITED], [NETWORK_ERROR] and
    [API_ERROR], so for these errors the flag and [isRetryable] agree. *)
Theorem parseGeminiError_range (x : Thrown) :
  isMCPError x = false ->
  In (code (parseGeminiError x)) classifierCodes /\
  retryable (parseGeminiError x)
  = has_code classifierRetryableCodes (code (parseGeminiError x)) /\
  isRetryable (TMCP (parseGeminiError x)) = retryable (parseGeminiError x).
Proof.
  intros Hx. destruct x as [e|name msg status|s|status|]; try discriminate Hx;
    try (simpl; intuition reflexivity).
  unfold parseGeminiError, classifierCodes.
  repeat match goal with
         | |- context [if ?b then _ else _] => destruct b
         end;
    simpl; intuition reflexivity.
Qed.

Lemma parseGeminiError_range_witness :
  In (code (parseGeminiError (TError "ZodError" "Required" None))) classifierCodes /\
  retryable (parseGeminiError (TError "ZodError" "Required" None))
  = has_code classifierRetryableCodes
      (code (parseGeminiError (TError "ZodError" "Required" None))) /\
  isRetryable (TMCP (parseGeminiError (TError "ZodError" "Required" None)))
  = retryable (parseGeminiError (TError "ZodError" "Required" None)).
Proof.
  apply (parseGeminiError_range (TError "ZodError" "Required" None)). reflexivity.
Defined.

Lemma lower_ascii_idempotent (c : ascii) : lower_ascii (lower_ascii c) = lower_ascii c.
Proof.
  destruct c as [[] [] [] [] [] [] [] []]; reflexivity.
Qed.

Lemma toLowerCase_idempotent (s : string) : toLowerCase (toLowerCase s) = toLowerCase s.
Proof.
  induction s as [|c s IH]; simpl; [reflexivity|].
  rewrite lower_ascii_idempotent, IH. reflexivity.
Qed.

(** X3. For messages made of ASCII characters, where lower-casing changes
    the letters A to Z and nothing else, the classification does not depend
    on the case of the message: two errors whose messages differ in case
    only get the same code and the same retryable flag, and so does an
    error and its lower-cased copy. *)
Theorem parseGeminiError_case_insensitive (name1 name2 msg1 msg2 : string)
  (status1 status2 : option Z) :
  isAscii msg1 = true ->
  isAscii msg2 = true ->
  toLowerCase msg1 = toLowerCase msg2 ->
  code (parseGeminiError (TError name1 msg1 status1))
  = code (parseGeminiError (TError name2 msg2 status2)) /\
  retryable (parseGeminiError (TError name1 msg1 status1))
  = retryable (parseGeminiError (TError name2 msg2 status2)) /\
  code (parseGeminiError (TError name1 (toLowerCase msg1) status1))
  = code (parseGeminiError (TError name1 msg1 status1)).
Proof.
  intros _ _ H. unfold parseGeminiError.
  rewrite toLowerCase_idempotent, H.
  repeat match goal with
         | |- context [if ?b then _ else _] => destruct b
         end; repeat split; reflexivity.
Qed.

Lemma parseGeminiError_case_insensitive_witness :
  code (parseGeminiError (TError "Error" "REQUEST TIMEOUT" None))
  = code (parseGeminiError (TError "FetchError" "Request Timeout" (Some 504))) /\
  retryable (parseGeminiError (TError "Error" "REQUEST TIMEOUT" None))
  = retryable (parseGeminiError (TError "FetchError" "Request Timeout" (Some 504))) /\
  code (parseGeminiError (TError "Error" (toLowerCase "REQUEST TIMEOUT") None))
  = code (parseGeminiError (TError "Error" "REQUEST TIMEOUT" None)).
Proof.
  apply (parseGeminiError_case_insensitive "Error" "FetchError" "REQUEST TIMEOUT"
           "Request Timeout" None (Some 504)); reflexivity.
Defined.

(* ====================================================================== *)
(** ** Which failures are retried                                          *)
(* ====================================================================== *)

Lemma has_status_In (l : list Z) (z : Z) : has_status l z = true <-> In z l.
Proof.
  unfold has_status. rewrite existsb_exists. split.
  - intros (y & Hin & Heq). apply Z.eqb_eq in Heq. subst. exact Hin.
  - intros Hin. exists z. split; [exact Hin|apply Z.eqb_refl].
Qed.

(** X4. For a failure that is not an [MCPError], [isRetryable] looks at the
    [status] property and at nothing else: an [Error] or object is retryable
    exactly when its status is 408, 429, 500, 502, 503 or 504, whatever its
    name and message; without a status, and for strings and other values,
    the answer is no. *)
Theorem isRetryable_by_status :
  (forall (name msg : string) (z : Z),
      isRetryable (TError name msg (Some z)) = true
      <-> In z RETRYABLE_HTTP_STATUS_CODES) /\
  (forall z : Z, isRetryable (TObject (Some z)) = true
                 <-> In z RETRYABLE_HTTP_STATUS_CODES) /\
  (forall name msg : string, isRetryable (TError name msg None) = false) /\
  isRetryable (TObject None) = false /\
  (forall s : string, isRetryable (TString s) = false) /\
  isRetryable TOther = false.
Proof.
  assert (Hstatus : forall z, retryable_status (Some z) = true
                              <-> In z RETRYABLE_HTTP_STATUS_CODES).
  { intros z. unfold retryable_status. rewrite andb_true_iff, has_status_In.
    split; [intros [_ H]; exact H|].
    intros H. split; [|exact H].
    apply negb_true_iff, Z.eqb_neq. intros ->.
    unfold RETRYABLE_HTTP_STATUS_CODES in H. simpl in H.
    repeat (destruct H as [H|H]; [discriminate H|]). exact H. }
  repeat split; try reflexivity; intros; simpl; apply Hstatus; assumption.
Qed.

(** X5. The keywords of the classifier play no part in the retry decision:
    a unit of work that throws a plain [Error] without a [status] runs
    once, whatever [maxAttempts >= 1] is and whatever the message says,
    and an enclosing [handleErrors] then reports the classification of that
    error, which is flagged retryable for a network or timeout message. *)
Theorem retryWithBackoff_plain_error_runs_once {W T : Type} (rt : Runtime W)
  (fn : M W T) (options : RetryOptions W) (w w1 : W) (name msg : string) :
  1 <= maxAttemptsOf options ->
  fn w = (Throw (TError name msg None), w1) ->
  handleErrors (retryWithBackoff (spy_runtime rt) (spy fn) (spy_options options))
    (0%nat, w)
  = (Throw (TMCP (parseGeminiError (TError name msg None))), (1%nat, w1)).
Proof.
  intros Hmax Hfn. apply handleErrors_throw.
  unfold retryWithBackoff.
  change (maxAttemptsOf (spy_options options)) with (maxAttemptsOf options).
  destruct (Z.to_nat (maxAttemptsOf options)) as [|fuel] eqn:Hfuel; [lia|].
  apply retry_loop_not_retryable; [exact Hmax| |reflexivity].
  rewrite spy_call, Hfn. reflexivity.
Qed.

Lemma retryWithBackoff_plain_error_runs_once_witness :
  handleErrors
    (retryWithBackoff (spy_runtime Sim.idle)
       (spy (Sim.alwaysFails (T:=nat) (TError "Error" "Network error occurred" None)))
       (spy_options (mkRetryOptions (Some 3) None None)))
    (0%nat, tt)
  = (Throw (TMCP (parseGeminiError (TError "Error" "Network error occurred" None))),
     (1%nat, tt)).
Proof.
  apply (retryWithBackoff_plain_error_runs_once Sim.idle
           (Sim.alwaysFails (T:=nat) (TError "Error" "Network error occurred" None))
           (mkRetryOptions (Some 3) None None) tt tt "Error" "Network error occurred").
  - vm_compute. discriminate.
  - reflexivity.
Defined.

Section RetryBound.

Context {W T : Type} (rt : Runtime W) (fn : M W T).

(** Each iteration runs the unit of work once; the loop runs at most
    [fuel] iterations. *)
Lemma retry_loop_count (options : RetryOptions W) (fuel : nat) :
  forall (attempt : Z) (lastError : Thrown) (c : nat) (w : W),
    let final :=
      snd (retry_loop (spy_runtime rt) (spy fn) (maxAttemptsOf (spy_options options))
             (delaysOf (spy_options options)) (onRetry (spy_options options))
             fuel attempt lastError (c, w)) in
    (c <= fst final <= c + fuel)%nat.
Proof.
  induction fuel as [|fuel IH]; intros attempt lastError c w.
  - simpl. lia.
  - cbn [retry_loop].
    destruct (attempt <=? maxAttemptsOf (spy_options options)); [|simpl; lia].
    unfold try_catch. rewrite spy_call.
    destruct (fn w) as [[a|e] w1]; cbn [fst snd]; [lia|].
    destruct (orb (attempt =? maxAttemptsOf (spy_options options))
                  (negb (isRetryable e))); [simpl; lia|].
    rewrite spy_backoff.
    specialize (IH (attempt + 1) e (S c)
                  (backoff rt (delaysOf options) (onRetry options) attempt e w1)).
    cbv zeta in IH. lia.
Qed.

End RetryBound.

(** X6. [retryWithBackoff] never runs the unit of work more than
    [maxAttempts] times, whatever the unit of work does and returns, and
    whatever the delays and the observer are. *)
Theorem retryWithBackoff_at_most_maxAttempts {W T : Type} (rt : Runtime W)
  (fn : M W T) (options : RetryOptions W) (w : W) :
  (fst (snd (retryWithBackoff (spy_runtime rt) (spy fn) (spy_options options)
               (0%nat, w)))
   <= Z.to_nat (maxAttemptsOf options))%nat.
Proof.
  unfold retryWithBackoff.
  pose proof (retry_loop_count rt fn options
                (Z.to_nat (maxAttemptsOf (spy_options options))) 1 TOther 0%nat w) as H.
  cbv zeta in H.
  change (maxAttemptsOf (spy_options options)) with (maxAttemptsOf options) in *.
  lia.
Qed.

(** X7. With [maxAttempts] zero or negative the unit of work is never run:
    the loop body is skipped and [retryWithBackoff] throws [lastError],
    which is still [undefined], leaving the world untouched. *)
Theorem retryWithBackoff_no_attempts {W T : Type} (rt : Runtime W) (fn : M W T)
  (options : RetryOptions W) (w : W) :
  maxAttemptsOf options <= 0 ->
  retryWithBackoff (spy_runtime rt) (spy fn) (spy_options options) (0%nat, w)
  = (Throw TOther, (0%nat, w)).
Proof.
  intros Hmax. unfold retryWithBackoff.
  change (maxAttemptsOf (spy_options options)) with (maxAttemptsOf options).
  replace (Z.to_nat (maxAttemptsOf options)) with 0%nat by lia.
  reflexivity.
Qed.

Lemma retryWithBackoff_no_attempts_witness :
  retryWithBackoff (spy_runtime Sim.idle) (spy (fun w : unit => (Ok 7%nat, w)))
    (spy_options (mkRetryOptions (Some 0) None None)) (0%nat, tt)
  = (Throw TOther, (0%nat, tt)).
Proof.
  apply (retryWithBackoff_no_attempts Sim.idle (fun w : unit => (Ok 7%nat, w))
           (mkRetryOptions (Some 0) None None) tt).
  vm_compute. discriminate.
Defined.

(* ---------------------------------------------------------------------- *)
(** *** Rounding to a double                                               *)

Lemma roundHalfEven_ge (z : Z) (q : Q) :
  (inject_Z z <= q)%Q -> z <= Double.roundHalfEven q.
Proof.
  intros H.
  assert (Hf : z <= Qfloor q).
  { rewrite <- (Qfloor_Z z). apply Qfloor_resp_le. exact H. }
  unfold Double.roundHalfEven.
  destruct (q - inject_Z (Qfloor q) ?= 1 # 2)%Q; [destruct (Z.even (Qfloor q))| |]; lia.
Qed.

Lemma roundHalfEven_le (z : Z) (q : Q) :
  (q <= inject_Z z)%Q -> Double.roundHalfEven q <= z.
Proof.
  intros H.
  assert (Hf : Qfloor q <= z).
  { rewrite <- (Qfloor_Z z). apply Qfloor_resp_le. exact H. }
  unfold Double.roundHalfEven.
  destruct (q - inject_Z (Qfloor q) ?= 1 # 2)%Q eqn:Hc.
  - apply Qeq_alt in Hc.
    assert (Hlt : (inject_Z (Qfloor q) < inject_Z z)%Q) by lra.
    rewrite <- Zlt_Qlt in Hlt. destruct (Z.even (Qfloor q)); lia.
  - lia.
  - apply Qgt_alt in Hc.
    assert (Hlt : (inject_Z (Qfloor q) < inject_Z z)%Q) by lra.
    rewrite <- Zlt_Qlt in Hlt. lia.
Qed.

Lemma floorLog2_le (q : Q) :
  0 < Qnum q -> 0 <= Double.floorLog2 q ->
  (inject_Z (2 ^ Double.floorLog2 q) <= q)%Q.
Proof.
  destruct q as [n d]. cbn [Qnum]. intros Hn. unfold Double.floorLog2. cbn [Qnum Qden].
  set (k := Z.log2 n - Z.log2 (Zpos d)).
  destruct (Double.reaches n d k) eqn:Hr; intros Hk.
  - unfold Double.reaches in Hr.
    replace (0 <=? k) with true in Hr by (symmetry; apply Z.leb_le; exact Hk).
    apply Z.leb_le in Hr. unfold Qle. cbn. lia.
  - unfold Qle. cbn.
    destruct (Z.log2_spec n Hn) as [Hn1 _].
    destruct (Z.log2_spec (Zpos d) eq_refl) as [_ Hd2].
    pose proof (Z.log2_nonneg (Zpos d)) as Hd0.
    assert (Hpow : 2 ^ (k - 1) * 2 ^ Z.succ (Z.log2 (Zpos d)) = 2 ^ Z.log2 n).
    { rewrite <- Z.pow_add_r by lia. f_equal. unfold k. lia. }
    assert (Hpos : 0 < 2 ^ (k - 1)) by (apply Z.pow_pos_nonneg; lia).
    nia.
Qed.

Lemma nearest_between (a b : Z) (q : Q) :
  0 < Qnum q -> b < 2 ^ 53 ->
  (inject_Z a <= q)%Q -> (q <= inject_Z b)%Q ->
  (inject_Z a <= Double.nearest q /\ Double.nearest q <= inject_Z b)%Q.
Proof.
  intros Hpos Hb Ha Hqb. unfold Double.nearest.
  set (e := Z.max (-1074) (Double.floorLog2 q - 52)).
  destruct (0 <=? e) eqn:He.
  - apply Z.leb_le in He.
    assert (He0 : e = 0).
    { destruct (Z.eq_dec e 0) as [|Hne]; [assumption|]. exfalso.
      assert (Hfl : 53 <= Double.floorLog2 q) by (unfold e in *; lia).
      pose proof (floorLog2_le q Hpos ltac:(lia)) as Hlow.
      assert (Hmono : 2 ^ 53 <= 2 ^ Double.floorLog2 q)
        by (apply Z.pow_le_mono_r; lia).
      assert (Hzb : (inject_Z (2 ^ Double.floorLog2 q) <= inject_Z b)%Q)
        by (eapply Qle_trans; eassumption).
      rewrite <- Zle_Qle in Hzb. lia. }
    rewrite He0. change (2 ^ 0) with 1. rewrite Z.mul_1_r.
    split; rewrite <- Zle_Qle.
    + apply roundHalfEven_ge. apply Qle_shift_div_l; [reflexivity|].
      rewrite Qmult_1_r. exact Ha.
    + apply roundHalfEven_le. apply Qle_shift_div_r; [reflexivity|].
      rewrite Qmult_1_r. exact Hqb.
  - apply Z.leb_gt in He. set (p := 2 ^ (- e)).
    assert (Hp : 0 < p) by (apply Z.pow_pos_nonneg; lia).
    assert (HpQ : (inject_Z 0 < inject_Z p)%Q) by (rewrite <- Zlt_Qlt; exact Hp).
    change (inject_Z 0) with 0%Q in HpQ.
    rewrite Qred_correct. split.
    + apply Qle_shift_div_l; [exact HpQ|].
      rewrite <- inject_Z_mult, <- Zle_Qle. apply roundHalfEven_ge.
      rewrite inject_Z_mult. apply Qmult_le_compat_r; [exact Ha|].
      apply Qlt_le_weak. exact HpQ.
    + apply Qle_shift_div_r; [exact HpQ|].
      rewrite <- inject_Z_mult, <- Zle_Qle. apply roundHalfEven_le.
      rewrite inject_Z_mult. apply Qmult_le_compat_r; [exact Hqb|].
      apply Qlt_le_weak. exact HpQ.
Qed.

(** Rounding does not leave an interval between two integers below
    [2^53]. *)
Lemma round_between (a b : Z) (q : Q) :
  0 <= a -> b < 2 ^ 53 ->
  (inject_Z a <= q)%Q -> (q <= inject_Z b)%Q ->
  (inject_Z a <= Double.round q /\ Double.round q <= inject_Z b)%Q.
Proof.
  intros Ha0 Hb Ha Hqb. destruct q as [n d]. unfold Double.round. cbn [Qnum].
  destruct n as [|n|n].
  - unfold Qle in *. cbn in *. split; lia.
  - apply nearest_between; [reflexivity|assumption..].
  - unfold Qle in Ha. cbn in Ha. lia.
Qed.

(** The delay of a retry lies within 200 ms above the scheduled one. *)
Lemma backoff_delay_between (base : Z) (r : Q) :
  0 <= base < 2 ^ 53 - 200 ->
  (0 <= r /\ r < 1)%Q ->
  (inject_Z base <= Double.round (inject_Z base + Double.round (r * 200)) /\
   Double.round (inject_Z base + Double.round (r * 200)) <= inject_Z base + 200)%Q.
Proof.
  intros Hbase [Hr0 Hr1].
  assert (Hlow : (0 <= r * 200)%Q) by lra.
  assert (Hhigh : (r * 200 <= 200)%Q) by lra.
  destruct (round_between 0 200 (r * 200) ltac:(lia) eq_refl Hlow Hhigh) as [Hj0 Hj1].
  change (inject_Z 0) with 0%Q in Hj0. change (inject_Z 200) with 200%Q in Hj1.
  assert (Hsum0 : (inject_Z base <= inject_Z base + Double.round (r * 200))%Q) by lra.
  assert (Hsum1 : (inject_Z base + Double.round (r * 200) <= inject_Z (base + 200))%Q).
  { rewrite inject_Z_plus. change (inject_Z 200) with 200%Q. lra. }
  destruct (round_between base (base + 200) _ ltac:(lia) ltac:(lia) Hsum0 Hsum1)
    as [Hd0 Hd1].
  split; [exact Hd0|]. rewrite inject_Z_plus in Hd1. exact Hd1.
Qed.

Lemma baseDelayFor_range (ds : list Z) (attempt : Z) :
  Forall (fun d => 0 <= d < 2 ^ 53 - 200) ds ->
  0 <= baseDelayFor ds attempt < 2 ^ 53 - 200.
Proof.
  intros Hds. rewrite Forall_forall in Hds.
  assert (Hidx : forall i d, js_index ds i = Some d -> 0 <= d < 2 ^ 53 - 200).
  { intros i d Hi. unfold js_index in Hi. destruct (i <? 0); [discriminate|].
    apply Hds. exact (nth_error_In _ _ Hi). }
  unfold baseDelayFor.
  destruct (js_index ds (attempt - 1)) as [d|] eqn:H1; [exact (Hidx _ _ H1)|].
  destruct (js_index ds (Z.of_nat (List.length ds) - 1)) as [d|] eqn:H2;
    [exact (Hidx _ _ H2)|].
  cbn. lia.
Qed.

(** One tenth and one third as doubles; the largest draw below one gives a
    jitter of [200 - 2^-45], and on top of 500 a delay of 700 sharp. *)
Example double_values :
  Double.round (1 # 10) = 3602879701896397 # 36028797018963968 /\
  Double.round (1 # 3) = 6004799503160661 # 18014398509481984 /\
  Double.round (9007199254740993 # 1) = 9007199254740992 # 1 /\
  Double.round ((9007199254740991 # 9007199254740992) * 200)
  = 7036874417766399 # 35184372088832 /\
  Double.round (inject_Z 500
                + Double.round ((9007199254740991 # 9007199254740992) * 200))
  = 700 # 1.
Proof. vm_compute. repeat split. Qed.

Section Scripted.

Context {T : Type} (jitter : nat -> Q).
Variables (n : Z) (ds : list Z) (v : T) (rest : list (Res T)).

Lemma retry_loop_script (failures : list Thrown) :
  Forall (fun e => isRetryable e = true) failures ->
  forall (attempt : Z) (lastError : Thrown) (fuel : nat)
         (s0 : list Q) (d0 : nat) (o0 : list (Z * Thrown)),
    attempt + Z.of_nat (List.length failures) <= n ->
    fuel = Z.to_nat (n - attempt + 1) ->
    retry_loop (Script.runtime jitter) Script.work n ds (Some Script.observer)
      fuel attempt lastError
      (Script.mkWorld (map Throw failures ++ Ok v :: rest) s0 d0 o0)
    = (Ok v,
       Script.mkWorld rest
         (s0 ++ Script.delaysFrom jitter ds attempt d0 (List.length failures))
         (d0 + List.length failures)
         (o0 ++ Script.notesFrom attempt failures)).
Proof.
  induction 1 as [|e es He Hes IH]; intros attempt lastError fuel s0 d0 o0 Hle Hfuel.
  - simpl in *. destruct fuel as [|fuel]; [lia|].
    erewrite retry_loop_success; [|lia|reflexivity].
    rewrite !app_nil_r, Nat.add_0_r. reflexivity.
  - simpl in Hle. destruct fuel as [|fuel]; [lia|].
    erewrite retry_loop_retry; [|lia|reflexivity|exact He].
    unfold backoff. simpl.
    rewrite (IH (attempt + 1) e fuel) by lia.
    rewrite <- !app_assoc. simpl.
    replace (d0 + S (List.length es))%nat with (S (d0 + List.length es)) by lia.
    reflexivity.
Qed.

Lemma delaysFrom_bounds (k : nat) :
  Forall (fun d => 0 <= d < 2 ^ 53 - 200) ds ->
  (forall i, 0 <= jitter i /\ jitter i < 1)%Q ->
  forall (attempt : Z) (draw i : nat) (d : Q),
    nth_error (Script.delaysFrom jitter ds attempt draw k) i = Some d ->
    (inject_Z (baseDelayFor ds (attempt + Z.of_nat i)) <= d /\
     d <= inject_Z (baseDelayFor ds (attempt + Z.of_nat i)) + 200)%Q.
Proof.
  intros Hds Hj. induction k as [|k IH]; intros attempt draw i d Hnth.
  - destruct i; discriminate Hnth.
  - destruct i as [|i]; simpl in Hnth.
    + inversion Hnth; subst d. rewrite Z.add_0_r.
      apply backoff_delay_between; [apply baseDelayFor_range; exact Hds|apply Hj].
    + apply IH in Hnth.
      replace (attempt + Z.of_nat (S i)) with (attempt + 1 + Z.of_nat i) by lia.
      exact Hnth.
Qed.

End Scripted.

(** X8. A unit of work that fails [k] times with retryable errors and then
    succeeds, with [k < maxAttempts], makes [retryWithBackoff] return that
    success after exactly [k + 1] runs (the rest of the script is not
    touched). It sleeps [k] times, before each retry, for the scheduled
    delay of that attempt plus the jitter, product and sum rounded as
    doubles are: for draws in [0, 1) and scheduled delays from 0 to below
    [2^53 - 200] the time slept lies between the scheduled delay and 200 ms
    more, both included. The observer is told each failed attempt, numbered
    from 1, with the error as thrown. *)
Theorem retryWithBackoff_succeeds_after_failures {T : Type} (jitter : nat -> Q)
  (failures : list Thrown) (v : T) (rest : list (Res T))
  (maxA : option Z) (ds : option (list Z)) :
  let options := mkRetryOptions maxA ds (Some Script.observer) in
  let k := List.length failures in
  Forall (fun e => isRetryable e = true) failures ->
  Z.of_nat k < maxAttemptsOf options ->
  Forall (fun d => 0 <= d < 2 ^ 53 - 200) (delaysOf options) ->
  (forall i, 0 <= jitter i /\ jitter i < 1)%Q ->
  retryWithBackoff (Script.runtime jitter) Script.work options
    (Script.start (map Throw failures ++ Ok v :: rest))
  = (Ok v,
     Script.mkWorld rest (Script.delaysFrom jitter (delaysOf options) 1 0 k) k
       (Script.notesFrom 1 failures)) /\
  forall (i : nat) (d : Q),
    nth_error (Script.delaysFrom jitter (delaysOf options) 1 0 k) i = Some d ->
    (inject_Z (baseDelayFor (delaysOf options) (1 + Z.of_nat i)%Z) <= d /\
     d <= inject_Z (baseDelayFor (delaysOf options) (1 + Z.of_nat i)%Z) + 200)%Q.
Proof.
  intros options k Hretry Hk Hdelays Hjitter. split.
  - unfold retryWithBackoff, Script.start.
    change (onRetry options) with (Some (@Script.observer T)).
    rewrite (retry_loop_script jitter (maxAttemptsOf options) (delaysOf options) v rest
               failures Hretry 1 TOther (Z.to_nat (maxAttemptsOf options)) [] 0%nat [])
      by (fold k; lia).
    reflexivity.
  - intros i d Hnth.
    exact (delaysFrom_bounds jitter (delaysOf options) k Hdelays Hjitter 1 0%nat i d Hnth).
Qed.

Lemma retryWithBackoff_succeeds_after_failures_witness :
  retryWithBackoff (Script.runtime (fun _ => 1 # 2)) Script.work
    (mkRetryOptions (Some 5) (Some [10; 20]) (Some Script.observer))
    (Script.start
       (map Throw [TObject (Some 503); TObject (Some 429); TObject (Some 500)]
          ++ Ok 7%nat :: [Throw TOther]))
  = (Ok 7%nat,
     Script.mkWorld [Throw TOther]
       (Script.delaysFrom (fun _ => 1 # 2) [10; 20] 1 0 3) 3
       (Script.notesFrom 1 [TObject (Some 503); TObject (Some 429); TObject (Some 500)])) /\
  forall (i : nat) (d : Q),
    nth_error (Script.delaysFrom (fun _ => 1 # 2) [10; 20] 1 0 3) i = Some d ->
    (inject_Z (baseDelayFor [10; 20]%Z (1 + Z.of_nat i)%Z) <= d /\
     d <= inject_Z (baseDelayFor [10; 20]%Z (1 + Z.of_nat i)%Z) + 200)%Q.
Proof.
  apply (retryWithBackoff_succeeds_after_failures (fun _ => 1 # 2)
           [TObject (Some 503); TObject (Some 429); TObject (Some 500)] 7%nat
           [Throw TOther] (Some 5) (Some [10; 20])).
  - repeat constructor.
  - vm_compute. reflexivity.
  - repeat constructor; vm_compute; congruence.
  - intros i. split; [discriminate|reflexivity].
Defined.

(** The delays of that run: 10 and 20 from the schedule, then 20 again for
    the attempt past its end, each with a jitter of 100. *)
Example script_delays :
  Script.delaysFrom (fun _ => 1 # 2) [10; 20] 1 0 3 = [110 # 1; 120 # 1; 120 # 1].
Proof. vm_compute. reflexivity. Qed.

(* ====================================================================== *)
(** ** The error wrapper                                                   *)
(* ====================================================================== *)

(** The wrapper changes the value thrown, never the state. *)
Lemma handleErrors_snd {S A : Type} (m : M S A) (s : S) :
  snd (handleErrors m s) = snd (m s).
Proof. unfold handleErrors, try_catch, throw. destruct (m s) as [[a|x] s1]; reflexivity. Qed.

(** X9. [handleErrors] lets a result through unchanged and throws nothing
    but [MCPError]s: an [MCPError] thrown inside comes out as it is, anything
    else as its classification. Wrapping twice, as the tools do around the
    client, is the same as wrapping once; the state is that of the wrapped
    computation. *)
Theorem handleErrors_wraps {S A : Type} (m : M S A) (s : S) :
  (forall a s', m s = (Ok a, s') -> handleErrors m s = (Ok a, s')) /\
  (forall e s', m s = (Throw (TMCP e), s') -> handleErrors m s = (Throw (TMCP e), s')) /\
  (forall x s', handleErrors m s = (Throw x, s') -> isMCPError x = true) /\
  handleErrors (handleErrors m) s = handleErrors m s /\
  snd (handleErrors m s) = snd (m s).
Proof.
  unfold handleErrors, try_catch, throw.
  destruct (m s) as [[a|x] s1].
  - repeat split; try reflexivity.
    + intros a' s' H. exact H.
    + intros e s' H. discriminate H.
    + intros x s' H. discriminate H.
  - repeat split; try reflexivity.
    + intros a s' H. discriminate H.
    + intros e s' H. inversion H; subst. reflexivity.
    + intros y s' H. inversion H; subst. reflexivity.
Qed.

(* ====================================================================== *)
(** ** Creating and resolving a File Store                                 *)
(* ====================================================================== *)

Section StoreCreation.

Context {World : Type} (P : Platform World).

(** The state after [this.storeId = id]. *)
Lemma setStoreId_run (id : string) (st : St World) :
  setStoreId id st
  = (Ok tt, mkSt (mkClient (apiKey (client st)) (Some id) (storeName (client st)))
              (world st) (calls st)).
Proof. reflexivity. Qed.

(** The scan of [createFileStore] for a store of that name, when the
    listing succeeds and shows none. *)
Lemma createFileStore_scan_free (dn : string) (st st1 : St World)
  (listed : list FileSearchStore) (k : unit -> M (St World) string) :
  listFileStores P 20 st = (Ok listed, st1) ->
  find (displayName_is dn) listed = None ->
  bind (bind (listFileStores P 20)
          (fun stores =>
             match find (displayName_is dn) stores with
             | Some existingStore =>
                 throw (TMCP (mkMCPError API_ERROR
                                (alreadyExistsMessage dn (name existingStore)) false None))
             | None => ret tt
             end)) k st
  = k tt st1.
Proof.
  intros Hlist Hfind. apply bind_ok.
  rewrite (bind_ok _ _ _ _ _ Hlist), Hfind. reflexivity.
Qed.

(** The creation request answered with a 2xx response and a parsable body. *)
Lemma createFileStore_post (body_displayName : option string) (c : Client)
  (st1 : St World) (response : Response FileSearchStore) (data : FileSearchStore)
  (w2 : World) :
  fetch_createStore P body_displayName (apiKey c) (world st1) = (Ok response, w2) ->
  ok response = true ->
  body response = Ok data ->
  bind (remote (CreateStore body_displayName)
          (fetch_createStore P body_displayName (apiKey c)))
    (fun response =>
       if negb (ok response) then
         throw (TMCP (mkMCPError API_ERROR
           ("Failed to create File Store: " ++ string_of_Z (status response) ++ " "
              ++ statusText response ++ " - " ++ text response)
           false None))
       else
         bind (settled (body response))
           (fun data => bind (setStoreId (name data)) (fun _ => ret (name data))))
    st1
  = (Ok (name data),
     mkSt (mkClient (apiKey (client st1)) (Some (name data)) (storeName (client st1)))
       w2 (calls st1 ++ [CreateStore body_displayName])).
Proof.
  intros Hfetch Hok Hbody.
  unfold bind at 1. unfold remote. rewrite Hfetch, Hok. simpl.
  unfold bind, settled. rewrite Hbody. reflexivity.
Qed.


End StoreCreation.

(** X10. Creating a store under a non-empty display name that the listing
    (one page of 20) does not show: after the listing, one creation request
    carrying the name is sent, and on a 2xx answer with a parsable body the
    new store's id is returned and becomes the client's store id. *)
Theorem createFileStore_creates {World : Type} (P : Platform World)
  (st st1 : St World) (dn : string) (listed : list FileSearchStore)
  (response : Response FileSearchStore) (data : FileSearchStore) (w2 : World) :
  truthy dn = true ->
  listFileStores P 20 st = (Ok listed, st1) ->
  find (displayName_is dn) listed = None ->
  fetch_createStore P (Some dn) (apiKey (client st)) (world st1) = (Ok response, w2) ->
  ok response = true ->
  body response = Ok data ->
  createFileStore P (Some dn) st
  = (Ok (name data),
     mkSt (mkClient (apiKey (client st)) (Some (name data)) (storeName (client st)))
       w2 (calls st ++ [ListStores 20; CreateStore (Some dn)])).
Proof.
  intros Hdn Hlist Hfind Hfetch Hok Hbody.
  pose proof (listFileStores_effect P 20 st) as [Hc Hl]. rewrite Hlist in Hc, Hl.
  simpl in Hc, Hl.
  unfold createFileStore. rewrite Hdn. apply handleErrors_ok.
  unfold bind at 1. unfold getClient at 1.
  rewrite (createFileStore_scan_free P dn st st1 listed _ Hlist Hfind).
  rewrite (createFileStore_post P (Some dn) (client st) st1 response data w2
             Hfetch Hok Hbody).
  rewrite Hc, Hl, <- app_assoc. reflexivity.
Qed.

Lemma createFileStore_creates_witness :
  createFileStore Sim.platform (Some "theses") Sim.fresh
  = (Ok "fileSearchStores/s1",
     mkSt (mkClient "key" (Some "fileSearchStores/s1") (Some "papers"))
       (Sim.mkWorld [Sim.papers; mkStore "fileSearchStores/s1" (Some "theses")]
          (Sim.remoteFiles Sim.world0))
       [ListStores 20; CreateStore (Some "theses")]).
Proof.
  apply (createFileStore_creates Sim.platform Sim.fresh
           (mkSt (client Sim.fresh) Sim.world0 [ListStores 20]) "theses" [Sim.papers]
           (Sim.response200 (mkStore "fileSearchStores/s1" (Some "theses")))
           (mkStore "fileSearchStores/s1" (Some "theses"))
           (Sim.mkWorld [Sim.papers; mkStore "fileSearchStores/s1" (Some "theses")]
              (Sim.remoteFiles Sim.world0)));
    reflexivity.
Defined.



(** X12. When the listing (one page of 20) shows a store whose display name
    equals the requested one exactly, [resolveStoreByDisplayName] returns
    the id of the first such store. The listing is its only request: nothing
    is created, and the client object is not changed (the caller stores the
    id). *)
Theorem resolveStoreByDisplayName_found {World : Type} (P : Platform World)
  (st st1 : St World) (dn : string) (listed : list FileSearchStore)
  (matchingStore : FileSearchStore) :
  listFileStores P 20 st = (Ok listed, st1) ->
  find (displayName_is dn) listed = Some matchingStore ->
  resolveStoreByDisplayName P dn st = (Ok (name matchingStore), st1) /\
  displayName matchingStore = Some dn /\
  In matchingStore listed /\
  client st1 = client st /\
  calls st1 = (calls st ++ [ListStores 20])%list.
Proof.
  intros Hlist Hfind.
  destruct (find_displayName_is dn listed matchingStore Hfind) as [Hin Hdn].
  pose proof (listFileStores_effect P 20 st) as [Hc Hl]. rewrite Hlist in Hc, Hl.
  repeat split; try assumption.
  unfold resolveStoreByDisplayName. apply handleErrors_ok.
  rewrite (bind_ok _ _ _ _ _ Hlist), Hfind. reflexivity.
Qed.

Lemma resolveStoreByDisplayName_found_witness :
  resolveStoreByDisplayName Sim.platform "papers" Sim.fresh
  = (Ok (name Sim.papers), mkSt (client Sim.fresh) Sim.world0 [ListStores 20]) /\
  displayName Sim.papers = Some "papers" /\
  In Sim.papers [Sim.papers] /\
  client (mkSt (client Sim.fresh) Sim.world0 [ListStores 20]) = client Sim.fresh /\
  calls (mkSt (client Sim.fresh) Sim.world0 [ListStores 20])
  = (calls Sim.fresh ++ [ListStores 20])%list.
Proof.
  apply (resolveStoreByDisplayName_found Sim.platform Sim.fresh
           (mkSt (client Sim.fresh) Sim.world0 [ListStores 20]) "papers"
           [Sim.papers] Sim.papers); reflexivity.
Defined.

(** X13. When the first listing does not show the name, resolution goes
    through [createFileStore], which lists again. If that second listing
    shows the name (another process has created the store in between),
    resolution does not return the existing id: it fails with the
    already-exists error of [createFileStore], after two listings and no
    creation request, and the client object is not changed. *)
Theorem resolveStoreByDisplayName_raced {World : Type} (P : Platform World)
  (st st1 st2 : St World) (dn : string) (listed1 listed2 : list FileSearchStore)
  (existing : FileSearchStore) :
  truthy dn = true ->
  listFileStores P 20 st = (Ok listed1, st1) ->
  find (displayName_is dn) listed1 = None ->
  listFileStores P 20 st1 = (Ok listed2, st2) ->
  find (displayName_is dn) listed2 = Some existing ->
  resolveStoreByDisplayName P dn st
  = (Throw (TMCP (mkMCPError API_ERROR (alreadyExistsMessage dn (name existing))
                    false None)), st2) /\
  client st2 = client st /\
  calls st2 = (calls st ++ [ListStores 20; ListStores 20])%list.
Proof.
  intros Hdn Hlist1 Hfind1 Hlist2 Hfind2.
  pose proof (listFileStores_effect P 20 st) as [Hc1 Hl1]. rewrite Hlist1 in Hc1, Hl1.
  pose proof (listFileStores_effect P 20 st1) as [Hc2 Hl2]. rewrite Hlist2 in Hc2, Hl2.
  simpl in *. split; [|split].
  - unfold resolveStoreByDisplayName.
    apply (handleErrors_throw _ st st2
             (TMCP (mkMCPError API_ERROR (alreadyExistsMessage dn (name existing))
                      false None))).
    rewrite (bind_ok _ _ _ _ _ Hlist1), Hfind1.
    unfold createFileStore. rewrite Hdn.
    apply (handleErrors_throw _ st1 st2
             (TMCP (mkMCPError API_ERROR (alreadyExistsMessage dn (name existing))
                      false None))).
    unfold bind at 1. unfold getClient at 1.
    apply bind_throw. rewrite (bind_ok _ _ _ _ _ Hlist2), Hfind2. reflexivity.
  - rewrite Hc2. exact Hc1.
  - rewrite Hl2, Hl1, <- app_assoc. reflexivity.
Qed.

Lemma resolveStoreByDisplayName_raced_witness :
  resolveStoreByDisplayName racingPlatform "theses" racingStart
  = (Throw (TMCP (mkMCPError API_ERROR
                    (alreadyExistsMessage "theses" (name simTheses)) false None)),
     mkSt (client racingStart) 2%nat [ListStores 20; ListStores 20]) /\
  client (mkSt (client racingStart) 2%nat [ListStores 20; ListStores 20])
  = client racingStart /\
  calls (mkSt (client racingStart) 2%nat [ListStores 20; ListStores 20])
  = (calls racingStart ++ [ListStores 20; ListStores 20])%list.
Proof.
  apply (resolveStoreByDisplayName_raced racingPlatform racingStart
           (mkSt (client racingStart) 1%nat [ListStores 20])
           (mkSt (client racingStart) 2%nat [ListStores 20; ListStores 20])
           "theses" [Sim.papers] [Sim.papers; simTheses] simTheses); reflexivity.
Defined.

(** X14. When neither listing shows the name, resolution creates the store:
    two listings and one creation request carrying the name, and on a 2xx
    answer with a parsable body the new id is returned and is already the
    client's store id when resolution returns. *)
Theorem resolveStoreByDisplayName_creates {World : Type} (P : Platform World)
  (st st1 st2 : St World) (dn : string) (listed1 listed2 : list FileSearchStore)
  (response : Response FileSearchStore) (data : FileSearchStore) (w3 : World) :
  truthy dn = true ->
  listFileStores P 20 st = (Ok listed1, st1) ->
  find (displayName_is dn) listed1 = None ->
  listFileStores P 20 st1 = (Ok listed2, st2) ->
  find (displayName_is dn) listed2 = None ->
  fetch_createStore P (Some dn) (apiKey (client st)) (world st2) = (Ok response, w3) ->
  ok response = true ->
  body response = Ok data ->
  resolveStoreByDisplayName P dn st
  = (Ok (name data),
     mkSt (withStoreId (client st) (name data)) w3
       (calls st ++ [ListStores 20; ListStores 20; CreateStore (Some dn)])).
Proof.
  intros Hdn Hlist1 Hfind1 Hlist2 Hfind2 Hfetch Hok Hbody.
  pose proof (listFileStores_effect P 20 st) as [Hc1 Hl1]. rewrite Hlist1 in Hc1, Hl1.
  pose proof (listFileStores_effect P 20 st1) as [Hc2 Hl2]. rewrite Hlist2 in Hc2, Hl2.
  simpl in *.
  unfold resolveStoreByDisplayName. apply handleErrors_ok.
  rewrite (bind_ok _ _ _ _ _ Hlist1), Hfind1.
  unfold createFileStore. rewrite Hdn. apply handleErrors_ok.
  unfold bind at 1. unfold getClient at 1.
  rewrite (createFileStore_scan_free P dn st1 st2 listed2 _ Hlist2 Hfind2).
  rewrite Hc1 in *.
  rewrite (createFileStore_post P (Some dn) (client st) st2 response data w3
             Hfetch Hok Hbody).
  unfold withStoreId. rewrite Hc2, Hl2, Hl1, <- !app_assoc. reflexivity.
Qed.

Lemma resolveStoreByDisplayName_creates_witness :
  resolveStoreByDisplayName Sim.platform "theses" Sim.fresh
  = (Ok "fileSearchStores/s1",
     mkSt (withStoreId (client Sim.fresh) "fileSearchStores/s1")
       (Sim.mkWorld [Sim.papers; mkStore "fileSearchStores/s1" (Some "theses")]
          (Sim.remoteFiles Sim.world0))
       (calls Sim.fresh ++ [ListStores 20; ListStores 20; CreateStore (Some "theses")])).
Proof.
  apply (resolveStoreByDisplayName_creates Sim.platform Sim.fresh
           (mkSt (client Sim.fresh) Sim.world0 [ListStores 20])
           (mkSt (client Sim.fresh) Sim.world0 [ListStores 20; ListStores 20])
           "theses" [Sim.papers] [Sim.papers]
           (Sim.response200 (mkStore "fileSearchStores/s1" (Some "theses")))
           (mkStore "fileSearchStores/s1" (Some "theses"))
           (Sim.mkWorld [Sim.papers; mkStore "fileSearchStores/s1" (Some "theses")]
              (Sim.remoteFiles Sim.world0)));
    reflexivity.
Defined.



(* ====================================================================== *)
(** ** Uploading a local file                                              *)
(* ====================================================================== *)

Lemma prefix_app (p q s : string) :
  String.prefix (p ++ q) s = true -> String.prefix p s = true.
Proof.
  revert s. induction p as [|a p IH]; intros s H; [destruct s; reflexivity|].
  destruct s as [|b s]; simpl in *; [discriminate H|].
  destruct (ascii_dec a b); [apply IH; exact H|discriminate H].
Qed.

(** A source that does not start with "http" is not an http(s) URL. *)
Lemma not_http_not_url (source : string) :
  startsWith source "http" = false ->
  orb (startsWith source "http://") (startsWith source "https://") = false.
Proof.
  intros H. unfold startsWith in *.
  destruct (String.prefix "http://" source) eqn:H1.
  - apply (prefix_app "http" "://") in H1. congruence.
  - destruct (String.prefix "https://" source) eqn:H2; [|reflexivity].
    apply (prefix_app "http" "s://") in H2. congruence.
Qed.

Section Upload.

Context {World : Type} (P : Platform World).

Lemma ensureLocalFile_local (st : St World) (source : string) (w1 : World) :
  orb (startsWith source "http://") (startsWith source "https://") = false ->
  fs_access P source (world st) = (Ok tt, w1) ->
  ensureLocalFile P source st = (Ok source, mkSt (client st) w1 (calls st)).
Proof.
  intros Hurl Hacc. unfold ensureLocalFile. rewrite Hurl.
  unfold try_catch, bind, local. rewrite Hacc. reflexivity.
Qed.

Lemma calculateFileHash_read (st : St World) (path : string) (content : list byte)
  (w1 : World) :
  fs_readFile P path (world st) = (Ok content, w1) ->
  calculateFileHash P path st = (Ok (fileHash content), mkSt (client st) w1 (calls st)).
Proof.
  intros Hread. unfold calculateFileHash, bind, local. rewrite Hread. reflexivity.
Qed.

(** A request that succeeds at once is sent once. *)
Lemma retry_remote_first_ok {A : Type} (c : RemoteCall) (op : M World A)
  (options : RetryOptions (St World)) (st : St World) (a : A) (w1 : World) :
  1 <= maxAttemptsOf options ->
  op (world st) = (Ok a, w1) ->
  retryWithBackoff (stRuntime P) (remote c op) options st
  = (Ok a, mkSt (client st) w1 (calls st ++ [c])).
Proof.
  intros Hmax Hop. unfold retryWithBackoff.
  destruct (Z.to_nat (maxAttemptsOf options)) as [|fuel] eqn:Hfuel; [lia|].
  apply retry_loop_success; [exact Hmax|].
  unfold remote. rewrite Hop. reflexivity.
Qed.

(** [uploadDocument] up to the answer of the upload, for a local file that
    can be read, on a client that holds a store id. *)
Lemma uploadDocument_local_run (st : St World) (id source : string)
  (metadata : option DocumentMetadata) (content : list byte) (size : Z)
  (uploaded : UploadedFile) (w1 w2 w3 w4 : World) (st5 : St World) :
  storeId (client st) = Some id ->
  truthy id = true ->
  orb (startsWith source "http://") (startsWith source "https://") = false ->
  fs_access P source (world st) = (Ok tt, w1) ->
  fs_readFile P source w1 = (Ok content, w2) ->
  fs_stat_size P source w2 = (Ok size, w3) ->
  sdk_uploadFile P source (getMimeType P (path_basename P source))
    (uploadDisplayName P source metadata) w3 = (Ok uploaded, w4) ->
  (if startsWith source "http" then
     try_catch (local (fs_unlink P source)) (fun _ => ret tt)
   else ret tt) (mkSt (client st) w4 (calls st ++ [UploadFile source]))
  = (Ok tt, st5) ->
  client st5 = client st ->
  uploadDocument P source metadata st
  = (Ok (uploadedDocument P id source metadata content size uploaded
           (date_iso P (world st5))), st5).
Proof.
  intros Hid Ht Hurl Hacc Hread Hstat Hup Hclean Hclient.
  unfold uploadDocument. apply handleErrors_ok.
  rewrite (bind_ok _ _ _ _ _ (ensureStoreId_cached P st id Hid Ht)).
  rewrite (bind_ok _ _ _ _ _ (ensureLocalFile_local st source w1 Hurl Hacc)).
  cbv zeta.
  rewrite (bind_ok _ _ _ _ _
             (calculateFileHash_read (mkSt (client st) w1 (calls st)) source content w2
                Hread)).
  assert (Hstat' : local (fs_stat_size P source) (mkSt (client st) w2 (calls st))
                   = (Ok size, mkSt (client st) w3 (calls st))).
  { unfold local. simpl. rewrite Hstat. reflexivity. }
  rewrite (bind_ok _ _ _ _ _ Hstat').
  erewrite bind_ok;
    [|apply (retry_remote_first_ok (UploadFile source) _ _
               (mkSt (client st) w3 (calls st)) uploaded w4);
      [vm_compute; discriminate|exact Hup]].
  simpl client. simpl calls.
  rewrite (bind_ok _ _ _ _ _ Hclean).
  unfold bind, getClient, getWorld, ret, uploadedDocument.
  rewrite Hclient, Hid. reflexivity.
Qed.

End Upload.

(** X16. On a client that holds a store id, uploading a readable local file
    whose path does not start with "http", when the first upload attempt
    succeeds: exactly one upload request is sent, nothing else, and the
    document returned carries the SHA-256 of the bytes read as [hash], the
    dedupe key derived from it, the base name of the path, the size from
    [fs.stat], the id and URI the service issued, and the client's store id.
    The file is uploaded under the title of the metadata when there is a
    non-empty one and under its base name otherwise. *)
Theorem uploadDocument_local_file {World : Type} (P : Platform World) (st : St World)
  (id source : string) (metadata : option DocumentMetadata) (content : list byte)
  (size : Z) (uploaded : UploadedFile) (w1 w2 w3 w4 : World) :
  storeId (client st) = Some id ->
  truthy id = true ->
  startsWith source "http" = false ->
  fs_access P source (world st) = (Ok tt, w1) ->
  fs_readFile P source w1 = (Ok content, w2) ->
  fs_stat_size P source w2 = (Ok size, w3) ->
  sdk_uploadFile P source (getMimeType P (path_basename P source))
    (uploadDisplayName P source metadata) w3 = (Ok uploaded, w4) ->
  uploadDocument P source metadata st
  = (Ok (uploadedDocument P id source metadata content size uploaded (date_iso P w4)),
     mkSt (client st) w4 (calls st ++ [UploadFile source])).
Proof.
  intros Hid Ht Hhttp Hacc Hread Hstat Hup.
  apply (uploadDocument_local_run P st id source metadata content size uploaded
           w1 w2 w3 w4 (mkSt (client st) w4 (calls st ++ [UploadFile source])));
    try assumption.
  - apply not_http_not_url. exact Hhttp.
  - rewrite Hhttp. reflexivity.
  - reflexivity.
Qed.

Lemma uploadDocument_local_file_witness :
  uploadDocument Sim.platform "/data/paper.pdf"
    (Some (mkDocumentMetadata (Some "A paper") None None (Some "10.1/x") None None))
    Sim.resolved
  = (Ok (uploadedDocument Sim.platform "fileSearchStores/abc123" "/data/paper.pdf"
           (Some (mkDocumentMetadata (Some "A paper") None None (Some "10.1/x") None None))
           [x25; x50; x44; x46] 4
           (mkUploadedFile "files/f5"
              "https://generativelanguage.googleapis.com/v1beta/files/f5"
              (Some "application/pdf"))
           "1970-01-01T00:00:00.000Z"),
     mkSt (client Sim.resolved)
       (Sim.mkWorld [Sim.papers]
          (Sim.remoteFiles Sim.world0
             ++ [mkRemoteFile "files/f5" (Some "A paper")
                   (Some "https://generativelanguage.googleapis.com/v1beta/files/f5")
                   (Some "application/pdf") None None]))
       (calls Sim.resolved ++ [UploadFile "/data/paper.pdf"])).
Proof.
  apply (uploadDocument_local_file Sim.platform Sim.resolved "fileSearchStores/abc123"
           "/data/paper.pdf"
           (Some (mkDocumentMetadata (Some "A paper") None None (Some "10.1/x") None None))
           [x25; x50; x44; x46] 4
           (mkUploadedFile "files/f5"
              "https://generativelanguage.googleapis.com/v1beta/files/f5"
              (Some "application/pdf"))
           Sim.world0 Sim.world0 Sim.world0); reflexivity.
Defined.

(** X17. The clean-up of downloads goes by [source.startsWith("http")],
    the download itself by "http://" or "https://". A local file whose path
    starts with "http" without being such a URL is therefore uploaded like
    any local file and then removed with [fs.unlink]: after a successful
    upload the machine is in the state that unlinking the source leaves,
    and a failure of the unlink is swallowed. *)
Theorem uploadDocument_unlinks_http_named_file {World : Type} (P : Platform World)
  (st : St World) (id source : string) (metadata : option DocumentMetadata)
  (content : list byte) (size : Z) (uploaded : UploadedFile) (w1 w2 w3 w4 w5 : World)
  (unlinked : Res unit) :
  storeId (client st) = Some id ->
  truthy id = true ->
  startsWith source "http" = true ->
  orb (startsWith source "http://") (startsWith source "https://") = false ->
  fs_access P source (world st) = (Ok tt, w1) ->
  fs_readFile P source w1 = (Ok content, w2) ->
  fs_stat_size P source w2 = (Ok size, w3) ->
  sdk_uploadFile P source (getMimeType P (path_basename P source))
    (uploadDisplayName P source metadata) w3 = (Ok uploaded, w4) ->
  fs_unlink P source w4 = (unlinked, w5) ->
  uploadDocument P source metadata st
  = (Ok (uploadedDocument P id source metadata content size uploaded (date_iso P w5)),
     mkSt (client st) w5 (calls st ++ [UploadFile source])).
Proof.
  intros Hid Ht Hhttp Hurl Hacc Hread Hstat Hup Hunlink.
  apply (uploadDocument_local_run P st id source metadata content size uploaded
           w1 w2 w3 w4 (mkSt (client st) w5 (calls st ++ [UploadFile source])));
    try assumption.
  - rewrite Hhttp. unfold try_catch, local. simpl. rewrite Hunlink.
    destruct unlinked as [[]|e]; reflexivity.
  - reflexivity.
Qed.

Lemma uploadDocument_unlinks_http_named_file_witness :
  uploadDocument Disk.platform "http-notes.txt" None Disk.start
  = (Ok (uploadedDocument Disk.platform "fileSearchStores/abc123" "http-notes.txt" None
           Disk.notes 2
           (mkUploadedFile "files/http-notes.txt" "https://files.example/http-notes.txt"
              (Some "text/plain"))
           "1970-01-01T00:00:00.000Z"),
     mkSt (client Disk.start) [("/data/paper.pdf", [x25; x50; x44; x46])]
       (calls Disk.start ++ [UploadFile "http-notes.txt"])).
Proof.
  apply (uploadDocument_unlinks_http_named_file Disk.platform Disk.start
           "fileSearchStores/abc123" "http-notes.txt" None Disk.notes 2
           (mkUploadedFile "files/http-notes.txt" "https://files.example/http-notes.txt"
              (Some "text/plain"))
           (world Disk.start) (world Disk.start) (world Disk.start) (world Disk.start)
           [("/data/paper.pdf", [x25; x50; x44; x46])] (Ok tt)); reflexivity.
Defined.

(* ---------------------------------------------------------------------- *)
(** *** How many requests a retried call sends                             *)

Section Requests.

Context {World : Type} (P : Platform World).

Lemma backoff_silent (delays : list Z)
  (observer : option (Z -> Thrown -> St World -> St World))
  (attempt : Z) (error : Thrown) (st : St World) :
  (forall f a e s, observer = Some f -> calls (f a e s) = calls s /\ client (f a e s) = client s) ->
  calls (backoff (stRuntime P) delays observer attempt error st) = calls st /\
  client (backoff (stRuntime P) delays observer attempt error st) = client st.
Proof.
  intros Hobs. unfold backoff, stRuntime. cbn [random sleep].
  destruct (random (runtime P) (world st)) as [r w1].
  destruct observer as [f|]; cbn [calls client].
  - destruct (Hobs f attempt error (mkSt (client st) w1 (calls st)) eq_refl) as [Hc Hk].
    exact (conj Hc Hk).
  - split; reflexivity.
Qed.

Lemma retry_loop_requests {A : Type} (c : RemoteCall) (op : M World A)
  (n : Z) (delays : list Z) (observer : option (Z -> Thrown -> St World -> St World))
  (fuel : nat) :
  (forall f a e s, observer = Some f -> calls (f a e s) = calls s /\ client (f a e s) = client s) ->
  forall (attempt : Z) (last : Thrown) (st : St World),
  exists k : nat,
    (k <= fuel)%nat /\
    ((1 <= fuel)%nat -> attempt <= n -> (1 <= k)%nat) /\
    calls (snd (retry_loop (stRuntime P) (remote c op) n delays observer
                  fuel attempt last st))
    = (calls st ++ repeat c k)%list /\
    client (snd (retry_loop (stRuntime P) (remote c op) n delays observer
                   fuel attempt last st))
    = client st.
Proof.
  intros Hobs. induction fuel as [|fuel IH]; intros attempt last st.
  - exists 0%nat. cbn. rewrite app_nil_r. repeat split; lia.
  - cbn [retry_loop]. destruct (attempt <=? n) eqn:Hle.
    + unfold try_catch, remote at 1 3. 
      destruct (op (world st)) as [[a|e] w1] eqn:Hop.
      * exists 1%nat. cbn. repeat split; lia.
      * destruct (orb (attempt =? n) (negb (isRetryable e))).
        -- exists 1%nat. cbn. repeat split; lia.
        -- destruct (backoff_silent delays observer attempt e
                       (mkSt (client st) w1 (calls st ++ [c])) Hobs) as [Hc Hk].
           destruct (IH (attempt + 1) e
                       (backoff (stRuntime P) delays observer attempt e
                          (mkSt (client st) w1 (calls st ++ [c]))))
             as (k & Hk1 & _ & Hcalls & Hclient).
           exists (S k). split; [lia|]. split; [lia|]. split.
           ++ rewrite Hcalls, Hc. cbn [calls repeat].
              rewrite <- app_assoc. reflexivity.
           ++ rewrite Hclient, Hk. reflexivity.
    + exists 0%nat. cbn. rewrite app_nil_r.
      apply Z.leb_gt in Hle. repeat split; lia.
Qed.

Lemma retryWithBackoff_requests {A : Type} (c : RemoteCall) (op : M World A)
  (options : RetryOptions (St World)) (st : St World) :
  (forall f a e s, onRetry options = Some f ->
     calls (f a e s) = calls s /\ client (f a e s) = client s) ->
  exists k : nat,
    (Z.of_nat k <= Z.max 0 (maxAttemptsOf options)) /\
    (1 <= maxAttemptsOf options -> (1 <= k)%nat) /\
    calls (snd (retryWithBackoff (stRuntime P) (remote c op) options st))
    = (calls st ++ repeat c k)%list /\
    client (snd (retryWithBackoff (stRuntime P) (remote c op) options st))
    = client st.
Proof.
  intros Hobs. unfold retryWithBackoff.
  destruct (retry_loop_requests c op (maxAttemptsOf options) (delaysOf options)
              (onRetry options) (Z.to_nat (maxAttemptsOf options)) Hobs 1 TOther st)
    as (k & Hk & Hone & Hcalls & Hclient).
  exists k. split; [lia|]. split; [intros H; apply Hone; lia|]. split; assumption.
Qed.

End Requests.

Lemma listDocuments_snd {World : Type} (P : Platform World)
  (page pageSize : Z) (st : St World) :
  snd (listDocuments P page pageSize st)
  = snd (retryWithBackoff (stRuntime P) (remote ListFiles (sdk_listFiles P)) noOptions st).
Proof.
  unfold listDocuments. rewrite handleErrors_snd. unfold bind at 1.
  destruct (retryWithBackoff (stRuntime P) (remote ListFiles (sdk_listFiles P))
              noOptions st) as [[r|e] st1]; reflexivity.
Qed.

(** X18. Listing documents costs between one and three [files.list]
    requests and no other request, whatever the service answers and whatever
    page is asked for; the client's cached store is left as it was. *)
Theorem listDocuments_requests {World : Type} (P : Platform World)
  (page pageSize : Z) (st : St World) :
  exists k : nat,
    (1 <= k <= 3)%nat /\
    calls (snd (listDocuments P page pageSize st)) = (calls st ++ repeat ListFiles k)%list /\
    client (snd (listDocuments P page pageSize st)) = client st.
Proof.
  destruct (retryWithBackoff_requests P ListFiles (sdk_listFiles P) noOptions st)
    as (k & Hk & Hone & Hcalls & Hclient).
  { intros f a e s Hf. discriminate Hf. }
  exists k. split.
  { change (maxAttemptsOf (@noOptions (St World))) with 3 in Hk, Hone.
    split; [apply Hone; lia | lia]. }
  rewrite listDocuments_snd. split; assumption.
Qed.

Section UploadRequests.

Context {World : Type} (P : Platform World).

(** What follows the upload in [uploadDocument] sends nothing. *)
Lemma bind_quiet {A B : Type} (m : M (St World) A) (k : A -> M (St World) B)
  (st : St World) :
  (forall a s, calls (snd (k a s)) = calls s) ->
  calls (snd (bind m k st)) = calls (snd (m st)).
Proof.
  intros Hk. unfold bind. destruct (m st) as [[a|e] s1]; [apply Hk|reflexivity].
Qed.

Lemma uploadDocument_requests (st : St World) (id source : string)
  (metadata : option DocumentMetadata) (content : list byte) (size : Z)
  (w1 w2 w3 : World) :
  storeId (client st) = Some id ->
  truthy id = true ->
  orb (startsWith source "http://") (startsWith source "https://") = false ->
  fs_access P source (world st) = (Ok tt, w1) ->
  fs_readFile P source w1 = (Ok content, w2) ->
  fs_stat_size P source w2 = (Ok size, w3) ->
  exists k : nat,
    (1 <= k <= 3)%nat /\
    calls (snd (uploadDocument P source metadata st))
    = (calls st ++ repeat (UploadFile source) k)%list.
Proof.
  intros Hid Ht Hurl Hacc Hread Hstat.
  destruct (retryWithBackoff_requests P (UploadFile source)
              (sdk_uploadFile P source (getMimeType P (path_basename P source))
                 (uploadDisplayName P source metadata))
              (mkRetryOptions (Some 3) None (Some (fun _ _ st => st)))
              (mkSt (client st) w3 (calls st)))
    as (k & Hk & Hone & Hcalls & _).
  { intros f a e s Hf. injection Hf as <-. split; reflexivity. }
  exists k. split.
  { change (maxAttemptsOf _) with 3 in Hk, Hone. split; [apply Hone; lia | lia]. }
  unfold uploadDocument. rewrite handleErrors_snd.
  rewrite (bind_ok _ _ _ _ _ (ensureStoreId_cached P st id Hid Ht)).
  rewrite (bind_ok _ _ _ _ _ (ensureLocalFile_local P st source w1 Hurl Hacc)).
  cbv zeta.
  rewrite (bind_ok _ _ _ _ _
             (calculateFileHash_read P (mkSt (client st) w1 (calls st)) source content w2
                Hread)).
  assert (Hstat' : local (fs_stat_size P source) (mkSt (client st) w2 (calls st))
                   = (Ok size, mkSt (client st) w3 (calls st))).
  { unfold local. simpl. rewrite Hstat. reflexivity. }
  rewrite (bind_ok _ _ _ _ _ Hstat').
  rewrite bind_quiet; [exact Hcalls|].
  intros uploadResponse s. unfold bind, getClient, getWorld, ret, try_catch, local.
  destruct (startsWith source "http"); [|reflexivity].
  destruct (fs_unlink P source (world s)) as [[[]|e] w5]; reflexivity.
Qed.

End UploadRequests.

(** X19. The add-document tool on a client that holds a store id, given a
    local file that can be read: whatever the service does with the upload,
    between one and three upload requests for that file are sent and no
    other request, in particular none that lists or creates stores. *)
Theorem addDocument_upload_attempts {World : Type} (P : Platform World) (st : St World)
  (id source : string) (metadata : option DocumentMetadata) (content : list byte)
  (size : Z) (w1 w2 w3 : World) :
  storeId (client st) = Some id ->
  truthy id = true ->
  orb (startsWith source "http://") (startsWith source "https://") = false ->
  fs_access P source (world st) = (Ok tt, w1) ->
  fs_readFile P source w1 = (Ok content, w2) ->
  fs_stat_size P source w2 = (Ok size, w3) ->
  exists k : nat,
    (1 <= k <= 3)%nat /\
    calls (snd (addDocument P source metadata st))
    = (calls st ++ repeat (UploadFile source) k)%list.
Proof.
  intros Hid Ht Hurl Hacc Hread Hstat.
  destruct (uploadDocument_requests P st id source metadata content size w1 w2 w3
              Hid Ht Hurl Hacc Hread Hstat) as (k & Hk & Hcalls).
  exists k. split; [exact Hk|].
  unfold addDocument. rewrite handleErrors_snd.
  rewrite bind_quiet; [exact Hcalls|]. intros a s. reflexivity.
Qed.

Lemma addDocument_upload_attempts_witness :
  exists k : nat,
    (1 <= k <= 3)%nat /\
    calls (snd (addDocument Sim.platform "/data/paper.pdf" None Sim.resolved))
    = (calls Sim.resolved ++ repeat (UploadFile "/data/paper.pdf") k)%list.
Proof.
  apply (addDocument_upload_attempts Sim.platform Sim.resolved "fileSearchStores/abc123"
           "/data/paper.pdf" None [x25; x50; x44; x46] 4
           Sim.world0 Sim.world0 Sim.world0); reflexivity.
Defined.

(* ====================================================================== *)
(** ** Uploading from a URL                                                *)
(* ====================================================================== *)

(** An http(s) URL starts with "http". *)
Lemma url_is_http (source : string) :
  orb (startsWith source "http://") (startsWith source "https://") = true ->
  startsWith source "http" = true.
Proof.
  intros H. unfold startsWith in *. apply orb_true_iff in H. destruct H as [H|H].
  - exact (prefix_app "http" "://" source H).
  - exact (prefix_app "http" "s://" source H).
Qed.

Section Download.

Context {World : Type} (P : Platform World).

Lemma downloadFile_refused (st : St World) (url : string)
  (fetched : Res (Response (list byte))) (w1 : World) :
  fetch_url P url (world st) = (fetched, w1) ->
  match fetched with Ok response => ok response = false | Throw _ => True end ->
  downloadFile P url st
  = (Throw (TMCP (match fetched with
                  | Ok response => downloadFailed response
                  | Throw x => parseGeminiError x
                  end)),
     mkSt (client st) w1 (calls st ++ [Download url])).
Proof.
  intros Hfetch Hbad. unfold downloadFile.
  destruct fetched as [response|x].
  - apply (handleErrors_throw _ st _ (TMCP (downloadFailed response))).
    unfold bind, remote. rewrite Hfetch, Hbad. reflexivity.
  - apply handleErrors_throw. unfold bind, remote. rewrite Hfetch. reflexivity.
Qed.

Lemma downloadFile_saved (st : St World) (url urlPath tempDir : string)
  (response : Response (list byte)) (buffer : list byte) (w1 w2 w3 : World) :
  fetch_url P url (world st) = (Ok response, w1) ->
  ok response = true ->
  fs_mkdtemp P (path_join P "/tmp" "mcp-gemini-") w1 = (Ok tempDir, w2) ->
  url_pathname P url = Ok urlPath ->
  body response = Ok buffer ->
  fs_writeFile P
    (path_join P tempDir (downloadedName P urlPath (contentType response) (date_now P w2)))
    buffer w2 = (Ok tt, w3) ->
  downloadFile P url st
  = (Ok (path_join P tempDir
           (downloadedName P urlPath (contentType response) (date_now P w2))),
     mkSt (client st) w3 (calls st ++ [Download url])).
Proof.
  intros Hfetch Hok Hdir Hpath Hbody Hwrite. unfold downloadFile.
  apply handleErrors_ok.
  unfold bind at 1. unfold remote. rewrite Hfetch, Hok. cbn [negb].
  unfold bind at 1. unfold local. cbn [world client calls]. rewrite Hdir.
  assert (Hname : extractFileName P url (contentType response)
                    (mkSt (client st) w2 (calls st ++ [Download url]))
                  = (Ok (downloadedName P urlPath (contentType response) (date_now P w2)),
                     mkSt (client st) w2 (calls st ++ [Download url]))).
  { unfold extractFileName, downloadedName, bind, settled. rewrite Hpath.
    destruct (andb _ _); reflexivity. }
  rewrite (bind_ok _ _ _ _ _ Hname). cbv zeta.
  unfold bind, settled. rewrite Hbody. cbn [world client calls]. rewrite Hwrite.
  reflexivity.
Qed.

(** [uploadDocument] once the source is on disk, hashed and measured. *)
Lemma uploadDocument_prepared (st st1 : St World) (id source localPath : string)
  (metadata : option DocumentMetadata) (content : list byte) (size : Z)
  (w2 w3 : World) :
  storeId (client st) = Some id ->
  truthy id = true ->
  ensureLocalFile P source st = (Ok localPath, st1) ->
  fs_readFile P localPath (world st1) = (Ok content, w2) ->
  fs_stat_size P localPath w2 = (Ok size, w3) ->
  uploadDocument P source metadata st
  = handleErrors (uploadTail P source localPath metadata (fileHash content) size)
      (mkSt (client st1) w3 (calls st1)).
Proof.
  intros Hid Ht Hlocal Hread Hstat.
  unfold uploadDocument, handleErrors, try_catch.
  rewrite (bind_ok _ _ _ _ _ (ensureStoreId_cached P st id Hid Ht)).
  rewrite (bind_ok _ _ _ _ _ Hlocal). cbv zeta.
  rewrite (bind_ok _ _ _ _ _ (calculateFileHash_read P st1 localPath content w2 Hread)).
  assert (Hstat' : local (fs_stat_size P localPath) (mkSt (client st1) w2 (calls st1))
                   = (Ok size, mkSt (client st1) w3 (calls st1))).
  { unfold local. simpl. rewrite Hstat. reflexivity. }
  rewrite (bind_ok _ _ _ _ _ Hstat'). reflexivity.
Qed.

Lemma uploadTail_uploaded (st : St World) (source localPath : string)
  (metadata : option DocumentMetadata) (content : list byte) (size : Z)
  (uploaded : UploadedFile) (unlinked : Res unit) (w4 w5 : World) :
  startsWith source "http" = true ->
  sdk_uploadFile P localPath (getMimeType P (path_basename P localPath))
    (uploadDisplayName P localPath metadata) (world st) = (Ok uploaded, w4) ->
  fs_unlink P localPath w4 = (unlinked, w5) ->
  uploadTail P source localPath metadata (fileHash content) size st
  = (Ok (uploadedDocument P
           (match storeId (client st) with Some id => id | None => EmptyString end)
           localPath metadata content size uploaded (date_iso P w5)),
     mkSt (client st) w5 (calls st ++ [UploadFile localPath])).
Proof.
  intros Hhttp Hup Hunlink. unfold uploadTail.
  erewrite bind_ok;
    [|apply (retry_remote_first_ok P (UploadFile localPath) _ _ st uploaded w4);
      [vm_compute; discriminate|exact Hup]].
  rewrite Hhttp.
  unfold bind, try_catch, local, getClient, getWorld, ret. cbn [world client calls].
  rewrite Hunlink. destruct unlinked as [[]|e]; reflexivity.
Qed.

Lemma uploadTail_rejected (st : St World) (source localPath : string)
  (metadata : option DocumentMetadata) (hash : string) (size : Z)
  (x : Thrown) (w4 : World) :
  sdk_uploadFile P localPath (getMimeType P (path_basename P localPath))
    (uploadDisplayName P localPath metadata) (world st) = (Throw x, w4) ->
  isRetryable x = false ->
  uploadTail P source localPath metadata hash size st
  = (Throw x, mkSt (client st) w4 (calls st ++ [UploadFile localPath])).
Proof.
  intros Hup Hx. unfold uploadTail.
  apply bind_throw. unfold retryWithBackoff.
  change (Z.to_nat (maxAttemptsOf _)) with 3%nat.
  apply retry_loop_not_retryable; [vm_compute; discriminate| |exact Hx].
  unfold remote. unfold uploadDisplayName in Hup. rewrite Hup. reflexivity.
Qed.

End Download.

(** X20. Adding a document from an http(s) URL whose download does not
    succeed, on a client that holds a store id: when the response is not
    2xx the tool throws [DOWNLOAD_FAILED] with the status and status text
    in the message and [retryable] false; when [fetch] itself rejects, it
    throws the classification of that rejection. Either way the download
    was requested once, it is not retried, and nothing is uploaded. *)
Theorem addDocument_download_refused {World : Type} (P : Platform World) (st : St World)
  (id source : string) (metadata : option DocumentMetadata)
  (fetched : Res (Response (list byte))) (w1 : World) :
  storeId (client st) = Some id ->
  truthy id = true ->
  orb (startsWith source "http://") (startsWith source "https://") = true ->
  fetch_url P source (world st) = (fetched, w1) ->
  match fetched with Ok response => ok response = false | Throw _ => True end ->
  addDocument P source metadata st
  = (Throw (TMCP (match fetched with
                  | Ok response => downloadFailed response
                  | Throw x => parseGeminiError x
                  end)),
     mkSt (client st) w1 (calls st ++ [Download source])).
Proof.
  intros Hid Ht Hurl Hfetch Hbad.
  unfold addDocument.
  apply (handleErrors_throw _ st _ (TMCP _)).
  apply bind_throw. unfold uploadDocument.
  apply (handleErrors_throw _ st _ (TMCP _)).
  rewrite (bind_ok _ _ _ _ _ (ensureStoreId_cached P st id Hid Ht)).
  apply bind_throw. unfold ensureLocalFile. rewrite Hurl.
  apply downloadFile_refused; assumption.
Qed.

Lemma addDocument_download_refused_witness :
  addDocument Sim.platform "https://example.org/paper.pdf" None Sim.resolved
  = (Throw (TMCP (mkMCPError DOWNLOAD_FAILED "Failed to download file: 404 Not Found"
                    false None)),
     mkSt (client Sim.resolved) Sim.world0
       (calls Sim.resolved ++ [Download "https://example.org/paper.pdf"])).
Proof.
  apply (addDocument_download_refused Sim.platform Sim.resolved "fileSearchStores/abc123"
           "https://example.org/paper.pdf" None (Ok Sim.response404) Sim.world0);
    reflexivity.
Defined.

(** A content type that names a property every object inherits ends up
    in the file name in the text form of that property. *)
Example downloadedName_inherited :
  downloadedName Disk.platform "/" (Some "constructor") 0
  = "download_0.function Object() { [native code] }" /\
  downloadedName Disk.platform "/" (Some "image/png") 0 = "download_0.bin" /\
  downloadedName Disk.platform "/a.txt" (Some "constructor") 0 = "a.txt".
Proof. repeat split. Qed.

(** X21. Uploading from an http(s) URL on a client that holds a store id,
    when the download and the first upload attempt succeed: the body is
    written to a file in a fresh directory under /tmp, named after the last
    segment of the URL's path (or [download_<now>.<ext>] when there is
    none, [<ext>] being what the lookup of the content type in [mimeMap]
    gives, or "bin"); that file is what is hashed, measured and uploaded, and it is
    removed with [fs.unlink] afterwards, a failure of which is ignored. Two
    requests are sent: the download, then the upload. The temporary
    directory itself is not removed. *)
Theorem uploadDocument_url {World : Type} (P : Platform World) (st : St World)
  (id source urlPath tempDir : string) (metadata : option DocumentMetadata)
  (response : Response (list byte)) (buffer content : list byte) (size : Z)
  (uploaded : UploadedFile) (unlinked : Res unit) (w1 w2 w3 w4 w5 w6 w7 : World) :
  let tempPath :=
    path_join P tempDir (downloadedName P urlPath (contentType response) (date_now P w2)) in
  storeId (client st) = Some id ->
  truthy id = true ->
  orb (startsWith source "http://") (startsWith source "https://") = true ->
  fetch_url P source (world st) = (Ok response, w1) ->
  ok response = true ->
  fs_mkdtemp P (path_join P "/tmp" "mcp-gemini-") w1 = (Ok tempDir, w2) ->
  url_pathname P source = Ok urlPath ->
  body response = Ok buffer ->
  fs_writeFile P tempPath buffer w2 = (Ok tt, w3) ->
  fs_readFile P tempPath w3 = (Ok content, w4) ->
  fs_stat_size P tempPath w4 = (Ok size, w5) ->
  sdk_uploadFile P tempPath (getMimeType P (path_basename P tempPath))
    (uploadDisplayName P tempPath metadata) w5 = (Ok uploaded, w6) ->
  fs_unlink P tempPath w6 = (unlinked, w7) ->
  uploadDocument P source metadata st
  = (Ok (uploadedDocument P id tempPath metadata content size uploaded (date_iso P w7)),
     mkSt (client st) w7 (calls st ++ [Download source; UploadFile tempPath])).
Proof.
  intros tempPath Hid Ht Hurl Hfetch Hok Hdir Hpath Hbody Hwrite Hread Hstat Hup Hunlink.
  assert (Hlocal : ensureLocalFile P source st
                   = (Ok tempPath, mkSt (client st) w3 (calls st ++ [Download source]))).
  { unfold ensureLocalFile. rewrite Hurl.
    apply (downloadFile_saved P st source urlPath tempDir response buffer w1 w2 w3);
      assumption. }
  rewrite (uploadDocument_prepared P st _ id source tempPath metadata content size w4 w5
             Hid Ht Hlocal Hread Hstat).
  apply handleErrors_ok. cbn [client calls world].
  rewrite (uploadTail_uploaded P (mkSt (client st) w5 (calls st ++ [Download source]))
             source tempPath metadata content size uploaded
             unlinked w6 w7 (url_is_http source Hurl) Hup Hunlink).
  cbn [client calls]. rewrite Hid, <- app_assoc. reflexivity.
Qed.

Lemma uploadDocument_url_witness :
  uploadDocument Disk.platform "https://example.org/a.txt" None Disk.start
  = (Ok (uploadedDocument Disk.platform "fileSearchStores/abc123"
           "/tmp/mcp-gemini-000000/a.txt" None [x68; x69] 2
           (mkUploadedFile "files/a.txt" "https://files.example/a.txt" (Some "text/plain"))
           "1970-01-01T00:00:00.000Z"),
     mkSt (client Disk.start) (world Disk.start)
       (calls Disk.start
          ++ [Download "https://example.org/a.txt";
              UploadFile "/tmp/mcp-gemini-000000/a.txt"])).
Proof.
  apply (uploadDocument_url Disk.platform Disk.start "fileSearchStores/abc123"
           "https://example.org/a.txt" "/a.txt" "/tmp/mcp-gemini-000000" None
           (Sim.response200 [x68; x69]) [x68; x69] [x68; x69] 2
           (mkUploadedFile "files/a.txt" "https://files.example/a.txt" (Some "text/plain"))
           (Ok tt)
           (world Disk.start) (world Disk.start)
           (("/tmp/mcp-gemini-000000/a.txt", [x68; x69]) :: world Disk.start)
           (("/tmp/mcp-gemini-000000/a.txt", [x68; x69]) :: world Disk.start)
           (("/tmp/mcp-gemini-000000/a.txt", [x68; x69]) :: world Disk.start)
           (("/tmp/mcp-gemini-000000/a.txt", [x68; x69]) :: world Disk.start)
           (world Disk.start)); reflexivity.
Defined.

(** X22. The clean-up runs only after a successful upload. When the file
    was downloaded from an http(s) URL and the service rejects the upload
    with an error that is not retried, [uploadDocument] throws the
    classification of that error after one upload request, and the machine
    is left as the rejected upload left it: the downloaded copy is not
    unlinked. *)
Theorem uploadDocument_url_rejected {World : Type} (P : Platform World) (st : St World)
  (id source urlPath tempDir : string) (metadata : option DocumentMetadata)
  (response : Response (list byte)) (buffer content : list byte) (size : Z)
  (x : Thrown) (w1 w2 w3 w4 w5 w6 : World) :
  let tempPath :=
    path_join P tempDir (downloadedName P urlPath (contentType response) (date_now P w2)) in
  storeId (client st) = Some id ->
  truthy id = true ->
  orb (startsWith source "http://") (startsWith source "https://") = true ->
  fetch_url P source (world st) = (Ok response, w1) ->
  ok response = true ->
  fs_mkdtemp P (path_join P "/tmp" "mcp-gemini-") w1 = (Ok tempDir, w2) ->
  url_pathname P source = Ok urlPath ->
  body response = Ok buffer ->
  fs_writeFile P tempPath buffer w2 = (Ok tt, w3) ->
  fs_readFile P tempPath w3 = (Ok content, w4) ->
  fs_stat_size P tempPath w4 = (Ok size, w5) ->
  sdk_uploadFile P tempPath (getMimeType P (path_basename P tempPath))
    (uploadDisplayName P tempPath metadata) w5 = (Throw x, w6) ->
  isRetryable x = false ->
  uploadDocument P source metadata st
  = (Throw (TMCP (parseGeminiError x)),
     mkSt (client st) w6 (calls st ++ [Download source; UploadFile tempPath])).
Proof.
  intros tempPath Hid Ht Hurl Hfetch Hok Hdir Hpath Hbody Hwrite Hread Hstat Hup Hx.
  assert (Hlocal : ensureLocalFile P source st
                   = (Ok tempPath, mkSt (client st) w3 (calls st ++ [Download source]))).
  { unfold ensureLocalFile. rewrite Hurl.
    apply (downloadFile_saved P st source urlPath tempDir response buffer w1 w2 w3);
      assumption. }
  rewrite (uploadDocument_prepared P st _ id source tempPath metadata content size w4 w5
             Hid Ht Hlocal Hread Hstat).
  apply handleErrors_throw. cbn [client calls world].
  rewrite (uploadTail_rejected P (mkSt (client st) w5 (calls st ++ [Download source]))
             source tempPath metadata (fileHash content) size x w6 Hup Hx).
  cbn [client calls]. rewrite <- app_assoc. reflexivity.
Qed.

Lemma uploadDocument_url_rejected_witness :
  uploadDocument Disk.platform "https://example.org/blob.bin" None Disk.start
  = (Throw (TMCP (mkMCPError INVALID_FILE_TYPE "Unsupported file type" false
                    (Some [("original_error", "Unsupported file type"); ("name", "Error")]))),
     mkSt (client Disk.start)
       (("/tmp/mcp-gemini-000000/blob.bin", [x68; x69]) :: world Disk.start)
       (calls Disk.start
          ++ [Download "https://example.org/blob.bin";
              UploadFile "/tmp/mcp-gemini-000000/blob.bin"])).
Proof.
  apply (uploadDocument_url_rejected Disk.platform Disk.start "fileSearchStores/abc123"
           "https://example.org/blob.bin" "/blob.bin" "/tmp/mcp-gemini-000000" None
           (Sim.response200 [x68; x69]) [x68; x69] [x68; x69] 2
           (TError "Error" "Unsupported file type" None)
           (world Disk.start) (world Disk.start)
           (("/tmp/mcp-gemini-000000/blob.bin", [x68; x69]) :: world Disk.start)
           (("/tmp/mcp-gemini-000000/blob.bin", [x68; x69]) :: world Disk.start)
           (("/tmp/mcp-gemini-000000/blob.bin", [x68; x69]) :: world Disk.start));
    reflexivity.
Defined.

(* ====================================================================== *)
(** ** Search, passages, deletion, health check                            *)
(* ====================================================================== *)

Lemma codeUnits_continuation (n : N) :
  (n < 64)%N -> codeUnits (ascii_of_N (128 + n)) = 0%nat.
Proof.
  intros Hn. unfold codeUnits, isContinuation.
  rewrite N_ascii_embedding by lia.
  replace (128 <=? 128 + n)%N with true by (symmetry; apply N.leb_le; lia).
  replace (128 + n <? 192)%N with true by (symmetry; apply N.ltb_lt; lia).
  reflexivity.
Qed.

(** Half a surrogate pair is one code unit. *)
Lemma highSurrogate_length (b0 : ascii) (rest : string) :
  (utf16Length (highSurrogate b0 rest) <= 1)%nat.
Proof.
  unfold highSurrogate.
  destruct rest as [|b1 [|b2 [|b3 rest]]]; cbn [utf16Length]; try lia.
  set (codePoint := ((N_of_ascii b0 mod 8) * 262144 + (N_of_ascii b1 mod 64) * 4096
                     + (N_of_ascii b2 mod 64) * 64 + N_of_ascii b3 mod 64)%N).
  set (unit := (55296 + (codePoint - 65536) / 1024)%N).
  assert (Hcp : (codePoint < 2097152)%N).
  { unfold codePoint.
    pose proof (N.mod_upper_bound (N_of_ascii b0) 8 ltac:(discriminate)).
    pose proof (N.mod_upper_bound (N_of_ascii b1) 64 ltac:(discriminate)).
    pose proof (N.mod_upper_bound (N_of_ascii b2) 64 ltac:(discriminate)).
    pose proof (N.mod_upper_bound (N_of_ascii b3) 64 ltac:(discriminate)).
    lia. }
  assert (Hunit : (55296 <= unit < 57344)%N).
  { unfold unit. split; [apply N.le_add_r|].
    assert ((codePoint - 65536) / 1024 < 2048)%N
      by (apply N.Div0.div_lt_upper_bound; lia).
    lia. }
  assert (Hlead : (unit / 4096 = 13)%N).
  { symmetry. apply (N.div_unique unit 4096 13 (unit - 53248)); lia. }
  rewrite Hlead.
  rewrite !codeUnits_continuation by (apply N.mod_upper_bound; discriminate).
  change (codeUnits (ascii_of_N (224 + 13))) with 1%nat. lia.
Qed.

(** [s.substring(0, n).length <= n]. *)
Lemma substringTo_length (n : nat) (s : string) :
  (utf16Length (substringTo n s) <= n)%nat.
Proof.
  revert n. induction s as [|b rest IH]; intros n; cbn [substringTo utf16Length]; [lia|].
  destruct (codeUnits b) as [|[|u]] eqn:Hb.
  - cbn [utf16Length]. rewrite Hb. apply IH.
  - destruct n as [|n']; cbn [utf16Length]; [lia|]. rewrite Hb.
    specialize (IH n'). lia.
  - destruct n as [|[|n']]; cbn [utf16Length]; [lia| |].
    + apply highSurrogate_length.
    + rewrite Hb. specialize (IH n').
      assert (u = 0%nat).
      { unfold codeUnits in Hb. destruct (isContinuation b); [discriminate|].
        destruct (240 <=? N_of_ascii b)%N; inversion Hb; reflexivity. }
      subst u. lia.
Qed.

(** A string of ASCII characters is cut at [n] characters. *)
Lemma substringTo_ascii (n : nat) (s : string) :
  isAscii s = true -> substringTo n s = substring 0 n s.
Proof.
  revert n. induction s as [|b rest IH]; intros n Hs; [destruct n; reflexivity|].
  cbn [isAscii] in Hs. apply andb_true_iff in Hs. destruct Hs as [Hb Hrest].
  apply Nat.ltb_lt in Hb.
  assert (HN : (N_of_ascii b < 128)%N).
  { unfold nat_of_ascii in Hb. lia. }
  assert (Hunits : codeUnits b = 1%nat).
  { unfold codeUnits, isContinuation.
    replace (128 <=? N_of_ascii b)%N with false by (symmetry; apply N.leb_gt; lia).
    replace (240 <=? N_of_ascii b)%N with false by (symmetry; apply N.leb_gt; lia).
    reflexivity. }
  cbn [substringTo]. rewrite Hunits.
  destruct n as [|n']; [reflexivity|]. cbn [substring]. rewrite IH by exact Hrest.
  reflexivity.
Qed.

(** Two hundred Hangul syllables, three bytes each, are two hundred code
    units: [substring(0, 500)] returns them all. The last of five hundred
    code units of an answer can be half an emoji. *)
Example substringTo_counts_code_units :
  let syllable := String (ascii_of_N 237) (String (ascii_of_N 149)
                    (String (ascii_of_N 156) EmptyString)) in
  let emoji := String (ascii_of_N 240) (String (ascii_of_N 159)
                 (String (ascii_of_N 152) (String (ascii_of_N 128) EmptyString))) in
  substringTo 500 (repeatString 200 syllable) = repeatString 200 syllable /\
  String.length (repeatString 200 syllable) = 600%nat /\
  substringTo 500 (repeatString 499 "a" ++ emoji)
  = repeatString 499 "a"
      ++ String (ascii_of_N 237) (String (ascii_of_N 160)
           (String (ascii_of_N 189) EmptyString)).
Proof. vm_compute. repeat split. Qed.

(** [files.slice(0, Math.min(files.length, 10))] is the first ten files. *)
Lemma js_slice_first_ten {A : Type} (l : list A) :
  js_slice l 0 (Z.min (Z.of_nat (List.length l)) 10) = firstn 10 l.
Proof.
  unfold js_slice. cbv zeta.
  replace (0 <? 0) with false by reflexivity.
  destruct (Z.min (Z.of_nat (List.length l)) 10 <? 0) eqn:Hneg;
    [apply Z.ltb_lt in Hneg; lia|].
  replace (Z.min 0 (Z.of_nat (List.length l))) with 0 by lia.
  change (skipn (Z.to_nat 0) l) with l.
  destruct (Z.le_ge_cases (Z.of_nat (List.length l)) 10) as [Hle|Hge].
  - replace (Z.to_nat (Z.min (Z.min (Z.of_nat (List.length l)) 10)
                         (Z.of_nat (List.length l)) - 0))
      with (List.length l) by lia.
    rewrite firstn_all. symmetry. apply firstn_all2. lia.
  - replace (Z.to_nat (Z.min (Z.min (Z.of_nat (List.length l)) 10)
                         (Z.of_nat (List.length l)) - 0))
      with 10%nat by lia.
    reflexivity.
Qed.

Section SessionRequests.

Context {World : Type} (P : Platform World).

Lemma ask_first_ok {A : Type} (c : SdkCall) (op : M World A) (s : Session World)
  (a : A) (w1 : World) :
  op (world (process s)) = (Ok a, w1) ->
  retryWithBackoff (sessionRuntime P) (ask c op) noOptions s
  = (Ok a, mkSession (mkSt (client (process s)) w1 (calls (process s)))
             (asked s ++ [c])).
Proof.
  intros Hop. unfold retryWithBackoff.
  change (Z.to_nat (maxAttemptsOf _)) with 3%nat.
  apply retry_loop_success; [vm_compute; discriminate|].
  unfold ask. rewrite Hop. reflexivity.
Qed.

Lemma session_backoff_silent (ds : list Z) (attempt : Z) (error : Thrown)
  (s : Session World) :
  asked (backoff (sessionRuntime P) ds None attempt error s) = asked s /\
  calls (process (backoff (sessionRuntime P) ds None attempt error s))
  = calls (process s) /\
  client (process (backoff (sessionRuntime P) ds None attempt error s))
  = client (process s).
Proof.
  unfold backoff, sessionRuntime, stRuntime. cbn [random sleep].
  destruct (random (runtime P) (world (process s))) as [r w1].
  repeat split; reflexivity.
Qed.

Lemma session_loop_requests {A : Type} (c : SdkCall) (op : M World A)
  (n : Z) (ds : list Z) (fuel : nat) :
  forall (attempt : Z) (last : Thrown) (s : Session World),
  exists k : nat,
    (k <= fuel)%nat /\
    ((1 <= fuel)%nat -> attempt <= n -> (1 <= k)%nat) /\
    asked (snd (retry_loop (sessionRuntime P) (ask c op) n ds None fuel attempt last s))
    = (asked s ++ repeat c k)%list /\
    calls (process (snd (retry_loop (sessionRuntime P) (ask c op) n ds None
                           fuel attempt last s)))
    = calls (process s) /\
    client (process (snd (retry_loop (sessionRuntime P) (ask c op) n ds None
                            fuel attempt last s)))
    = client (process s).
Proof.
  induction fuel as [|fuel IH]; intros attempt last s.
  - exists 0%nat. cbn. rewrite app_nil_r. repeat split; lia.
  - cbn [retry_loop]. destruct (attempt <=? n) eqn:Hle.
    + unfold try_catch, ask at 1 3 5.
      destruct (op (world (process s))) as [[a|e] w1] eqn:Hop.
      * exists 1%nat. cbn. repeat split; lia.
      * destruct (orb (attempt =? n) (negb (isRetryable e))).
        -- exists 1%nat. cbn. repeat split; lia.
        -- destruct (session_backoff_silent ds attempt e
                       (mkSession (mkSt (client (process s)) w1 (calls (process s)))
                          (asked s ++ [c]))) as (Ha & Hc & Hk).
           destruct (IH (attempt + 1) e
                       (backoff (sessionRuntime P) ds None attempt e
                          (mkSession (mkSt (client (process s)) w1 (calls (process s)))
                             (asked s ++ [c]))))
             as (k & Hk1 & _ & Hasked & Hcalls & Hclient).
           exists (S k). split; [lia|]. split; [lia|]. split; [|split].
           ++ rewrite Hasked, Ha. cbn [asked repeat].
              rewrite <- app_assoc. reflexivity.
           ++ rewrite Hcalls, Hc. reflexivity.
           ++ rewrite Hclient, Hk. reflexivity.
    + exists 0%nat. cbn. rewrite app_nil_r.
      apply Z.leb_gt in Hle. repeat split; lia.
Qed.

(** A request under the default retry policy is sent one to three times,
    and nothing else is. *)
Lemma ask_requests {A : Type} (c : SdkCall) (op : M World A) (s : Session World) :
  exists k : nat,
    (1 <= k <= 3)%nat /\
    asked (snd (retryWithBackoff (sessionRuntime P) (ask c op) noOptions s))
    = (asked s ++ repeat c k)%list /\
    calls (process (snd (retryWithBackoff (sessionRuntime P) (ask c op) noOptions s)))
    = calls (process s) /\
    client (process (snd (retryWithBackoff (sessionRuntime P) (ask c op) noOptions s)))
    = client (process s).
Proof.
  unfold retryWithBackoff.
  destruct (session_loop_requests c op (maxAttemptsOf (@noOptions (Session World)))
              (delaysOf (@noOptions (Session World))) 3 1 TOther s)
    as (k & Hk & Hone & H).
  exists k. split; [split; [apply Hone; [lia|vm_compute; discriminate]|exact Hk]|].
  exact H.
Qed.

End SessionRequests.

Section Search.

Context {World : Type} (P : Platform World) (K : Sdk World).

Lemma generate_first_ok (parts : list Part) (s : Session World) (text : string)
  (w1 : World) :
  model_generateContent K parts (world (process s)) = (Ok (Ok text), w1) ->
  generate P K parts s
  = (Ok text, mkSession (mkSt (client (process s)) w1 (calls (process s)))
                (asked s ++ [GenerateContent parts])).
Proof.
  intros Hgen. unfold generate.
  rewrite (bind_ok _ _ _ _ _
             (ask_first_ok P (GenerateContent parts) _ s (Ok text) w1 Hgen)).
  reflexivity.
Qed.

Lemma generate_requests (parts : list Part) (s : Session World) :
  exists k : nat,
    (1 <= k <= 3)%nat /\
    asked (snd (generate P K parts s)) = (asked s ++ repeat (GenerateContent parts) k)%list /\
    calls (process (snd (generate P K parts s))) = calls (process s).
Proof.
  destruct (ask_requests P (GenerateContent parts) (model_generateContent K parts) s)
    as (k & Hk & Hasked & Hcalls & _).
  exists k. split; [exact Hk|]. unfold generate, bind.
  destruct (retryWithBackoff (sessionRuntime P)
              (ask (GenerateContent parts) (model_generateContent K parts)) noOptions s)
    as [[response|e] s1]; cbn [snd] in *; split; assumption.
Qed.

Lemma passagesLoop_spans (file : RemoteFile) (pageSpans : list PageSpan) :
  forall (passages result : list Passage) (s s' : Session World),
  passagesLoop P K file pageSpans passages s = (Ok result, s') ->
  map (fun p => (page_start p, page_end p)) result
  = (map (fun p => (page_start p, page_end p)) passages
       ++ map (fun span => (span_start span, span_end span)) pageSpans)%list.
Proof.
  induction pageSpans as [|span rest IH]; intros passages result s s' H.
  - cbn in H. injection H as <- _. cbn. rewrite app_nil_r. reflexivity.
  - cbn [passagesLoop] in H. unfold bind at 1 in H.
    destruct (generate P K [filePart file; Text (passagePrompt span)] s)
      as [[text|e] s1]; [|discriminate H].
    apply IH in H. rewrite map_app in H. cbn [map page_start page_end] in H.
    rewrite <- app_assoc in H. exact H.
Qed.

End Search.

(** X23. A search over a service that holds no file returns an empty list
    of results without asking the model. The listing behind it is not under
    the retry executor: when it fails, even with an error that would be
    retried elsewhere, the search fails with the classification of that
    error after this one request. *)
Theorem searchDocuments_without_files {World : Type} (P : Platform World) (K : Sdk World)
  (query : string) (topK : Z) (filters : option Filters) (s : Session World)
  (listed : Res (option (list RemoteFile))) (w1 : World) :
  sdk_listFiles P (world (process s)) = (listed, w1) ->
  match listed with Ok (Some (_ :: _)) => False | _ => True end ->
  searchDocuments P K query topK filters s
  = (match listed with
     | Ok _ => Ok []
     | Throw x => Throw (TMCP (parseGeminiError x))
     end,
     mkSession (mkSt (client (process s)) w1 (calls (process s) ++ [ListFiles]))
       (asked s)).
Proof.
  intros Hlist Hnone. unfold searchDocuments.
  destruct listed as [[[|file rest]|]|x]; try contradiction.
  - apply handleErrors_ok. unfold bind, lift, remote. rewrite Hlist. reflexivity.
  - apply handleErrors_ok. unfold bind, lift, remote. rewrite Hlist. reflexivity.
  - apply handleErrors_throw. unfold bind, lift, remote. rewrite Hlist. reflexivity.
Qed.

Lemma searchDocuments_without_files_witness :
  searchDocuments Sim.platform simSdk "retrieval" 10 None simSessionEmpty
  = (Ok [],
     mkSession (mkSt (client Sim.resolved) (Sim.mkWorld [Sim.papers] []) [ListFiles]) []).
Proof.
  apply (searchDocuments_without_files Sim.platform simSdk "retrieval" 10 None
           simSessionEmpty (Ok (Some [])) (Sim.mkWorld [Sim.papers] []));
    [reflexivity | exact I].
Defined.

(** X24. A search over a service that holds files, when the model answers
    at the first attempt: the model is asked once, with the first ten files
    listed (a file without MIME type as application/pdf) followed by the
    prompt that embeds the query. Exactly one result comes back whatever
    [top_k] and the filters are: it names the first file listed, has score
    1 and pages 1 to 1, and its snippet is the first 500 UTF-16 code units
    of the model's answer, as [substring(0, 500)] counts them. *)
Theorem searchDocuments_single_result {World : Type} (P : Platform World) (K : Sdk World)
  (query : string) (topK : Z) (filters : option Filters) (s : Session World)
  (file : RemoteFile) (rest : list RemoteFile) (text : string) (w1 w2 : World) :
  sdk_listFiles P (world (process s)) = (Ok (Some (file :: rest)), w1) ->
  model_generateContent K (searchParts (file :: rest) query) w1 = (Ok (Ok text), w2) ->
  searchDocuments P K query topK filters s
  = (Ok [searchResultOf file text],
     mkSession (mkSt (client (process s)) w2 (calls (process s) ++ [ListFiles]))
       (asked s ++ [GenerateContent (searchParts (file :: rest) query)])) /\
  (utf16Length (snippet (searchResultOf file text)) <= 500)%nat /\
  (List.length (searchParts (file :: rest) query) <= 11)%nat.
Proof.
  intros Hlist Hgen. split; [|split].
  - unfold searchDocuments. apply handleErrors_ok.
    unfold bind at 1. unfold lift, remote. rewrite Hlist. cbv zeta.
    replace (Z.of_nat (List.length (file :: rest)) =? 0) with false
      by (symmetry; apply Z.eqb_neq; cbn [List.length]; lia).
    rewrite js_slice_first_ten.
    fold (searchParts (file :: rest) query).
    erewrite bind_ok; [|apply generate_first_ok; cbn [process world]; exact Hgen].
    reflexivity.
  - apply substringTo_length.
  - unfold searchParts. rewrite length_app, length_map, length_firstn. cbn [List.length]. lia.
Qed.

Lemma searchDocuments_single_result_witness :
  searchDocuments Sim.platform simSdk "retrieval" 3 None simSession
  = (Ok [searchResultOf (Sim.remoteFile "a") "The answer is on page 3."],
     mkSession (mkSt (client Sim.resolved) Sim.world0 (calls Sim.resolved ++ [ListFiles]))
       (asked simSession
          ++ [GenerateContent (searchParts (Sim.remoteFiles Sim.world0) "retrieval")])) /\
  (utf16Length
     (snippet (searchResultOf (Sim.remoteFile "a") "The answer is on page 3.")) <= 500)%nat /\
  (List.length (searchParts (Sim.remoteFiles Sim.world0) "retrieval") <= 11)%nat.
Proof.
  apply (searchDocuments_single_result Sim.platform simSdk "retrieval" 3 None simSession
           (Sim.remoteFile "a")
           [Sim.remoteFile "b"; Sim.remoteFile "c"; Sim.remoteFile "d"; Sim.remoteFile "e"]
           "The answer is on page 3." Sim.world0 Sim.world0); reflexivity.
Defined.

(** X25. Whatever the model does, a search over the files [file :: rest]
    asks the model between one and three times, each time with the same
    prompt, lists the files once and sends nothing else; if it returns, it
    returns at most one result. *)
Theorem searchDocuments_requests {World : Type} (P : Platform World) (K : Sdk World)
  (query : string) (topK : Z) (filters : option Filters) (s : Session World)
  (file : RemoteFile) (rest : list RemoteFile) (w1 : World) :
  sdk_listFiles P (world (process s)) = (Ok (Some (file :: rest)), w1) ->
  (exists k : nat,
     (1 <= k <= 3)%nat /\
     asked (snd (searchDocuments P K query topK filters s))
     = (asked s ++ repeat (GenerateContent (searchParts (file :: rest) query)) k)%list) /\
  calls (process (snd (searchDocuments P K query topK filters s)))
  = (calls (process s) ++ [ListFiles])%list /\
  (forall results, fst (searchDocuments P K query topK filters s) = Ok results ->
     (List.length results <= 1)%nat).
Proof.
  intros Hlist.
  destruct (generate_requests P K (searchParts (file :: rest) query)
              (mkSession (mkSt (client (process s)) w1 (calls (process s) ++ [ListFiles]))
                 (asked s)))
    as (k & Hk & Hasked & Hcalls).
  assert (Hrun : searchDocuments P K query topK filters s
                 = handleErrors
                     (responseText <- generate P K (searchParts (file :: rest) query) ;;
                      ret [searchResultOf file responseText])%async
                     (mkSession
                        (mkSt (client (process s)) w1 (calls (process s) ++ [ListFiles]))
                        (asked s))).
  { unfold searchDocuments, handleErrors, try_catch.
    unfold bind at 1. unfold lift, remote. rewrite Hlist. cbv zeta.
    replace (Z.of_nat (List.length (file :: rest)) =? 0) with false
      by (symmetry; apply Z.eqb_neq; cbn [List.length]; lia).
    rewrite js_slice_first_ten. reflexivity. }
  rewrite Hrun. unfold handleErrors, try_catch, bind, ret, throw.
  destruct (generate P K (searchParts (file :: rest) query)
              (mkSession (mkSt (client (process s)) w1 (calls (process s) ++ [ListFiles]))
                 (asked s))) as [[text|e] s1]; cbn [fst snd] in *.
  - split; [exists k; split; assumption|]. split; [exact Hcalls|].
    intros results H. injection H as <-. cbn. lia.
  - split; [exists k; split; assumption|]. split; [exact Hcalls|].
    intros results H. discriminate H.
Qed.

Lemma searchDocuments_requests_witness :
  (exists k : nat,
     (1 <= k <= 3)%nat /\
     asked (snd (searchDocuments Sim.platform downSdk "retrieval" 10 None simSession))
     = (asked simSession
          ++ repeat (GenerateContent (searchParts (Sim.remoteFiles Sim.world0) "retrieval"))
               k)%list) /\
  calls (process (snd (searchDocuments Sim.platform downSdk "retrieval" 10 None simSession)))
  = (calls (process simSession) ++ [ListFiles])%list /\
  (forall results,
     fst (searchDocuments Sim.platform downSdk "retrieval" 10 None simSession) = Ok results ->
     (List.length results <= 1)%nat).
Proof.
  apply (searchDocuments_requests Sim.platform downSdk "retrieval" 10 None simSession
           (Sim.remoteFile "a")
           [Sim.remoteFile "b"; Sim.remoteFile "c"; Sim.remoteFile "d"; Sim.remoteFile "e"]
           Sim.world0); reflexivity.
Defined.

(** X26. Asking for passages of a document that the file manager reports
    as missing, or without a URI, throws [FILE_NOT_FOUND] with [retryable]
    false after the one [getFile] request; the model is not asked. *)
Theorem getPassages_file_not_found {World : Type} (P : Platform World) (K : Sdk World)
  (docId : string) (pageSpans : list PageSpan) (s : Session World)
  (file : option RemoteFile) (w1 : World) :
  files_getFile K docId (world (process s)) = (Ok file, w1) ->
  match file with Some f => truthy_opt (rf_uri f) = false | None => True end ->
  getPassages P K docId pageSpans s
  = (Throw (TMCP (fileNotFound docId)),
     mkSession (mkSt (client (process s)) w1 (calls (process s)))
       (asked s ++ [GetFile docId])).
Proof.
  intros Hget Hnone. unfold getPassages.
  apply (handleErrors_throw _ s _ (TMCP (fileNotFound docId))).
  rewrite (bind_ok _ _ _ _ _ (ask_first_ok P (GetFile docId) _ s file w1 Hget)).
  destruct file as [f|]; [rewrite Hnone|]; reflexivity.
Qed.

Lemma getPassages_file_not_found_witness :
  getPassages Sim.platform simSdk "files/a" [mkPageSpan 1 2] simSession
  = (Throw (TMCP (fileNotFound "files/a")),
     mkSession (mkSt (client Sim.resolved) Sim.world0 (calls Sim.resolved))
       (asked simSession ++ [GetFile "files/a"])).
Proof.
  apply (getPassages_file_not_found Sim.platform simSdk "files/a" [mkPageSpan 1 2]
           simSession (Some (Sim.remoteFile "a")) Sim.world0); reflexivity.
Defined.

(** X27. Whenever [getPassages] returns, it returns one passage per page
    span asked for, in the same order and with the same page numbers. *)
Theorem getPassages_mirrors_spans {World : Type} (P : Platform World) (K : Sdk World)
  (docId : string) (pageSpans : list PageSpan) (s : Session World)
  (passages : list Passage) :
  fst (getPassages P K docId pageSpans s) = Ok passages ->
  map (fun p => (page_start p, page_end p)) passages
  = map (fun span => (span_start span, span_end span)) pageSpans.
Proof.
  unfold getPassages, handleErrors, try_catch, bind, throw.
  destruct (retryWithBackoff (sessionRuntime P)
              (ask (GetFile docId) (files_getFile K docId)) noOptions s)
    as [[[f|]|e] s1]; cbn [fst]; try discriminate.
  destruct (truthy_opt (rf_uri f)); [|discriminate].
  destruct (passagesLoop P K f pageSpans [] s1) as [[result|e] s2] eqn:Hloop;
    cbn [fst]; [|discriminate].
  intros H. injection H as <-.
  exact (passagesLoop_spans P K f pageSpans [] result s1 s2 Hloop).
Qed.

Lemma getPassages_mirrors_spans_witness :
  fst (getPassages Sim.platform simSdk "files/f0" [mkPageSpan 1 2; mkPageSpan 7 7]
         simSessionWithFile)
  = Ok [mkPassage 1 2 "The answer is on page 3."; mkPassage 7 7 "The answer is on page 3."] /\
  map (fun p => (page_start p, page_end p))
    [mkPassage 1 2 "The answer is on page 3."; mkPassage 7 7 "The answer is on page 3."]
  = map (fun span => (span_start span, span_end span)) [mkPageSpan 1 2; mkPageSpan 7 7].
Proof.
  split; [reflexivity|].
  apply (getPassages_mirrors_spans Sim.platform simSdk "files/f0"
           [mkPageSpan 1 2; mkPageSpan 7 7] simSessionWithFile).
  reflexivity.
Defined.

(** X28. Deleting a document sends between one and three [deleteFile]
    requests for that document and nothing else, whatever the service
    answers; the client is left as it was. *)
Theorem deleteDocument_requests {World : Type} (P : Platform World) (K : Sdk World)
  (docId : string) (s : Session World) :
  exists k : nat,
    (1 <= k <= 3)%nat /\
    asked (snd (deleteDocument P K docId s)) = (asked s ++ repeat (DeleteFile docId) k)%list /\
    calls (process (snd (deleteDocument P K docId s))) = calls (process s) /\
    client (process (snd (deleteDocument P K docId s))) = client (process s).
Proof.
  destruct (ask_requests P (DeleteFile docId) (files_deleteFile K docId) s)
    as (k & Hk & H).
  exists k. split; [exact Hk|].
  unfold deleteDocument. rewrite handleErrors_snd. unfold bind, ret.
  destruct (retryWithBackoff (sessionRuntime P)
              (ask (DeleteFile docId) (files_deleteFile K docId)) noOptions s)
    as [[[]|e] s1]; exact H.
Qed.

(** X29. The health check never throws. It asks the model once, with the
    prompt "ping" and without retrying, and reports [healthy] exactly when
    that request resolved; otherwise the message carries the message of the
    error. *)
Theorem healthCheck_never_throws {World : Type} (K : Sdk World) (s : Session World) :
  exists h : Health,
    fst (healthCheck K s) = Ok h /\
    asked (snd (healthCheck K s)) = (asked s ++ [GenerateContent [Text "ping"]])%list /\
    (healthy h = true <->
       exists response w,
         model_generateContent K [Text "ping"] (world (process s)) = (Ok response, w)) /\
    (forall x w,
       model_generateContent K [Text "ping"] (world (process s)) = (Throw x, w) ->
       h = mkHealth false ("Health check failed: " ++ errorMessage x)).
Proof.
  unfold healthCheck, try_catch, bind, ask, ret.
  destruct (model_generateContent K [Text "ping"] (world (process s)))
    as [[response|x] w] eqn:Hgen; cbn [fst snd asked].
  - eexists. split; [reflexivity|]. split; [reflexivity|]. split.
    + split; [intros _; exists response, w; reflexivity | reflexivity].
    + intros x' w' H. discriminate H.
  - eexists. split; [reflexivity|]. split; [reflexivity|]. split.
    + split; [intros H; discriminate H | intros (response & w' & H); discriminate H].
    + intros x' w' H. injection H as <- _. reflexivity.
Qed.

(* ====================================================================== *)
(** ** What a listing carries                                              *)
(* ====================================================================== *)

Lemma In_js_slice {A : Type} (l : list A) (start end_ : Z) (x : A) :
  In x (js_slice l start end_) -> In x l.
Proof.
  unfold js_slice. cbv zeta. intros H.
  apply In_nth_error in H. destruct H as [i Hi].
  rewrite nth_error_firstn in Hi.
  destruct (Nat.ltb i _); [|discriminate Hi].
  rewrite nth_error_skipn in Hi. exact (nth_error_In _ _ Hi).
Qed.

Lemma js_slice_length {A : Type} (l : list A) (start end_ : Z) :
  (List.length (js_slice l start end_) <= List.length l)%nat.
Proof.
  unfold js_slice. cbv zeta. rewrite length_firstn, length_skipn. lia.
Qed.

(** X30. Whatever page is asked for, every document that [listDocuments]
    returns has an empty hash, an empty dedupe key and empty metadata: what
    [uploadDocument] computed for a file is not part of a listing. Each
    document carries the client's store id, or "unknown" when the client
    holds none, and the page is never longer than the total count. *)
Theorem listDocuments_carries_no_hash {World : Type} (P : Platform World)
  (page pageSize : Z) (st : St World) (listing : DocumentPage) :
  fst (listDocuments P page pageSize st) = Ok listing ->
  Forall (fun d => hash d = EmptyString /\ dedupe_key d = EmptyString /\
                   metadata d = emptyMetadata /\
                   store_id d = or_else (storeId (client st)) "unknown")
    (documents listing) /\
  Z.of_nat (List.length (documents listing)) <= totalCount listing.
Proof.
  destruct (retryWithBackoff_requests P ListFiles (sdk_listFiles P) noOptions st)
    as (k & _ & _ & _ & Hclient).
  { intros f a e s Hf. discriminate Hf. }
  unfold listDocuments, handleErrors, try_catch, bind, getClient, getWorld, ret, throw.
  destruct (retryWithBackoff (stRuntime P) (remote ListFiles (sdk_listFiles P))
              noOptions st) as [[files|e] st1]; cbn [fst snd] in *; [|discriminate].
  intros H. injection H as <-. cbn [documents totalCount]. split.
  - apply Forall_forall. intros d Hd. apply In_js_slice in Hd.
    unfold allDocumentsOf in Hd. apply in_map_iff in Hd.
    destruct Hd as (file & <- & _). rewrite Hclient. repeat split.
  - apply inj_le. apply js_slice_length.
Qed.

Lemma listDocuments_carries_no_hash_witness :
  fst (listDocuments Sim.platform 2 2 Sim.resolved)
  = Ok (mkDocumentPage
          [toDocument Sim.platform (client Sim.resolved) Sim.world0 (Sim.remoteFile "c");
           toDocument Sim.platform (client Sim.resolved) Sim.world0 (Sim.remoteFile "d")]
          5) /\
  Forall (fun d => hash d = EmptyString /\ dedupe_key d = EmptyString /\
                   metadata d = emptyMetadata /\
                   store_id d = or_else (storeId (client Sim.resolved)) "unknown")
    [toDocument Sim.platform (client Sim.resolved) Sim.world0 (Sim.remoteFile "c");
     toDocument Sim.platform (client Sim.resolved) Sim.world0 (Sim.remoteFile "d")] /\
  Z.of_nat (List.length
              [toDocument Sim.platform (client Sim.resolved) Sim.world0 (Sim.remoteFile "c");
               toDocument Sim.platform (client Sim.resolved) Sim.world0 (Sim.remoteFile "d")])
  <= 5.
Proof.
  split; [reflexivity|].
  apply (listDocuments_carries_no_hash Sim.platform 2 2 Sim.resolved
           (mkDocumentPage
              [toDocument Sim.platform (client Sim.resolved) Sim.world0 (Sim.remoteFile "c");
               toDocument Sim.platform (client Sim.resolved) Sim.world0 (Sim.remoteFile "d")]
              5)).
  reflexivity.
Defined.

